(** * chameleon: the plugin lifecycle runtime (pkg/plugin)

    A shallow embedding of the circuit breaker, the metrics collector, the
    configuration merge, the version comparison and the Manager operations
    [LoadPluginWithConfig], [Call], [Close], [IsCircuitBreakerOpen] and
    [GetBreakerStatus], followed by the properties proved about them.

    Conventions.
    - Go's [int], [int64] and [time.Duration] are 64-bit, [int32] is 32-bit;
      they are integers in [Z] with the wrap-around written out where the
      code does arithmetic on them.
    - Every operation is modelled as it runs when no other goroutine
      interleaves with it: an atomic cell is its value, and a
      compare-and-swap is the function [CompareAndSwap] below.
    - Pointers are addresses into explicit stores, so that an object reached
      through a map and through a local variable is one object.
    - A run-time panic is an outcome of its own ([Panic]).
    - Log output is not modelled. *)

From Stdlib Require Import ZArith String Ascii List Lia.
From stdpp Require Import base option gmap strings list fin_maps.

Open Scope string_scope.
Open Scope list_scope.
Open Scope Z_scope.

Set Warnings "-register-all".

(** ** Machine integers *)

(** The value of [z] in two's complement on [bits] bits. *)
Definition wrap (bits : Z) (z : Z) : Z :=
  (z + 2 ^ (bits - 1)) mod 2 ^ bits - 2 ^ (bits - 1).

Definition int32 (z : Z) : Z := wrap 32 z.
Definition int64 (z : Z) : Z := wrap 64 z.

Definition MaxInt64 : Z := 2 ^ 63 - 1.
Definition MinInt64 : Z := - 2 ^ 63.
Definition MaxUint64 : Z := 2 ^ 64 - 1.

(** [atomic.Int32.CompareAndSwap] / [atomic.Int64.CompareAndSwap]: the new
    cell value and whether the swap happened. *)
Definition CompareAndSwap (cell old new : Z) : Z * bool :=
  if cell =? old then (new, true) else (cell, false).

(** ** Package time *)

Module time.

(** Durations are nanosecond counts. *)
Definition Nanosecond : Z := 1.
Definition Millisecond : Z := 1000000.
Definition Second : Z := 1000000000.

(** [Time.Sub]: the difference of two instants (nanoseconds since the
    epoch), saturated to the range of a [Duration]. *)
Definition Sub (t u : Z) : Z :=
  let d := t - u in
  if d >? MaxInt64 then MaxInt64
  else if d <? MinInt64 then MinInt64
  else d.

(** [time.Since(t)] read at clock value [now]. *)
Definition Since (now t : Z) : Z := Sub now t.

(** [Time.UnixNano]. *)
Definition UnixNano (t : Z) : Z := int64 t.

End time.

(** ** Configuration records (config.go) *)

Record CircuitBreakerConfig := mkCircuitBreakerConfig {
  Enabled : bool;
  MaxFailures : Z;
  ResetInterval : Z;
  TimeoutDuration : Z
}.

(** ** The circuit breaker (circuit_breaker.go) *)

Module CircuitBreaker.

(** [CircuitState] is an [int32]; the three constants of the source. *)
Definition StateClosed : Z := 0.
Definition StateOpen : Z := 1.
Definition StateHalfOpen : Z := 2.

(** The struct behind a [*CircuitBreaker].  [done] tells whether the
    [done] channel has been closed; the timer, the cancel function and
    the logger carry no state of their own here. *)
Record t := mk {
  state : Z;
  failures : Z;
  lastFailure : Z;
  config : CircuitBreakerConfig;
  done : bool
}.

Definition set_state (s : Z) (cb : t) : t :=
  mk s (failures cb) (lastFailure cb) (config cb) (done cb).
Definition set_failures (f : Z) (cb : t) : t :=
  mk (state cb) f (lastFailure cb) (config cb) (done cb).
Definition set_lastFailure (l : Z) (cb : t) : t :=
  mk (state cb) (failures cb) l (config cb) (done cb).
Definition set_done (d : bool) (cb : t) : t :=
  mk (state cb) (failures cb) (lastFailure cb) (config cb) d.

(** [NewCircuitBreaker]: the freshly built struct (the goroutine it
    starts runs [resetTick] whenever the timer fires). *)
Definition New (cfg : CircuitBreakerConfig) : t :=
  mk StateClosed 0 0 cfg false.

(** One firing of the reset timer inside [resetLoop]. *)
Definition resetTick (cb : t) : t :=
  if state cb =? StateOpen then
    let '(s, _) := CompareAndSwap (state cb) StateOpen StateHalfOpen in
    set_failures 0 (set_state s cb)
  else cb.

(** The methods take the receiver as [option t]: [None] is the nil
    [*CircuitBreaker].  They return the receiver's struct after the call. *)

Definition Allow (now : Z) (cb : option t) : option t * bool :=
  match cb with
  | None => (None, true)
  | Some cb =>
    let currentState := state cb in
    if currentState =? StateClosed then (Some cb, true)
    else if currentState =? StateHalfOpen then (Some cb, true)
    else if currentState =? StateOpen then
      let lastFailureTime := lastFailure cb in
      if time.Since now lastFailureTime >? TimeoutDuration (config cb) then
        let '(s, swapped) :=
          CompareAndSwap (state cb) StateOpen StateHalfOpen in
        let cb := set_state s cb in
        let cb := if swapped : bool then set_failures 0 cb else cb in
        (Some cb, true)
      else (Some cb, false)
    else (Some cb, true)
  end.

Definition RecordSuccess (cb : option t) : option t :=
  match cb with
  | None => None
  | Some cb =>
    let currentState := state cb in
    if currentState =? StateHalfOpen then
      let '(s, _) := CompareAndSwap (state cb) StateHalfOpen StateClosed in
      Some (set_failures 0 (set_state s cb))
    else Some cb
  end.

Definition RecordFailure (now : Z) (cb : option t) : option t :=
  match cb with
  | None => None
  | Some cb =>
    let cb := set_lastFailure (time.UnixNano now) cb in
    let failures' := int32 (failures cb + 1) in
    let cb := set_failures failures' cb in
    if failures' >=? int32 (MaxFailures (config cb)) then
      let '(s, _) := CompareAndSwap (state cb) StateClosed StateOpen in
      Some (set_state s cb)
    else Some cb
  end.

Definition State (cb : option t) : Z :=
  match cb with
  | None => StateClosed
  | Some cb => state cb
  end.

(** [Close]: cancel the reset loop and close [done] once. *)
Definition Close (cb : option t) : option t :=
  match cb with
  | None => None
  | Some cb => Some (set_done true cb)
  end.

End CircuitBreaker.


(** ** Package strings, strconv and path/filepath

    The library functions the version comparison and the plugin name are
    built from.  A Go string is a sequence of bytes, here a [string]. *)

Module strings.

(** [strings.TrimPrefix] for a one-byte prefix. *)
Definition TrimPrefix (s : string) (prefix : ascii) : string :=
  match s with
  | String c rest => if Ascii.eqb c prefix then rest else s
  | EmptyString => s
  end.

(** [strings.Split] for a one-byte separator: the pieces between the
    separators, one more than there are separators. *)
Fixpoint Split (s : string) (sep : ascii) : list string :=
  match s with
  | EmptyString => [EmptyString]
  | String c rest =>
    if Ascii.eqb c sep then EmptyString :: Split rest sep
    else
      match Split rest sep with
      | piece :: pieces => String c piece :: pieces
      | [] => [String c EmptyString]
      end
  end.

(** [strings.TrimSuffix]. *)
Definition TrimSuffix (s suffix : string) : string :=
  let n := String.length s in
  let k := String.length suffix in
  if (k <=? n)%nat && String.eqb (substring (n - k) k s) suffix
  then substring 0 (n - k) s else s.

End strings.

Module strconv.

Definition isDigit (c : ascii) : bool :=
  (48 <=? Z.of_N (N_of_ascii c)) && (Z.of_N (N_of_ascii c) <=? 57).

Definition digit (c : ascii) : Z := Z.of_N (N_of_ascii c) - 48.

Inductive NumError := ErrSyntax | ErrRange.

(** The digit loop of [ParseUint] in base 10 with 64 bits: stops with a
    syntax error at the first byte that is no digit and with a range error
    as soon as the value leaves [uint64]. *)
Fixpoint parseDigits (s : string) (n : Z) : Z * option NumError :=
  match s with
  | EmptyString => (n, None)
  | String c rest =>
    if isDigit c then
      if 10 * n + digit c >? MaxUint64 then (MaxUint64, Some ErrRange)
      else parseDigits rest (10 * n + digit c)
    else (0, Some ErrSyntax)
  end.

Definition ParseUint (s : string) : Z * option NumError :=
  match s with
  | EmptyString => (0, Some ErrSyntax)
  | _ => parseDigits s 0
  end.

(** [ParseInt(s, 10, 0)] on a 64-bit platform. *)
Definition ParseInt (s : string) : Z * option NumError :=
  match s with
  | EmptyString => (0, Some ErrSyntax)
  | String c rest =>
    let neg := Ascii.eqb c "-" in
    let digits := if Ascii.eqb c "+" || neg then rest else s in
    match ParseUint digits with
    | (_, Some ErrSyntax) => (0, Some ErrSyntax)
    | (un, _) =>
      let cutoff := 2 ^ 63 in
      if negb neg && (un >=? cutoff) then (cutoff - 1, Some ErrRange)
      else if neg && (un >? cutoff) then (- cutoff, Some ErrRange)
      else (if neg then - un else un, None)
    end
  end.

(** [strconv.Atoi]: its fast path for short strings returns what
    [ParseInt] returns. *)
Definition Atoi (s : string) : Z * option NumError := ParseInt s.

End strconv.

Module filepath.

Definition isPathSeparator (c : ascii) : bool := Ascii.eqb c "/".

Fixpoint rev_string (s acc : string) : string :=
  match s with
  | EmptyString => acc
  | String c rest => rev_string rest (String c acc)
  end.

Fixpoint dropSeparators (r : string) : string :=
  match r with
  | String c rest => if isPathSeparator c then dropSeparators rest else r
  | EmptyString => r
  end.

(** The bytes of [r] up to its first separator, reversed onto [acc]. *)
Fixpoint lastElement (r acc : string) : string :=
  match r with
  | String c rest => if isPathSeparator c then acc else lastElement rest (String c acc)
  | EmptyString => acc
  end.

(** [filepath.Base] on Unix; the scans from the end of the path run over
    the reversed string. *)
Definition Base (path : string) : string :=
  match path with
  | EmptyString => "."
  | _ =>
    match lastElement (dropSeparators (rev_string path "")) "" with
    | EmptyString => "/"
    | elem => elem
    end
  end.

(** The scan of [Ext] over the reversed path: [acc] holds the bytes already
    passed, in path order. *)
Fixpoint extFrom (r acc : string) : string :=
  match r with
  | String c rest =>
    if isPathSeparator c then ""
    else if Ascii.eqb c "." then String c acc
    else extFrom rest (String c acc)
  | EmptyString => ""
  end.

Definition Ext (path : string) : string := extFrom (rev_string path "") "".

End filepath.

(** ** manager.go: helper functions *)

Definition getPluginNameFromPath (path : string) : string :=
  let base := filepath.Base path in
  strings.TrimSuffix base (filepath.Ext base).

(** The two padding loops [for len(v) < 3 { v = append(v, "0") }]. *)
Definition padTo3 (v : list string) : list string :=
  v ++ repeat "0" (3 - length v)%nat.

(** The comparison loop over [i], run on the parts from index [i] on.
    [None] is the index-out-of-range panic of [v2[i]]. *)
Fixpoint compareParts (v1 v2 : list string) : option bool :=
  match v1 with
  | [] => Some false
  | p1 :: rest1 =>
    match v2 with
    | [] => None
    | p2 :: rest2 =>
      let n1 := fst (strconv.Atoi p1) in
      let n2 := fst (strconv.Atoi p2) in
      if n1 >? n2 then Some true
      else if n1 <? n2 then Some false
      else compareParts rest1 rest2
    end
  end.

Definition isHigherVersion (new current : string) : option bool :=
  let v1 := strings.Split (strings.TrimPrefix new "v") "." in
  let v2 := strings.Split (strings.TrimPrefix current "v") "." in
  let v1 := padTo3 v1 in
  let v2 := padTo3 v2 in
  compareParts v1 v2.

(** ** Values, errors, pointers *)

(** Go values of type [interface{}] that plugin code receives and returns. *)
Inductive Value :=
| VNil
| VBool (b : bool)
| VInt (z : Z)
| VStr (s : string).

(** The error values of errors.go that the runtime builds, [fmt.Errorf]
    with the errors it formats, and errors made by plugin code. *)
Inductive error :=
| ErrPluginNotFound (Name : string)
| ErrFuncNotFound (Name : string)
| ErrCircuitBreakerOpen (Name : string)
| ErrPluginFree (Name : string) (Err : error)
| Errorf (format : string) (args : list error)
| ErrPlugin (text : string).

(** A pointer: nil or an address of a store. *)
Inductive ptr :=
| nil
| addr (l : positive).

Definition isNil (p : ptr) : bool :=
  match p with
  | nil => true
  | addr _ => false
  end.

(** ** Outcomes and the state monad of a run *)

Inductive Res (S A : Type) :=
| Ret (a : A) (s : S)
| Panic (msg : string) (s : S).
Arguments Ret {S A} a s.
Arguments Panic {S A} msg s.

Definition StateM (S A : Type) : Type := S -> Res S A.

#[global] Instance StateM_ret {S} : MRet (StateM S) :=
  fun A a s => Ret a s.

#[global] Instance StateM_bind {S} : MBind (StateM S) :=
  fun A B k m s =>
    match m s with
    | Ret a s' => k a s'
    | Panic msg s' => Panic msg s'
    end.

Definition panic {S A} (msg : string) : StateM S A := fun s => Panic msg s.
Definition gets {S A} (f : S -> A) : StateM S A := fun s => Ret (f s) s.
Definition modify {S} (f : S -> S) : StateM S unit := fun s => Ret tt (f s).

(** What a run returned, if it did not panic, and the state it ended in. *)
Definition returned {S A} (r : Res S A) : option A :=
  match r with
  | Ret a _ => Some a
  | Panic _ _ => None
  end.

Definition final {S A} (r : Res S A) : S :=
  match r with
  | Ret _ s => s
  | Panic _ s => s
  end.

(** [for _, x := range l { body(x) }] *)
Fixpoint forEach {S A} (l : list A) (body : A -> StateM S unit) : StateM S unit :=
  match l with
  | [] => mret tt
  | x :: rest => body x ;; forEach rest body
  end.

Definition nilDeref : string :=
  "invalid memory address or nil pointer dereference".
Definition nilMapAssign : string := "assignment to entry in nil map".
Definition nilInterface : string :=
  "interface conversion: interface {} is nil, not *plugin.CircuitBreaker".
Definition indexOutOfRange : string := "index out of range".

(** ** config.go *)

(** [Options] is a Go map, that is a reference: nil or the address of the
    map's contents in a store of maps. *)
Record PluginSpecificConfig := mkPluginSpecificConfig {
  InitArgs : list Value;
  CircuitBreaker : CircuitBreakerConfig;
  MaxConcurrentCalls : Z;
  PluginTimeout : Z;
  Options : ptr
}.

Inductive LogLevel :=
| LogLevelDebug
| LogLevelInfo
| LogLevelWarn
| LogLevelError.

Record Config := mkConfig {
  PluginDir : string;
  AllowHotReload : bool;
  logLevel : LogLevel;
  EnableMetrics : bool;
  DefaultPluginConfig : PluginSpecificConfig;
  PluginConfigs : gmap string PluginSpecificConfig
}.

(** The store of option maps. *)
Abbreviation OptionMaps := (gmap positive (gmap string Value)).

(** [for k, v := range m]: the entries of the map behind [m]; none for
    the nil map. *)
Definition mapRange (m : ptr) : StateM OptionMaps (list (string * Value)) :=
  fun h =>
    match m with
    | nil => Ret [] h
    | addr l =>
      match h !! l with
      | Some entries => Ret (map_to_list entries) h
      | None => Panic nilDeref h
      end
    end.

(** [m[k] = v] *)
Definition mapAssign (m : ptr) (k : string) (v : Value) : StateM OptionMaps unit :=
  fun h =>
    match m with
    | nil => Panic nilMapAssign h
    | addr l =>
      match h !! l with
      | Some entries => Ret tt (<[l := <[k := v]> entries]> h)
      | None => Panic nilDeref h
      end
    end.

Definition mergeConfig (defaultConfig specificConfig : PluginSpecificConfig)
  : StateM OptionMaps PluginSpecificConfig :=
  let merged := defaultConfig in
  let merged :=
    if (0 <? length (InitArgs specificConfig))%nat
    then mkPluginSpecificConfig (InitArgs specificConfig) (CircuitBreaker merged)
           (MaxConcurrentCalls merged) (PluginTimeout merged) (Options merged)
    else merged in
  let merged :=
    if Enabled (CircuitBreaker specificConfig)
    then mkPluginSpecificConfig (InitArgs merged) (CircuitBreaker specificConfig)
           (MaxConcurrentCalls merged) (PluginTimeout merged) (Options merged)
    else merged in
  let merged :=
    if MaxConcurrentCalls specificConfig >? 0
    then mkPluginSpecificConfig (InitArgs merged) (CircuitBreaker merged)
           (MaxConcurrentCalls specificConfig) (PluginTimeout merged) (Options merged)
    else merged in
  let merged :=
    if PluginTimeout specificConfig >? 0
    then mkPluginSpecificConfig (InitArgs merged) (CircuitBreaker merged)
           (MaxConcurrentCalls merged) (PluginTimeout specificConfig) (Options merged)
    else merged in
  entries ← mapRange (Options specificConfig);
  forEach entries (fun '(k, v) => mapAssign (Options merged) k v) ;;
  mret merged.

Definition GetPluginConfig (c : Config) (pluginName : string)
  : StateM OptionMaps PluginSpecificConfig :=
  match PluginConfigs c !! pluginName with
  | Some config => mergeConfig (DefaultPluginConfig c) config
  | None => mret (DefaultPluginConfig c)
  end.

(** [make(map[string]interface{})]: a new empty map at an unused address. *)
Definition makeMap : StateM OptionMaps ptr :=
  fun h =>
    let l := fresh (dom h) in
    Ret (addr l) (<[l := ∅]> h).

Definition DefaultCircuitBreakerConfig : CircuitBreakerConfig :=
  mkCircuitBreakerConfig true 5 (60 * time.Second) (5 * time.Second).

Definition DefaultPluginSpecificConfig : StateM OptionMaps PluginSpecificConfig :=
  options ← makeMap;
  mret (mkPluginSpecificConfig [] DefaultCircuitBreakerConfig 100 (30 * time.Second) options).

Definition DefaultConfig : StateM OptionMaps Config :=
  defaultPluginConfig ← DefaultPluginSpecificConfig;
  mret (mkConfig "" true LogLevelInfo true defaultPluginConfig ∅).

Definition validatePluginSpecificConfig (config : PluginSpecificConfig) : option error :=
  if MaxConcurrentCalls config <? 0
  then Some (Errorf "MaxConcurrentCalls cannot be negative" [])
  else if PluginTimeout config <? 0
  then Some (Errorf "PluginTimeout cannot be negative" [])
  else if Enabled (CircuitBreaker config) then
    if MaxFailures (CircuitBreaker config) <=? 0
    then Some (Errorf "CircuitBreaker MaxFailures must be positive" [])
    else if ResetInterval (CircuitBreaker config) <=? 0
    then Some (Errorf "CircuitBreaker ResetInterval must be positive" [])
    else if TimeoutDuration (CircuitBreaker config) <=? 0
    then Some (Errorf "CircuitBreaker TimeoutDuration must be positive" [])
    else None
  else None.

(** The loop of [ValidateConfig] over the overrides, in the order the
    iteration meets them: it returns at the first invalid one. *)
Fixpoint validateOverrides (entries : list (string * PluginSpecificConfig))
  : option error :=
  match entries with
  | [] => None
  | (name, pluginConfig) :: rest =>
    match validatePluginSpecificConfig pluginConfig with
    | Some err =>
      Some (Errorf ("invalid config for plugin " +:+ name +:+ ": %w") [err])
    | None => validateOverrides rest
    end
  end.

(** [config] is a [*Config]: [None] is nil. *)
Definition ValidateConfig (config : option Config) : option error :=
  match config with
  | None => Some (Errorf "config cannot be nil" [])
  | Some config =>
    match validatePluginSpecificConfig (DefaultPluginConfig config) with
    | Some err => Some (Errorf "invalid default plugin config: %w" [err])
    | None => validateOverrides (map_to_list (PluginConfigs config))
    end
  end.

Definition clonePluginSpecificConfig (config : PluginSpecificConfig)
  : StateM OptionMaps PluginSpecificConfig :=
  options ← makeMap;
  let clone :=
    mkPluginSpecificConfig (InitArgs config) (CircuitBreaker config)
      (MaxConcurrentCalls config) (PluginTimeout config) options in
  entries ← mapRange (Options config);
  forEach entries (fun '(k, v) => mapAssign (Options clone) k v) ;;
  mret clone.

(** The loop of [Clone] over the overrides. *)
Fixpoint cloneOverrides (entries : list (string * PluginSpecificConfig))
  (acc : gmap string PluginSpecificConfig)
  : StateM OptionMaps (gmap string PluginSpecificConfig) :=
  match entries with
  | [] => mret acc
  | (name, config) :: rest =>
    clone ← clonePluginSpecificConfig config;
    cloneOverrides rest (<[name := clone]> acc)
  end.

Definition Clone (c : Config) : StateM OptionMaps Config :=
  defaultPluginConfig ← clonePluginSpecificConfig (DefaultPluginConfig c);
  pluginConfigs ← cloneOverrides (map_to_list (PluginConfigs c)) ∅;
  mret (mkConfig (PluginDir c) (AllowHotReload c) (logLevel c) (EnableMetrics c)
          defaultPluginConfig pluginConfigs).

(** ** plugin.go *)

Module Bureau.

(** What a plugin exports: its name and version and what its [Init] and
    [Free] return ([None] is the nil error). *)
Record t := mk {
  Name : string;
  Version : string;
  Init : list Value -> option error;
  Free : option error
}.

End Bureau.

(** A plugin function: from the arguments to the result, the error and the
    time the call takes.  The context argument is not modelled. *)
Definition InvokeFunc : Type := list Value -> Value * option error * Z.

(** The struct behind a [*Plugin]; [id] stands for the pointer's identity.
    None of its fields changes after the load. *)
Record Plugin := mkPlugin {
  id : positive;
  bureau : Bureau.t;
  funcs : gmap string InvokeFunc;
  refs : Z
}.

(** ** metrics.go *)

Module PluginMetrics.

Record MethodMetrics := mkMethodMetrics {
  Count : Z;
  TotalTime : Z;
  MinTime : Z;
  MaxTime : Z
}.

(** [plugins] maps a plugin name to its [PluginMethodMetrics], the map from
    function names to [MethodMetrics]. *)
Record t := mk {
  plugins : gmap string (gmap string MethodMetrics);
  enabled : bool
}.

Definition NewPluginMetrics (enabled : bool) : t := mk ∅ enabled.

Definition SetEnabled (enabled : bool) (m : t) : t := mk (plugins m) enabled.

Definition IsEnabled (m : t) : bool := enabled m.

(** One of the two retry loops
    [for { current := Load(); if want(current) { if CompareAndSwap(current, new) { break } } else { break } }].
    Without interleaving the swap of the value just loaded succeeds
    ([CompareAndSwap_loaded]), so the body runs once. *)
Definition casLoop (want : Z -> bool) (new cell : Z) : Z :=
  let current := cell in
  if want current then fst (CompareAndSwap cell current new) else cell.

Definition RecordMetric (pluginName funcName : string) (duration : Z) (m : t) : t :=
  if negb (enabled m) then m
  else
    (* LoadOrStore of the plugin's and of the method's metrics *)
    let pMetrics := default ∅ (plugins m !! pluginName) in
    let metrics := default (mkMethodMetrics 0 0 0 0) (pMetrics !! funcName) in
    let durationNanos := duration in
    let count := int64 (Count metrics + 1) in
    let total := int64 (TotalTime metrics + durationNanos) in
    let min :=
      casLoop (fun current => (current =? 0) || (durationNanos <? current))
        durationNanos (MinTime metrics) in
    let max :=
      casLoop (fun current => durationNanos >? current)
        durationNanos (MaxTime metrics) in
    let metrics := mkMethodMetrics count total min max in
    mk (<[pluginName := <[funcName := metrics]> pMetrics]> (plugins m)) (enabled m).

(** [GetPluginMetrics]: a copy of the plugin's method metrics. *)
Definition GetPluginMetrics (pluginName : string) (m : t)
  : gmap string MethodMetrics + error :=
  if negb (enabled m) then inr (Errorf "metrics are disabled" [])
  else
    match plugins m !! pluginName with
    | None => inr (Errorf "no metrics found for plugin: %s" [])
    | Some pMetrics => inl pMetrics
    end.

(** [AddPlugin]: [LoadOrStore] keeps the metrics a plugin already has. *)
Definition AddPlugin (pluginName : string) (m : t) : t :=
  if negb (enabled m) then m
  else
    match plugins m !! pluginName with
    | Some _ => m
    | None => mk (<[pluginName := ∅]> (plugins m)) (enabled m)
    end.

End PluginMetrics.

(** ** manager.go *)

Inductive PluginState :=
| StateActive
| StateDeprecated.

Module PluginInstance.

Record t := mk {
  Plugin : Plugin;
  state : PluginState;
  version : string
}.

End PluginInstance.

(** types.go *)
Module PluginInfo.

Record t := mk {
  Name : string;
  Version : string;
  State : PluginState;
  RefCount : Z;
  Path : string
}.

End PluginInfo.

(** The calls into plugin code, in the order they happen. *)
Inductive Event :=
| EvInit (plugin : positive) (args : list Value)
| EvFree (plugin : positive)
| EvInvoke (plugin : positive) (name : string) (args : list Value).

(** The Manager together with what it points to and runs in: the three
    maps of the struct (a [sync.Map] is its contents), the metrics
    collector and the configuration; the store of the [*PluginInstance] and
    [*CircuitBreaker] objects; the clock in nanoseconds since the epoch; and
    the calls made into plugin code so far. *)
Record World := mkWorld {
  plugins : gmap string ptr;
  pluginPaths : gmap string string;
  breakers : gmap string ptr;
  metrics : PluginMetrics.t;
  config : Config;
  instances : gmap positive PluginInstance.t;
  cbs : gmap positive CircuitBreaker.t;
  now : Z;
  trace : list Event
}.

Definition set_plugins (f : gmap string ptr -> gmap string ptr) (w : World) : World :=
  mkWorld (f (plugins w)) (pluginPaths w) (breakers w) (metrics w) (config w)
    (instances w) (cbs w) (now w) (trace w).
Definition set_pluginPaths (f : gmap string string -> gmap string string) (w : World) : World :=
  mkWorld (plugins w) (f (pluginPaths w)) (breakers w) (metrics w) (config w)
    (instances w) (cbs w) (now w) (trace w).
Definition set_breakers (f : gmap string ptr -> gmap string ptr) (w : World) : World :=
  mkWorld (plugins w) (pluginPaths w) (f (breakers w)) (metrics w) (config w)
    (instances w) (cbs w) (now w) (trace w).
Definition set_metrics (f : PluginMetrics.t -> PluginMetrics.t) (w : World) : World :=
  mkWorld (plugins w) (pluginPaths w) (breakers w) (f (metrics w)) (config w)
    (instances w) (cbs w) (now w) (trace w).
Definition set_instances
  (f : gmap positive PluginInstance.t -> gmap positive PluginInstance.t) (w : World) : World :=
  mkWorld (plugins w) (pluginPaths w) (breakers w) (metrics w) (config w)
    (f (instances w)) (cbs w) (now w) (trace w).
Definition set_cbs
  (f : gmap positive CircuitBreaker.t -> gmap positive CircuitBreaker.t) (w : World) : World :=
  mkWorld (plugins w) (pluginPaths w) (breakers w) (metrics w) (config w)
    (instances w) (f (cbs w)) (now w) (trace w).
Definition set_now (f : Z -> Z) (w : World) : World :=
  mkWorld (plugins w) (pluginPaths w) (breakers w) (metrics w) (config w)
    (instances w) (cbs w) (f (now w)) (trace w).
Definition set_trace (f : list Event -> list Event) (w : World) : World :=
  mkWorld (plugins w) (pluginPaths w) (breakers w) (metrics w) (config w)
    (instances w) (cbs w) (now w) (f (trace w)).

Abbreviation M := (StateM World).

Definition emit (e : Event) : M unit := modify (set_trace (fun t => t ++ [e])).

(** Time passing: [d] nanoseconds go by. *)
Definition elapse (d : Z) : M unit := modify (set_now (fun t => t + d)).

Module Plugin.

Definition Name (p : Plugin) : string := Bureau.Name (bureau p).

Definition Version (p : Plugin) : string := Bureau.Version (bureau p).

Definition Init (p : Plugin) (args : list Value) : M (option error) :=
  emit (EvInit (id p) args) ;;
  mret (Bureau.Init (bureau p) args).

Definition Free (p : Plugin) : M (option error) :=
  emit (EvFree (id p)) ;;
  mret (Bureau.Free (bureau p)).

Definition Call (p : Plugin) (name : string) (args : list Value)
  : M (Value * option error) :=
  match funcs p !! name with
  | None => mret (VNil, Some (ErrFuncNotFound name))
  | Some fn =>
    let '(result, err, took) := fn args in
    emit (EvInvoke (id p) name args) ;;
    elapse took ;;
    mret (result, err)
  end.

Definition NewPlugin (ident : positive) (b : Bureau.t) : Plugin :=
  mkPlugin ident b ∅ 0.

Definition RegisterFunc (name : string) (fn : InvokeFunc) (p : Plugin) : Plugin :=
  mkPlugin (id p) (bureau p) (<[name := fn]> (funcs p)) (refs p).

Definition AddRef (p : Plugin) : Plugin :=
  mkPlugin (id p) (bureau p) (funcs p) (int32 (refs p + 1)).

(** [DecRef]: the plugin with one reference less and whether none is left. *)
Definition DecRef (p : Plugin) : Plugin * bool :=
  let refs' := int32 (refs p + -1) in
  (mkPlugin (id p) (bureau p) (funcs p) refs', refs' =? 0).

Definition GetRefs (p : Plugin) : Z := refs p.

(** [GetFunctions]: the keys of the function table in the order the
    iteration meets them. *)
Definition GetFunctions (p : Plugin) : list string :=
  (map_to_list (funcs p)).*1.

End Plugin.

Module Manager.

(** Reading through a [*PluginInstance]. *)
Definition deref (p : ptr) : M PluginInstance.t :=
  fun w =>
    match p with
    | nil => Panic nilDeref w
    | addr l =>
      match instances w !! l with
      | Some inst => Ret inst w
      | None => Panic nilDeref w
      end
    end.

(** [oldInstance.state = s] *)
Definition setState (p : ptr) (s : PluginState) : M unit :=
  inst ← deref p;
  match p with
  | nil => panic nilDeref
  | addr l =>
    modify (set_instances
      (insert l (PluginInstance.mk (PluginInstance.Plugin inst) s (PluginInstance.version inst))))
  end.

(** [&PluginInstance{...}]: a new object at an unused address. *)
Definition newInstance (inst : PluginInstance.t) : M ptr :=
  fun w =>
    let l := fresh (dom (instances w)) in
    Ret (addr l) (set_instances (insert l inst) w).

Definition NewCircuitBreaker (cfg : CircuitBreakerConfig) : M ptr :=
  fun w =>
    let l := fresh (dom (cbs w)) in
    Ret (addr l) (set_cbs (insert l (CircuitBreaker.New cfg)) w).

(** The type assertion of what [m.breakers.Load] returned to a pointer to
    a CircuitBreaker: [None] is the nil interface of a missing
    key, on which the assertion panics. *)
Definition assertBreaker (breakerVal : option ptr) : M ptr :=
  match breakerVal with
  | Some breaker => mret breaker
  | None => panic nilInterface
  end.

(** A method call [breaker.method()]: the method runs on the struct the
    pointer refers to and the struct is updated in place. *)
Definition onBreaker {A} (breaker : ptr)
  (method : option CircuitBreaker.t -> option CircuitBreaker.t * A) : M A :=
  fun w =>
    match breaker with
    | nil => Ret (snd (method None)) w
    | addr l =>
      match cbs w !! l with
      | None => Panic nilDeref w
      | Some cb =>
        match method (Some cb) with
        | (Some cb', a) => Ret a (set_cbs (insert l cb') w)
        | (None, a) => Ret a w
        end
      end
    end.

Definition Allow (breaker : ptr) : M bool :=
  t ← gets now;
  onBreaker breaker (CircuitBreaker.Allow t).

Definition RecordSuccess (breaker : ptr) : M unit :=
  onBreaker breaker (fun cb => (CircuitBreaker.RecordSuccess cb, tt)).

Definition RecordFailure (breaker : ptr) : M unit :=
  t ← gets now;
  onBreaker breaker (fun cb => (CircuitBreaker.RecordFailure t cb, tt)).

(** The part of [LoadPluginWithConfig] after the version check. *)
Definition initAndStore (pluginName path : string)
  (pluginConfig : PluginSpecificConfig) (plugin : Plugin) : M (option error) :=
  err ← Plugin.Init plugin (InitArgs pluginConfig);
  match err with
  | Some err =>
    Plugin.Free plugin ;;
    mret (Some (Errorf "failed to initialize plugin: %w" [err]))
  | None =>
    breaker ← NewCircuitBreaker (CircuitBreaker pluginConfig);
    instance ← newInstance
      (PluginInstance.mk plugin StateActive (Plugin.Version plugin));
    modify (set_plugins (insert pluginName instance)) ;;
    modify (set_pluginPaths (insert pluginName path)) ;;
    modify (set_breakers (insert pluginName breaker)) ;;
    mret None
  end.

(** [loaded] is what [loader.Load(m.ctx, path)] returns: opening the shared
    object is outside this model. *)
Definition LoadPluginWithConfig (path : string)
  (pluginConfig : option PluginSpecificConfig) (loaded : Plugin + error)
  : M (option error) :=
  let pluginName := getPluginNameFromPath path in
  defaultConfig ← gets (fun w => DefaultPluginConfig (config w));
  let pluginConfig := default defaultConfig pluginConfig in
  match loaded with
  | inr err => mret (Some (Errorf "failed to load plugin: %w" [err]))
  | inl plugin =>
    oldVal ← gets (fun w => plugins w !! pluginName);
    match oldVal with
    | Some oldInstance =>
      old ← deref oldInstance;
      match isHigherVersion (Plugin.Version plugin) (PluginInstance.version old) with
      | None => panic indexOutOfRange
      | Some false =>
        Plugin.Free plugin ;;
        mret None
      | Some true =>
        setState oldInstance StateDeprecated ;;
        initAndStore pluginName path pluginConfig plugin
      end
    | None => initAndStore pluginName path pluginConfig plugin
    end
  end.

Definition LoadPlugin (path : string) (loaded : Plugin + error) : M (option error) :=
  LoadPluginWithConfig path None loaded.

Definition Call (pluginName funcName : string) (args : list Value)
  : M (Value * option error) :=
  instanceVal ← gets (fun w => plugins w !! pluginName);
  match instanceVal with
  | None => mret (VNil, Some (ErrPluginNotFound pluginName))
  | Some instance =>
    breakerVal ← gets (fun w => breakers w !! pluginName);
    breaker ← assertBreaker breakerVal;
    allowed ← (if isNil breaker then mret true else Allow breaker);
    if negb allowed then mret (VNil, Some (ErrCircuitBreakerOpen pluginName))
    else
      start ← gets now;
      inst ← deref instance;
      '(result, err) ← Plugin.Call (PluginInstance.Plugin inst) funcName args;
      t ← gets now;
      let duration := time.Since t start in
      match err with
      | Some err =>
        (if isNil breaker then mret tt else RecordFailure breaker) ;;
        mret (VNil, Some err)
      | None =>
        (if isNil breaker then mret tt else RecordSuccess breaker) ;;
        enabled ← gets (fun w => PluginMetrics.IsEnabled (metrics w));
        (if enabled : bool
         then modify (set_metrics (PluginMetrics.RecordMetric pluginName funcName duration))
         else mret tt) ;;
        mret (result, None)
      end
  end.

Definition IsCircuitBreakerOpen (pluginName : string) : M bool :=
  breakerVal ← gets (fun w => breakers w !! pluginName);
  breaker ← assertBreaker breakerVal;
  if isNil breaker then mret false
  else
    allowed ← Allow breaker;
    mret (negb allowed).

Definition GetBreakerStatus (pluginName : string) : M bool :=
  breakerVal ← gets (fun w => breakers w !! pluginName);
  breaker ← assertBreaker breakerVal;
  if isNil breaker then mret false
  else
    allowed ← Allow breaker;
    mret (negb allowed).

(** The second [Range] of [Close], over the entries in the order the
    iteration meets them. *)
Fixpoint freePlugins (entries : list (string * ptr)) (errs : list error)
  : M (list error) :=
  match entries with
  | [] => mret errs
  | (name, instance) :: rest =>
    inst ← deref instance;
    err ← Plugin.Free (PluginInstance.Plugin inst);
    let errs :=
      match err with
      | Some err => errs ++ [ErrPluginFree name err]
      | None => errs
      end in
    modify (set_plugins (delete name)) ;;
    freePlugins rest errs
  end.

(** Cancelling the context, waiting for the background tasks and closing
    the watcher leave the state modelled here as it is. *)
Definition Close : M (option error) :=
  bs ← gets (fun w => map_to_list (breakers w));
  forEach bs (fun '(name, breaker) =>
    if isNil breaker then mret tt
    else onBreaker breaker (fun cb => (CircuitBreaker.Close cb, tt))) ;;
  elapse (100 * time.Millisecond) ;;
  ps ← gets (fun w => map_to_list (plugins w));
  errs ← freePlugins ps [];
  if (0 <? length errs)%nat
  then mret (Some (Errorf "errors during cleanup: %v" errs))
  else mret None.

(** [ListPlugins]: one [PluginInfo] for each entry of the plugin map, in
    the order the iteration meets them; [RefCount] and [Path] are left at
    their zero values. *)
Fixpoint listEntries (entries : list (string * ptr)) (acc : list PluginInfo.t)
  : M (list PluginInfo.t) :=
  match entries with
  | [] => mret acc
  | (name, instance) :: rest =>
    inst ← deref instance;
    listEntries rest
      (acc ++ [PluginInfo.mk name (PluginInstance.version inst)
                 (PluginInstance.state inst) 0 ""])
  end.

Definition ListPlugins : M (list PluginInfo.t) :=
  ps ← gets (fun w => map_to_list (plugins w));
  listEntries ps [].

Definition EnableMetrics : M unit :=
  modify (set_metrics (PluginMetrics.SetEnabled true)).

Definition DisableMetrics : M unit :=
  modify (set_metrics (PluginMetrics.SetEnabled false)).

Definition IsMetricsEnabled : M bool :=
  gets (fun w => PluginMetrics.IsEnabled (metrics w)).

Definition GetMetrics (pluginName : string)
  : M (gmap string PluginMetrics.MethodMetrics + error) :=
  gets (fun w => PluginMetrics.GetPluginMetrics pluginName (metrics w)).

(** [ResetMetrics]: the [Range] that deletes every key it meets. *)
Definition ResetMetrics : M unit :=
  keys ← gets (fun w => map_to_list (PluginMetrics.plugins (metrics w)));
  forEach keys (fun e =>
    modify (set_metrics (fun m =>
      PluginMetrics.mk (delete e.1 (PluginMetrics.plugins m)) (PluginMetrics.enabled m)))).

Definition GetPluginPath (name : string) : M (string * bool) :=
  val ← gets (fun w => pluginPaths w !! name);
  match val with
  | Some path => mret (path, true)
  | None => mret ("", false)
  end.

Definition GetPluginFunctions (pluginName : string) : M (list string * option error) :=
  val ← gets (fun w => plugins w !! pluginName);
  match val with
  | None => mret ([], Some (ErrPluginNotFound pluginName))
  | Some instance =>
    inst ← deref instance;
    mret (Plugin.GetFunctions (PluginInstance.Plugin inst), None)
  end.

(** [handleNewPlugin]: the load of a file the watcher saw appear; an error
    of the load is logged and not returned. *)
Definition handleNewPlugin (path : string) (loaded : Plugin + error) : M unit :=
  let pluginName := getPluginNameFromPath path in
  pluginConfig ← gets (fun w => PluginConfigs (config w) !! pluginName);
  match pluginConfig with
  | Some pluginConfig =>
    LoadPluginWithConfig path (Some pluginConfig) loaded ;; mret tt
  | None =>
    LoadPlugin path loaded ;; mret tt
  end.

End Manager.

(** ** loader.go *)

Module Loader.

(** What [plug.Lookup] finds under a name: the exported [*Bureau], a
    pointer to a map from names to functions (a nil function is [None]), or
    a value of another type. *)
Inductive Symbol :=
| SymBureau (b : Bureau.t)
| SymFunctions (fs : gmap string (option InvokeFunc))
| SymOther.

(** An opened shared object: its symbols by name. *)
Definition Opened : Type := string -> option Symbol.

Definition validateFunc (name : string) (fn : option InvokeFunc) : option error :=
  if String.eqb name "" then Some (Errorf "empty function name" [])
  else
    match fn with
    | None => Some (Errorf "nil function" [])
    | Some _ => None
    end.

(** The loop that validates and registers the functions. *)
Fixpoint registerAll (entries : list (string * option InvokeFunc)) (p : Plugin)
  : Plugin + error :=
  match entries with
  | [] => inl p
  | (name, fn) :: rest =>
    match validateFunc name fn, fn with
    | Some err, _ => inr (Errorf ("invalid function " +:+ name +:+ ": %w") [err])
    | None, Some fn => registerAll rest (Plugin.RegisterFunc name fn p)
    | None, None => inr (Errorf "nil function" [])
    end
  end.

(** [ident] is the address [NewPlugin] allocates the plugin at. *)
Definition validateAndCreatePlugin (ident : positive) (plug : Opened) : Plugin + error :=
  match plug "Export" with
  | None => inr (Errorf "plugin does not export 'Export' symbol: %w" [])
  | Some sym =>
    match sym with
    | SymBureau bureau =>
      let p := Plugin.NewPlugin ident bureau in
      match plug "Functions" with
      | None => inr (Errorf "plugin does not export 'Functions' symbol: %w" [])
      | Some funcsSym =>
        match funcsSym with
        | SymFunctions funcsMap => registerAll (map_to_list funcsMap) p
        | _ => inr (Errorf "Functions is not a *map[string]InvokeFunc: got type %T" [])
        end
      end
    | _ => inr (Errorf "exported symbol is not a *Bureau: got type %T" [])
    end
  end.

End Loader.

(** ** Bytes of a path

    Whether the byte [c] occurs in [s]; used to say that a file name holds
    no separator and an extension no dot. *)

Fixpoint hasByte (c : ascii) (s : string) : bool :=
  match s with
  | EmptyString => false
  | String d rest => Ascii.eqb d c || hasByte c rest
  end.

(** ** The comparison the specification describes

    Three numeric parts; a missing part is zero and so is a part that is
    not a number.  A part is read the way the code reads it, with
    [strconv.Atoi] after the optional leading "v". *)

(** The parts of a version the comparison runs over. *)
Definition versionParts (v : string) : list string :=
  strings.Split (strings.TrimPrefix v "v") ".".

Definition versionPart (v : string) (i : nat) : Z :=
  match versionParts v !! i with
  | Some part => fst (strconv.Atoi part)
  | None => 0
  end.

Definition threePartHigher (new current : string) : bool :=
  let a := versionPart new in
  let b := versionPart current in
  (a 0%nat >? b 0%nat) ||
  ((a 0%nat =? b 0%nat) &&
   ((a 1%nat >? b 1%nat) ||
    ((a 1%nat =? b 1%nat) && (a 2%nat >? b 2%nat)))).

(** ** Histories of a breaker *)

(** What can happen to a breaker: a caller asks [Allow], reports a success
    or a failure, or the reset timer fires; each at a clock value where the
    code reads the clock. *)
Inductive BreakerOp :=
| OpAllow (now : Z)
| OpSuccess
| OpFailure (now : Z)
| OpTick.

Definition applyOp (op : BreakerOp) (cb : CircuitBreaker.t) : CircuitBreaker.t :=
  match op with
  | OpAllow now => default cb (CircuitBreaker.Allow now (Some cb)).1
  | OpSuccess => default cb (CircuitBreaker.RecordSuccess (Some cb))
  | OpFailure now => default cb (CircuitBreaker.RecordFailure now (Some cb))
  | OpTick => CircuitBreaker.resetTick cb
  end.

Definition applyOps (ops : list BreakerOp) (cb : CircuitBreaker.t) : CircuitBreaker.t :=
  foldl (fun cb op => applyOp op cb) cb ops.

Definition isFailure (op : BreakerOp) : bool :=
  match op with
  | OpFailure _ => true
  | _ => false
  end.

Definition isReport (op : BreakerOp) : bool :=
  match op with
  | OpSuccess | OpFailure _ => true
  | _ => false
  end.

(** ** Samples of a function *)

Definition recordAll (pluginName funcName : string) (durations : list Z)
  (m : PluginMetrics.t) : PluginMetrics.t :=
  foldl (fun m d => PluginMetrics.RecordMetric pluginName funcName d m) m durations.

Definition methodMetrics (m : PluginMetrics.t) (pluginName funcName : string)
  : option PluginMetrics.MethodMetrics :=
  PluginMetrics.plugins m !! pluginName ≫= (.!! funcName).

Definition sumZ (l : list Z) : Z := foldr Z.add 0 l.

(** The failures among the operations of a history. *)
Definition failuresIn (ops : list BreakerOp) : Z :=
  sumZ (map (fun op => if isFailure op then 1 else 0) ops).

(** ** Reading the stores *)

(** The contents a map reference reads as: the nil map reads as empty. *)
Definition optionsAt (h : OptionMaps) (m : ptr) : option (gmap string Value) :=
  match m with
  | nil => Some ∅
  | addr l => h !! l
  end.

(** The instance a [*PluginInstance] points to in a store. *)
Definition instanceAt (store : gmap positive PluginInstance.t) (p : ptr)
  : option PluginInstance.t :=
  match p with
  | nil => None
  | addr l => store !! l
  end.

(** The breaker a [*CircuitBreaker] points to in a store. *)
Definition breakerAt (store : gmap positive CircuitBreaker.t) (p : ptr)
  : option CircuitBreaker.t :=
  match p with
  | nil => None
  | addr l => store !! l
  end.

(** The teardown calls for the entries of the plugin map: one [Free] for
    the instance of each entry. *)
Definition freeEvents (store : gmap positive PluginInstance.t)
  (entries : list (string * ptr)) : list Event :=
  omap (fun e : string * ptr =>
          inst ← instanceAt store e.2;
          Some (EvFree (id (PluginInstance.Plugin inst))))
       entries.

(** The teardown errors for the entries of the plugin map: one
    [ErrPluginFree] for each entry whose instance's [Free] fails. *)
Definition freeErrors (store : gmap positive PluginInstance.t)
  (entries : list (string * ptr)) : list error :=
  omap (fun e : string * ptr =>
          inst ← instanceAt store e.2;
          err ← Bureau.Free (bureau (PluginInstance.Plugin inst));
          Some (ErrPluginFree e.1 err))
       entries.

(** The samples counted for a function of a plugin. *)
Definition countOf (m : PluginMetrics.t) (pluginName funcName : string) : Z :=
  match PluginMetrics.plugins m !! pluginName ≫= (.!! funcName) with
  | Some mm => PluginMetrics.Count mm
  | None => 0
  end.

(** The world only differs in its breakers, which are at the same
    addresses. *)
Definition breakersClosed (w w1 : World) : Prop :=
  plugins w1 = plugins w /\ instances w1 = instances w /\
  trace w1 = trace w /\ now w1 = now w /\
  forall l, is_Some (cbs w1 !! l) <-> is_Some (cbs w !! l).

#[global] Instance ptr_eq_dec : EqDecision ptr.
Proof. solve_decision. Defined.

(** The breaker store after the first [Range] of [Close] over the entries
    [bs] of the breakers map. *)
Definition closedBreakers (bs : list (string * ptr))
  (store : gmap positive CircuitBreaker.t) : gmap positive CircuitBreaker.t :=
  foldl (fun h (e : string * ptr) =>
           match e.2 with
           | addr l => alter (CircuitBreaker.set_done true) l h
           | nil => h
           end) store bs.

(** The manager's pointers refer to objects: no nil instance is registered
    and a registered breaker pointer is nil or refers to a breaker. *)
Definition wellFormed (w : World) : Prop :=
  (forall name p, plugins w !! name = Some p -> is_Some (instanceAt (instances w) p)) /\
  (forall name b, breakers w !! name = Some b ->
     b = nil \/ is_Some (breakerAt (cbs w) b)).

(** What [validatePluginSpecificConfig] asks of a configuration: the two
    numbers are not negative and, when the breaker is enabled, its three
    numbers are positive. *)
Definition validPluginConfig (pc : PluginSpecificConfig) : Prop :=
  0 <= MaxConcurrentCalls pc /\ 0 <= PluginTimeout pc /\
  (Enabled (CircuitBreaker pc) = true ->
   0 < MaxFailures (CircuitBreaker pc) /\
   0 < ResetInterval (CircuitBreaker pc) /\
   0 < TimeoutDuration (CircuitBreaker pc)).

(** A configuration with another option map. *)
Definition withOptions (pc : PluginSpecificConfig) (options : ptr) : PluginSpecificConfig :=
  mkPluginSpecificConfig (InitArgs pc) (CircuitBreaker pc) (MaxConcurrentCalls pc)
    (PluginTimeout pc) options.

(** ** Test data, after manager_test.go *)

Module Mock.

Definition breakerConfig : CircuitBreakerConfig :=
  mkCircuitBreakerConfig true 5 time.Second time.Second.

Definition pluginConfig : PluginSpecificConfig :=
  mkPluginSpecificConfig [] breakerConfig 0 0 nil.

Definition managerConfig : Config :=
  mkConfig "" false LogLevelDebug true pluginConfig ∅.

(** [NewMockPlugin]: [Init] and [Free] succeed. *)
Definition NewMockPlugin (ident : positive) (version : string)
  (fs : gmap string InvokeFunc) : Plugin :=
  mkPlugin ident (Bureau.mk "mock-plugin" version (fun _ => None) None) fs 0.

(** A plugin whose [Init] fails. *)
Definition failingInit (ident : positive) (version : string) : Plugin :=
  mkPlugin ident
    (Bureau.mk "mock-plugin" version (fun _ => Some (ErrPlugin "init failed")) None)
    ∅ 0.

(** A plugin whose [Free] fails. *)
Definition failingFree (ident : positive) (version : string) : Plugin :=
  mkPlugin ident
    (Bureau.mk "mock-plugin" version (fun _ => None) (Some (ErrPlugin "free failed")))
    ∅ 0.

Definition TestFunc : InvokeFunc := fun _ => (VStr "test result", None, 3 * time.Millisecond).

Definition FailingFunc : InvokeFunc :=
  fun _ => (VNil, Some (ErrPlugin "test error"), 1 * time.Millisecond).

Definition mockFuncs : gmap string InvokeFunc :=
  <["TestFunc" := TestFunc]> (<["FailingFunc" := FailingFunc]> ∅).

(** A manager just built, at clock value [t]. *)
Definition newManager (t : Z) : World :=
  mkWorld ∅ ∅ ∅ (PluginMetrics.NewPluginMetrics true) managerConfig ∅ ∅ t [].

(** The manager with "test-plugin" at the given version: the instance at
    address 1 and a breaker in state [s] with [f] failures at address 1. *)
Definition withPlugin (version : string) (s f : Z) (t : Z) : World :=
  mkWorld
    {[ "test-plugin" := addr 1 ]}
    {[ "test-plugin" := "/plugins/test-plugin.so" ]}
    {[ "test-plugin" := addr 1 ]}
    (PluginMetrics.NewPluginMetrics true) managerConfig
    {[ 1%positive := PluginInstance.mk (NewMockPlugin 1 version mockFuncs) StateActive version ]}
    {[ 1%positive := CircuitBreaker.mk s f 0 breakerConfig false ]}
    t [].

(** A manager with two plugins; the [Free] of "broken" fails. *)
Definition twoPlugins : World :=
  mkWorld
    (<["broken" := addr 2]> {[ "test-plugin" := addr 1 ]})
    ∅
    (<["broken" := nil]> {[ "test-plugin" := addr 1 ]})
    (PluginMetrics.NewPluginMetrics true) managerConfig
    (<[2%positive := PluginInstance.mk (failingFree 2 "0.1.0") StateActive "0.1.0"]>
       {[ 1%positive := PluginInstance.mk (NewMockPlugin 1 "1.0.0" mockFuncs) StateActive "1.0.0" ]})
    {[ 1%positive := CircuitBreaker.mk 0 0 0 breakerConfig false ]}
    0 [].

(** An override that sets a breaker configuration without enabling it. *)
Definition overrideConfig : PluginSpecificConfig :=
  mkPluginSpecificConfig [VStr "arg"]
    (mkCircuitBreakerConfig false 3 (2 * time.Second) (2 * time.Second))
    0 (10 * time.Second) (addr 2).

Definition defaultOptions : gmap string Value :=
  <["region" := VStr "eu"]> {[ "mode" := VStr "safe" ]}.

Definition overrideOptions : gmap string Value :=
  <["region" := VStr "us"]> {[ "debug" := VBool true ]}.

Definition optionMaps : OptionMaps :=
  <[2%positive := overrideOptions]> {[ 1%positive := defaultOptions ]}.

Definition configWithOverride : Config :=
  mkConfig "" false LogLevelDebug true
    (mkPluginSpecificConfig [] breakerConfig 100 (30 * time.Second) (addr 1))
    {[ "test-plugin" := overrideConfig ]}.

(** [n] calls of the same function in a row, as the loop of
    TestCircuitBreaker makes them; the errors they return. *)
Fixpoint callTimes (n : nat) (pluginName funcName : string) : M (list (option error)) :=
  match n with
  | O => mret []
  | S k =>
    r ← Manager.Call pluginName funcName [];
    rs ← callTimes k pluginName funcName;
    mret (r.2 :: rs)
  end.

End Mock.

(** * Properties *)

Arguments CircuitBreaker.Allow : simpl never.
Arguments CircuitBreaker.RecordFailure : simpl never.
Arguments CircuitBreaker.RecordSuccess : simpl never.
Arguments PluginMetrics.RecordMetric : simpl never.
Arguments Plugin.Call : simpl never.
Arguments time.Since : simpl never.
Arguments strconv.Atoi : simpl never.

(** ** Tactics *)

Ltac unfold_monad :=
  unfold emit, elapse in *;
  unfold mbind, mret, StateM_bind, StateM_ret, gets, modify, panic in *.

(** ** Machine integers *)

Lemma int32_small z : - 2 ^ 31 <= z < 2 ^ 31 -> int32 z = z.
Proof.
  intros H. unfold int32, wrap.
  change (2 ^ (32 - 1)) with 2147483648 in *.
  change (2 ^ 31) with 2147483648 in *.
  change (2 ^ 32) with 4294967296.
  rewrite Z.mod_small; lia.
Qed.

Lemma CompareAndSwap_loaded cell new : CompareAndSwap cell cell new = (new, true).
Proof. unfold CompareAndSwap. now rewrite Z.eqb_refl. Qed.

(** ** The circuit breaker *)

Lemma RecordFailure_from_HalfOpen now cb :
  CircuitBreaker.state cb = CircuitBreaker.StateHalfOpen ->
  CircuitBreaker.State (CircuitBreaker.RecordFailure now (Some cb))
  = CircuitBreaker.StateHalfOpen.
Proof.
  intros H. unfold CircuitBreaker.RecordFailure, CircuitBreaker.State.
  destruct (_ >=? _); simpl; rewrite ?H; reflexivity.
Qed.

Lemma RecordFailure_from_Closed now cb :
  CircuitBreaker.state cb = CircuitBreaker.StateClosed ->
  int32 (CircuitBreaker.failures cb + 1)
    >= int32 (MaxFailures (CircuitBreaker.config cb)) ->
  CircuitBreaker.State (CircuitBreaker.RecordFailure now (Some cb))
  = CircuitBreaker.StateOpen.
Proof.
  intros H Hn. unfold CircuitBreaker.RecordFailure, CircuitBreaker.State.
  simpl. destruct (_ >=? _) eqn:E; [| lia].
  simpl. rewrite H. reflexivity.
Qed.

Lemma RecordFailure_Some now cb :
  exists cb', CircuitBreaker.RecordFailure now (Some cb) = Some cb'.
Proof.
  unfold CircuitBreaker.RecordFailure.
  destruct (_ >=? _); [| eauto].
  destruct (CompareAndSwap _ _ _). eauto.
Qed.

Lemma RecordSuccess_Some cb :
  exists cb', CircuitBreaker.RecordSuccess (Some cb) = Some cb'.
Proof.
  unfold CircuitBreaker.RecordSuccess.
  destruct (_ =? _); [| eauto].
  destruct (CompareAndSwap _ _ _). eauto.
Qed.

(** C1. A HalfOpen breaker, whatever its counter and its maxFailures:
    [RecordFailure] counts the failure and the breaker is still HalfOpen,
    also when the counter has reached maxFailures, where the claim has it
    Open.  So it is with maxFailures = 5 and four failures counted. *)
Theorem RecordFailure_HalfOpen_not_reopened
  (now counted last : Z) (cfg : CircuitBreakerConfig) (closed : bool) :
  let cb := CircuitBreaker.mk CircuitBreaker.StateHalfOpen counted last cfg closed in
  (exists cb',
     CircuitBreaker.RecordFailure now (Some cb) = Some cb' /\
     CircuitBreaker.failures cb' = int32 (counted + 1) /\
     CircuitBreaker.state cb' = CircuitBreaker.StateHalfOpen) /\
  CircuitBreaker.RecordFailure now
    (Some (CircuitBreaker.mk CircuitBreaker.StateHalfOpen 4 last Mock.breakerConfig closed))
  = Some (CircuitBreaker.mk CircuitBreaker.StateHalfOpen 5 (time.UnixNano now)
            Mock.breakerConfig closed).
Proof.
  intros cb. split; [| reflexivity].
  unfold CircuitBreaker.RecordFailure. subst cb. cbn [CircuitBreaker.failures
    CircuitBreaker.set_lastFailure CircuitBreaker.set_failures CircuitBreaker.state
    CircuitBreaker.config CircuitBreaker.lastFailure CircuitBreaker.done].
  destruct (_ >=? _); eexists; repeat split.
Qed.

(** C3. [Allow] returns true when the breaker is Closed or HalfOpen and
    leaves it as it is; when it is Open, [Allow] returns true exactly when
    the time since the last failure exceeds [TimeoutDuration], and then the
    breaker is HalfOpen with the failure counter at zero, and otherwise it
    returns false and leaves the breaker as it is; on the nil breaker it
    returns true. *)
Theorem Allow_spec (now : Z) (cb : CircuitBreaker.t) :
  (CircuitBreaker.state cb = CircuitBreaker.StateClosed \/
   CircuitBreaker.state cb = CircuitBreaker.StateHalfOpen ->
   CircuitBreaker.Allow now (Some cb) = (Some cb, true)) /\
  (CircuitBreaker.state cb = CircuitBreaker.StateOpen ->
   (snd (CircuitBreaker.Allow now (Some cb)) = true <->
    time.Since now (CircuitBreaker.lastFailure cb)
      > TimeoutDuration (CircuitBreaker.config cb)) /\
   (time.Since now (CircuitBreaker.lastFailure cb)
      > TimeoutDuration (CircuitBreaker.config cb) ->
    CircuitBreaker.Allow now (Some cb)
    = (Some (CircuitBreaker.set_failures 0
               (CircuitBreaker.set_state CircuitBreaker.StateHalfOpen cb)), true)) /\
   (time.Since now (CircuitBreaker.lastFailure cb)
      <= TimeoutDuration (CircuitBreaker.config cb) ->
    CircuitBreaker.Allow now (Some cb) = (Some cb, false))) /\
  CircuitBreaker.Allow now None = (None, true).
Proof.
  split; [| split]; [| | reflexivity].
  - intros [H | H]; unfold CircuitBreaker.Allow; rewrite H; reflexivity.
  - intros H. unfold CircuitBreaker.Allow. rewrite H. simpl.
    destruct (_ >? _) eqn:E; simpl.
    + repeat split; intros; try lia; reflexivity.
    + repeat split; intros; try lia; try discriminate; reflexivity.
Qed.

Lemma Allow_spec_witness :
  CircuitBreaker.Allow (5 * time.Second)
    (Some (CircuitBreaker.mk CircuitBreaker.StateOpen 5 time.Second Mock.breakerConfig false))
  = (Some (CircuitBreaker.mk CircuitBreaker.StateHalfOpen 0 time.Second Mock.breakerConfig false),
     true).
Proof.
  pose proof (Allow_spec (5 * time.Second)
    (CircuitBreaker.mk CircuitBreaker.StateOpen 5 time.Second Mock.breakerConfig false))
    as [_ [H _]].
  destruct (H eq_refl) as [_ [Hopen _]].
  apply Hopen. vm_compute. reflexivity.
Defined.

(** ** The metrics collector *)

Lemma int64_small z : - 2 ^ 63 <= z < 2 ^ 63 -> int64 z = z.
Proof.
  intros H. unfold int64, wrap.
  change (2 ^ (64 - 1)) with 9223372036854775808 in *.
  change (2 ^ 63) with 9223372036854775808 in *.
  change (2 ^ 64) with 18446744073709551616.
  rewrite Z.mod_small; lia.
Qed.

(** The first sample of a function: the collector has no metrics for the
    function, and afterwards they are those of this one sample. *)
Lemma RecordMetric_first pluginName funcName d m :
  PluginMetrics.enabled m = true ->
  PluginMetrics.plugins m !! pluginName ≫= (.!! funcName) = None ->
  - 2 ^ 63 <= d < 2 ^ 63 ->
  let m' := PluginMetrics.RecordMetric pluginName funcName d m in
  PluginMetrics.enabled m' = true /\
  PluginMetrics.plugins m' !! pluginName ≫= (.!! funcName)
  = Some (PluginMetrics.mkMethodMetrics 1 d d (Z.max 0 d)).
Proof.
  intros He Hnone Hd. unfold PluginMetrics.RecordMetric. rewrite He. simpl.
  split; [reflexivity |].
  rewrite lookup_insert_eq. simpl. rewrite lookup_insert_eq.
  assert (default (PluginMetrics.mkMethodMetrics 0 0 0 0)
            (default ∅ (PluginMetrics.plugins m !! pluginName) !! funcName)
          = PluginMetrics.mkMethodMetrics 0 0 0 0) as ->.
  { destruct (PluginMetrics.plugins m !! pluginName) as [pm |]; simpl in *.
    - rewrite Hnone. reflexivity.
    - rewrite lookup_empty. reflexivity. }
  simpl. unfold PluginMetrics.casLoop. simpl.
  rewrite !Z.add_0_l, (int64_small d) by assumption.
  change (int64 1) with 1.
  do 2 f_equal.
  destruct (d >? 0) eqn:E; lia.
Qed.

(** A later sample: the metrics of the function are updated by it. *)
Lemma RecordMetric_next pluginName funcName d m mm :
  PluginMetrics.enabled m = true ->
  PluginMetrics.plugins m !! pluginName ≫= (.!! funcName) = Some mm ->
  let m' := PluginMetrics.RecordMetric pluginName funcName d m in
  PluginMetrics.enabled m' = true /\
  PluginMetrics.plugins m' !! pluginName ≫= (.!! funcName)
  = Some (PluginMetrics.mkMethodMetrics
            (int64 (PluginMetrics.Count mm + 1))
            (int64 (PluginMetrics.TotalTime mm + d))
            (if (PluginMetrics.MinTime mm =? 0) || (d <? PluginMetrics.MinTime mm)
             then d else PluginMetrics.MinTime mm)
            (if d >? PluginMetrics.MaxTime mm then d else PluginMetrics.MaxTime mm)).
Proof.
  intros He Hsome. unfold PluginMetrics.RecordMetric. rewrite He. simpl.
  split; [reflexivity |].
  rewrite lookup_insert_eq. simpl. rewrite lookup_insert_eq.
  destruct (PluginMetrics.plugins m !! pluginName) as [pm |]; simpl in *;
    [| discriminate].
  rewrite Hsome. simpl. unfold PluginMetrics.casLoop.
  rewrite !CompareAndSwap_loaded. reflexivity.
Qed.

(** C6. On an enabled collector that has no metrics yet for a function,
    recording 10ms, 1ms and 50ms for it in this order leaves count 3,
    total 61ms, min 1ms and max 50ms in the metrics [GetPluginMetrics]
    returns for the plugin. *)
Theorem RecordMetric_three_samples (m : PluginMetrics.t) (pluginName funcName : string) :
  PluginMetrics.enabled m = true ->
  PluginMetrics.plugins m !! pluginName ≫= (.!! funcName) = None ->
  let m3 :=
    PluginMetrics.RecordMetric pluginName funcName (50 * time.Millisecond)
      (PluginMetrics.RecordMetric pluginName funcName (1 * time.Millisecond)
        (PluginMetrics.RecordMetric pluginName funcName (10 * time.Millisecond) m)) in
  exists methods,
    PluginMetrics.GetPluginMetrics pluginName m3 = inl methods /\
    methods !! funcName
    = Some (PluginMetrics.mkMethodMetrics 3 (61 * time.Millisecond)
              (1 * time.Millisecond) (50 * time.Millisecond)).
Proof.
  intros He Hnone.
  destruct (RecordMetric_first pluginName funcName (10 * time.Millisecond) m He Hnone)
    as [He1 H1]; [unfold time.Millisecond; lia |].
  destruct (RecordMetric_next pluginName funcName (1 * time.Millisecond) _ _ He1 H1)
    as [He2 H2].
  destruct (RecordMetric_next pluginName funcName (50 * time.Millisecond) _ _ He2 H2)
    as [He3 H3].
  cbv zeta in *.
  set (m3 := PluginMetrics.RecordMetric pluginName funcName (50 * time.Millisecond) _) in *.
  clearbody m3.
  unfold PluginMetrics.GetPluginMetrics. rewrite He3. simpl.
  destruct (PluginMetrics.plugins m3 !! pluginName) as [methods |];
    simpl in H3; [| discriminate].
  exists methods. split; [reflexivity |].
  rewrite H3. reflexivity.
Qed.

Lemma RecordMetric_three_samples_witness :
  exists methods,
    PluginMetrics.GetPluginMetrics "test-plugin"
      (PluginMetrics.RecordMetric "test-plugin" "TestFunc" (50 * time.Millisecond)
        (PluginMetrics.RecordMetric "test-plugin" "TestFunc" (1 * time.Millisecond)
          (PluginMetrics.RecordMetric "test-plugin" "TestFunc" (10 * time.Millisecond)
            (PluginMetrics.NewPluginMetrics true))))
    = inl methods /\
    methods !! "TestFunc"
    = Some (PluginMetrics.mkMethodMetrics 3 61000000 1000000 50000000).
Proof.
  apply (RecordMetric_three_samples (PluginMetrics.NewPluginMetrics true)
           "test-plugin" "TestFunc"); reflexivity.
Defined.

(** ** Lookups of a breaker that is not there *)

(** C9. For a name without an entry in the breakers map,
    [IsCircuitBreakerOpen] and [GetBreakerStatus] panic on the type
    assertion of the nil interface, and so does [Call] when the name has an
    entry in the plugin map; the state is as before the call. *)
Theorem missing_breaker_panics (w : World) (pluginName : string) :
  breakers w !! pluginName = None ->
  Manager.IsCircuitBreakerOpen pluginName w = Panic nilInterface w /\
  Manager.GetBreakerStatus pluginName w = Panic nilInterface w /\
  (forall funcName args,
     is_Some (plugins w !! pluginName) ->
     Manager.Call pluginName funcName args w = Panic nilInterface w).
Proof.
  intros Hb. repeat split.
  - unfold Manager.IsCircuitBreakerOpen. unfold_monad. rewrite Hb. reflexivity.
  - unfold Manager.GetBreakerStatus. unfold_monad. rewrite Hb. reflexivity.
  - intros funcName args [p Hp]. unfold Manager.Call. unfold_monad.
    rewrite Hp, Hb. reflexivity.
Qed.

Lemma missing_breaker_panics_witness :
  Manager.GetBreakerStatus "never-loaded" (Mock.withPlugin "1.0.0" 0 0 0)
  = Panic nilInterface (Mock.withPlugin "1.0.0" 0 0 0).
Proof.
  apply (missing_breaker_panics (Mock.withPlugin "1.0.0" 0 0 0) "never-loaded").
  reflexivity.
Defined.

(** ** Calls *)

Lemma RecordMetric_count pluginName funcName d m :
  PluginMetrics.enabled m = true ->
  countOf (PluginMetrics.RecordMetric pluginName funcName d m) pluginName funcName
  = int64 (countOf m pluginName funcName + 1).
Proof.
  intros He. unfold countOf, PluginMetrics.RecordMetric. rewrite He. simpl.
  rewrite lookup_insert_eq. simpl. rewrite lookup_insert_eq.
  destruct (PluginMetrics.plugins m !! pluginName) as [pm |]; simpl.
  - destruct (pm !! funcName); reflexivity.
  - rewrite lookup_empty. reflexivity.
Qed.

(** A call into a plugin function moves the clock and the log only. *)
Lemma Plugin_Call_frame p name args w r w' :
  Plugin.Call p name args w = Ret r w' ->
  exists took evs,
    w' = set_now (fun t => t + took) (set_trace (fun t => t ++ evs) w).
Proof.
  unfold Plugin.Call. destruct (funcs p !! name) as [fn |].
  - destruct (fn args) as [[result err] took]. unfold_monad.
    intros [= <- <-]. exists took, [EvInvoke (id p) name args]. reflexivity.
  - unfold_monad. intros [= <- <-]. exists 0, [].
    destruct w; unfold set_now, set_trace; simpl.
    rewrite Z.add_0_r, app_nil_r. reflexivity.
Qed.

(** C7. A call that reaches the plugin function, with the plugin's breaker
    [cb1] after [Allow] has let the call through.  If the function returns
    an error, [Call] returns it, the breaker becomes what [RecordFailure]
    makes of it, and the metrics are those from before the call.  If the
    function succeeds, [Call] returns its result, the breaker becomes what
    [RecordSuccess] makes of it, and the metrics are those from before the
    call when the collector is disabled and otherwise those after one
    [RecordMetric] for the plugin and the function, which counts one sample
    more. *)
Theorem Call_records_outcome (w : World) (pluginName funcName : string)
  (args : list Value) (q l : positive) (inst : PluginInstance.t)
  (cb cb1 : CircuitBreaker.t) (result : Value) (err : option error) (w2 : World) :
  plugins w !! pluginName = Some (addr q) ->
  instances w !! q = Some inst ->
  breakers w !! pluginName = Some (addr l) ->
  cbs w !! l = Some cb ->
  CircuitBreaker.Allow (now w) (Some cb) = (Some cb1, true) ->
  Plugin.Call (PluginInstance.Plugin inst) funcName args (set_cbs (insert l cb1) w)
  = Ret (result, err) w2 ->
  exists cb2 w',
    cbs w' = <[l := cb2]> (<[l := cb1]> (cbs w)) /\
    match err with
    | Some e =>
      Manager.Call pluginName funcName args w = Ret (VNil, Some e) w' /\
      CircuitBreaker.RecordFailure (now w2) (Some cb1) = Some cb2 /\
      metrics w' = metrics w
    | None =>
      Manager.Call pluginName funcName args w = Ret (result, None) w' /\
      CircuitBreaker.RecordSuccess (Some cb1) = Some cb2 /\
      (PluginMetrics.enabled (metrics w) = false -> metrics w' = metrics w) /\
      (PluginMetrics.enabled (metrics w) = true ->
       metrics w'
       = PluginMetrics.RecordMetric pluginName funcName
           (time.Since (now w2) (now w)) (metrics w) /\
       countOf (metrics w') pluginName funcName
       = int64 (countOf (metrics w) pluginName funcName + 1))
    end.
Proof.
  intros Hp Hi Hb Hcb Hallow Hcall.
  destruct (Plugin_Call_frame _ _ _ _ _ _ Hcall) as (took & evs & Hw2).
  assert (Hcbs2 : cbs w2 !! l = Some cb1).
  { rewrite Hw2. simpl. apply lookup_insert_eq. }
  assert (Hm2 : metrics w2 = metrics w) by (rewrite Hw2; reflexivity).
  assert (Hc2 : cbs w2 = <[l := cb1]> (cbs w)) by (rewrite Hw2; reflexivity).
  unfold Manager.Call, Manager.Allow, Manager.RecordFailure,
    Manager.RecordSuccess, Manager.assertBreaker, Manager.onBreaker,
    Manager.deref.
  unfold_monad. rewrite Hp, Hb. simpl. rewrite Hcb, Hallow. simpl.
  rewrite Hi, Hcall.
  destruct err as [e |].
  - rewrite Hcbs2.
    destruct (RecordFailure_Some (now w2) cb1) as [cb2 Hrf]. rewrite Hrf.
    exists cb2, (set_cbs (insert l cb2) w2). simpl.
    rewrite Hc2, Hm2. repeat split; reflexivity.
  - rewrite Hcbs2.
    destruct (RecordSuccess_Some cb1) as [cb2 Hrs]. rewrite Hrs.
    simpl. unfold PluginMetrics.IsEnabled. rewrite Hm2.
    destruct (PluginMetrics.enabled (metrics w)) eqn:He.
    + eexists cb2, _. split; [| split; [reflexivity | split; [reflexivity |]]].
      * simpl. rewrite Hc2. reflexivity.
      * split; [discriminate |]. intros _. simpl. rewrite Hm2.
        split; [reflexivity |]. apply RecordMetric_count, He.
    + eexists cb2, _. split; [| split; [reflexivity | split; [reflexivity |]]].
      * simpl. rewrite Hc2. reflexivity.
      * split; [| discriminate]. intros _. simpl. exact Hm2.
Qed.

Lemma Call_records_outcome_witness :
  exists w',
    Manager.Call "test-plugin" "FailingFunc" [] (Mock.withPlugin "1.0.0" 0 0 1000)
    = Ret (VNil, Some (ErrPlugin "test error")) w' /\
    metrics w' = metrics (Mock.withPlugin "1.0.0" 0 0 1000) /\
    CircuitBreaker.failures <$> cbs w' !! 1%positive = Some 1.
Proof.
  pose (w := Mock.withPlugin "1.0.0" 0 0 1000).
  pose (cb := CircuitBreaker.mk 0 0 0 Mock.breakerConfig false).
  destruct (Call_records_outcome w "test-plugin" "FailingFunc" [] 1 1
              (PluginInstance.mk (Mock.NewMockPlugin 1 "1.0.0" Mock.mockFuncs)
                 StateActive "1.0.0")
              cb cb VNil (Some (ErrPlugin "test error"))
              (set_now (fun t => t + 1 * time.Millisecond)
                 (set_trace (fun t => t ++ [EvInvoke 1 "FailingFunc" []])
                    (set_cbs (insert 1%positive cb) w))))
    as (cb2 & w' & Hcbs & Hcall & Hrf & Hm); try reflexivity.
  exists w'. split; [exact Hcall | split; [exact Hm |]].
  rewrite Hcbs, lookup_insert_eq. simpl. f_equal.
  vm_compute in Hrf. injection Hrf as <-. reflexivity.
Defined.

(** ** Shutdown *)

Lemma lookup_delete_all {V} (entries : list (string * V)) (m : gmap string V) k :
  foldl (fun m e => delete e.1 m) m entries !! k
  = if decide (k ∈ entries.*1) then None else m !! k.
Proof.
  revert m. induction entries as [| [name v] rest IH]; intros m.
  - reflexivity.
  - cbn [foldl fmap list_fmap fst]. rewrite IH.
    destruct (decide (k ∈ rest.*1)) as [Hin | Hnin].
    + rewrite decide_True; [reflexivity | right; exact Hin].
    + destruct (decide (k = name)) as [-> | Hne].
      * rewrite lookup_delete_eq, decide_True; [reflexivity | left].
      * rewrite lookup_delete_ne by congruence.
        rewrite decide_False; [reflexivity |].
        intros Hin. apply elem_of_cons in Hin as [? | ?]; [congruence | tauto].
Qed.

Lemma delete_all_entries {V} (m : gmap string V) :
  foldl (fun m e => delete e.1 m) m (map_to_list m) = ∅.
Proof.
  apply map_eq. intros k. rewrite lookup_delete_all, lookup_empty.
  destruct (decide (k ∈ (map_to_list m).*1)) as [| Hnin]; [reflexivity |].
  destruct (m !! k) as [v |] eqn:E; [| reflexivity].
  exfalso. apply Hnin. apply list_elem_of_fmap. exists (k, v).
  split; [reflexivity | now apply elem_of_map_to_list].
Qed.

Lemma World_eta w :
  mkWorld (plugins w) (pluginPaths w) (breakers w) (metrics w) (config w)
    (instances w) (cbs w) (now w) (trace w) = w.
Proof. destruct w. reflexivity. Qed.

Lemma freeErrors_cons store name p inst rest :
  instanceAt store p = Some inst ->
  freeErrors store ((name, p) :: rest)
  = match Bureau.Free (bureau (PluginInstance.Plugin inst)) with
    | Some err => [ErrPluginFree name err]
    | None => []
    end ++ freeErrors store rest.
Proof.
  intros H. unfold freeErrors. simpl. rewrite H. simpl.
  destruct (Bureau.Free _); reflexivity.
Qed.

Lemma freeEvents_cons store name p inst rest :
  instanceAt store p = Some inst ->
  freeEvents store ((name, p) :: rest)
  = EvFree (id (PluginInstance.Plugin inst)) :: freeEvents store rest.
Proof. intros H. unfold freeEvents. simpl. rewrite H. reflexivity. Qed.

(** The loop over the plugin map: every instance is freed, its error kept,
    its entry deleted. *)
Lemma freePlugins_spec entries : forall errs w,
  Forall (fun e : string * ptr => is_Some (instanceAt (instances w) e.2)) entries ->
  Manager.freePlugins entries errs w
  = Ret (errs ++ freeErrors (instances w) entries)
      (set_plugins (fun m => foldl (fun m e => delete e.1 m) m entries)
         (set_trace (fun t => t ++ freeEvents (instances w) entries) w)).
Proof.
  induction entries as [| [name p] rest IH]; intros errs w Hlive.
  - simpl. unfold_monad. unfold set_plugins, set_trace. simpl.
    rewrite !app_nil_r, World_eta. reflexivity.
  - apply Forall_cons in Hlive as [[inst Hinst] Hrest]. simpl in Hinst.
    rewrite (freeErrors_cons _ _ _ _ _ Hinst), (freeEvents_cons _ _ _ _ _ Hinst).
    simpl. unfold Manager.deref, Plugin.Free. unfold_monad.
    destruct p as [| l]; simpl in Hinst; [discriminate |].
    rewrite Hinst.
    set (w1 := set_plugins (delete name) _).
    specialize (IH (match Bureau.Free (bureau (PluginInstance.Plugin inst)) with
                    | Some err => errs ++ [ErrPluginFree name err]
                    | None => errs
                    end) w1 Hrest).
    rewrite IH.
    subst w1. unfold set_plugins, set_trace. simpl.
    f_equal.
    + destruct (Bureau.Free _); simpl; [rewrite <- app_assoc |]; reflexivity.
    + rewrite <- app_assoc. reflexivity.
Qed.

Lemma closeBreakers_spec (bs : list (string * ptr)) : forall w,
  Forall (fun e : string * ptr => e.2 = nil \/ is_Some (breakerAt (cbs w) e.2)) bs ->
  exists w1,
    forEach bs (fun '(name, breaker) =>
      if isNil breaker then mret tt
      else Manager.onBreaker breaker (fun cb => (CircuitBreaker.Close cb, tt))) w
    = Ret tt w1 /\ breakersClosed w w1.
Proof.
  induction bs as [| [name b] rest IH]; intros w Hlive.
  - exists w. split; [reflexivity |]. repeat split; tauto.
  - apply Forall_cons in Hlive as [Hb Hrest]. simpl in Hb.
    simpl. unfold_monad.
    destruct b as [| l]; simpl.
    + destruct (IH w Hrest) as (w1 & Hrun & Hsame).
      exists w1. split; assumption.
    + destruct Hb as [Hb | [cb Hcb]]; [discriminate |]. simpl in Hcb.
      rewrite Hcb. simpl.
      set (w0 := set_cbs _ w).
      assert (Hdom : forall l', is_Some (cbs w0 !! l') <-> is_Some (cbs w !! l')).
      { intros l'. subst w0. simpl.
        destruct (decide (l = l')) as [<- | Hne].
        - rewrite lookup_insert_eq, Hcb. split; eauto.
        - rewrite lookup_insert_ne by assumption. tauto. }
      destruct (IH w0) as (w1 & Hrun & Hp & Hi & Ht & Hn & Hc).
      { eapply Forall_impl; [exact Hrest |].
        intros [n' b'] [Hnil | Hsome]; [left; exact Hnil | right].
        destruct b' as [| l']; simpl in *; [exact Hsome |].
        apply Hdom. exact Hsome. }
      exists w1. split; [exact Hrun |].
      repeat split; try assumption.
      * intros H. apply Hdom, Hc, H.
      * intros H. apply Hc, Hdom, H.
Qed.

(** C5. [Close] on a manager whose registered instance and breaker pointers
    refer to objects (a breaker pointer may also be nil): it returns; it
    calls [Free] once for each entry of the plugin map and makes no other
    call into plugin code; it returns nil when no [Free] fails and
    otherwise one error holding an [ErrPluginFree] for every entry whose
    [Free] failed; and afterwards the plugin map is empty. *)
Theorem Close_frees_all (w : World) :
  (forall name p, plugins w !! name = Some p -> is_Some (instanceAt (instances w) p)) ->
  (forall name b, breakers w !! name = Some b ->
     b = nil \/ is_Some (breakerAt (cbs w) b)) ->
  let entries := map_to_list (plugins w) in
  let errs := freeErrors (instances w) entries in
  exists w',
    Manager.Close w
    = Ret (match errs with
           | [] => None
           | _ => Some (Errorf "errors during cleanup: %v" errs)
           end) w' /\
    plugins w' = ∅ /\
    trace w' = trace w ++ freeEvents (instances w) entries /\
    (forall name p inst,
       plugins w !! name = Some p -> instanceAt (instances w) p = Some inst ->
       EvFree (id (PluginInstance.Plugin inst)) ∈ trace w' /\
       forall err,
         Bureau.Free (bureau (PluginInstance.Plugin inst)) = Some err ->
         ErrPluginFree name err ∈ errs) /\
    (errs = [] <->
     forall name p inst,
       plugins w !! name = Some p -> instanceAt (instances w) p = Some inst ->
       Bureau.Free (bureau (PluginInstance.Plugin inst)) = None).
Proof.
  intros Hlive Hbreakers entries errs.
  destruct (closeBreakers_spec (map_to_list (breakers w)) w)
    as (w1 & Hrun & Hp & Hi & Ht & Hn & Hc).
  { apply Forall_forall. intros [name b] Hin.
    apply elem_of_map_to_list in Hin. simpl. eapply Hbreakers, Hin. }
  assert (Hentries : Forall (fun e : string * ptr =>
            is_Some (instanceAt (instances w) e.2)) entries).
  { apply Forall_forall. intros [name p] Hin.
    apply elem_of_map_to_list in Hin. simpl. eapply Hlive, Hin. }
  eexists. split; [| split; [| split; [| split]]].
  - unfold Manager.Close. unfold_monad. rewrite Hrun. simpl.
    rewrite Hp. fold entries.
    set (w2 := set_now _ w1).
    assert (Hi2 : instances w2 = instances w) by exact Hi.
    rewrite freePlugins_spec by (rewrite Hi2; exact Hentries).
    rewrite Hi2. fold errs. simpl.
    destruct errs; reflexivity.
  - simpl. rewrite Hp. apply delete_all_entries.
  - simpl. rewrite Ht. reflexivity.
  - intros name p inst Hreg Hinst. split.
    + simpl. rewrite Ht. apply elem_of_app. right.
      unfold freeEvents. apply list_elem_of_omap. exists (name, p).
      split; [now apply elem_of_map_to_list |]. simpl. rewrite Hinst. reflexivity.
    + intros err Herr. unfold errs, freeErrors.
      apply list_elem_of_omap. exists (name, p).
      split; [now apply elem_of_map_to_list |]. simpl.
      rewrite Hinst. simpl. rewrite Herr. reflexivity.
  - split.
    + intros Hnil name p inst Hreg Hinst.
      destruct (Bureau.Free (bureau (PluginInstance.Plugin inst))) as [err |] eqn:E;
        [| reflexivity].
      exfalso. eapply (not_elem_of_nil (ErrPluginFree name err)).
      rewrite <- Hnil. unfold errs, freeErrors.
      apply list_elem_of_omap. exists (name, p).
      split; [now apply elem_of_map_to_list |]. simpl.
      rewrite Hinst. simpl. rewrite E. reflexivity.
    + intros Hall. destruct errs as [| e rest] eqn:E; [reflexivity |].
      exfalso. assert (He : e ∈ errs) by (rewrite E; left).
      unfold errs, freeErrors in He. apply list_elem_of_omap in He
        as ([name p] & Hin & Hsome).
      apply elem_of_map_to_list in Hin. simpl in Hsome.
      destruct (instanceAt (instances w) p) as [inst |] eqn:Hinst;
        simpl in Hsome; [| discriminate].
      rewrite (Hall _ _ _ Hin Hinst) in Hsome. discriminate.
Qed.

Lemma Close_frees_all_witness :
  exists w',
    Manager.Close Mock.twoPlugins
    = Ret (Some (Errorf "errors during cleanup: %v"
                   [ErrPluginFree "broken" (ErrPlugin "free failed")])) w' /\
    plugins w' = ∅ /\
    trace w' = [EvFree 2; EvFree 1].
Proof.
  destruct (Close_frees_all Mock.twoPlugins) as (w' & Hclose & Hempty & Htrace & _).
  - intros name p H. apply elem_of_map_to_list in H.
    change (map_to_list (plugins Mock.twoPlugins))
      with [("broken", addr 2); ("test-plugin", addr 1)] in H.
    rewrite !elem_of_cons, elem_of_nil in H.
    destruct H as [H | [H | []]]; injection H as -> ->; vm_compute; eauto.
  - intros name b H. apply elem_of_map_to_list in H.
    change (map_to_list (breakers Mock.twoPlugins))
      with [("broken", nil); ("test-plugin", addr 1)] in H.
    rewrite !elem_of_cons, elem_of_nil in H.
    destruct H as [H | [H | []]]; injection H as -> ->;
      [left; reflexivity | right; vm_compute; eauto].
  - exists w'. split; [exact Hclose | split; [exact Hempty | exact Htrace]].
Defined.

(** ** Merging configurations *)

Lemma forEach_mapAssign entries : forall (h : OptionMaps) l dm,
  h !! l = Some dm ->
  forEach entries (fun '(k, v) => mapAssign (addr l) k v) h
  = Ret tt (<[l := foldl (fun m (e : string * Value) => <[e.1 := e.2]> m) dm entries]> h).
Proof.
  induction entries as [| [k v] rest IH]; intros h l dm Hl.
  - simpl. unfold_monad. rewrite insert_id by exact Hl. reflexivity.
  - simpl. unfold_monad. unfold mapAssign at 1. rewrite Hl.
    rewrite (IH _ l (<[k := v]> dm)) by apply lookup_insert_eq.
    rewrite insert_insert_eq. reflexivity.
Qed.

Lemma foldl_insert_lookup (entries : list (string * Value)) :
  forall (dm : gmap string Value) k,
  NoDup entries.*1 ->
  foldl (fun m (e : string * Value) => <[e.1 := e.2]> m) dm entries !! k
  = match (list_to_map entries : gmap string Value) !! k with
    | Some v => Some v
    | None => dm !! k
    end.
Proof.
  induction entries as [| [k0 v0] rest IH]; intros dm k Hnd.
  - reflexivity.
  - cbn [fmap list_fmap fst] in Hnd. apply NoDup_cons in Hnd as [Hnin Hnd].
    cbn [foldl list_to_map foldr fst snd]. rewrite IH by exact Hnd.
    destruct (decide (k0 = k)) as [<- | Hne].
    + rewrite (not_elem_of_list_to_map_1 _ _ Hnin), !lookup_insert_eq.
      reflexivity.
    + rewrite !lookup_insert_ne by exact Hne. reflexivity.
Qed.

Lemma foldl_insert_union (sm dm : gmap string Value) :
  foldl (fun m (e : string * Value) => <[e.1 := e.2]> m) dm (map_to_list sm)
  = sm ∪ dm.
Proof.
  apply map_eq. intros k.
  rewrite foldl_insert_lookup by apply NoDup_fst_map_to_list.
  rewrite list_to_map_to_list, lookup_union.
  destruct (sm !! k), (dm !! k); reflexivity.
Qed.

(** C8, as the code has it.  For a plugin with an override [s] over the
    default [d], where the default's option map is not nil unless the
    override has no options: [GetPluginConfig] returns a configuration
    whose [InitArgs] are the override's when those are non-empty, whose
    [CircuitBreaker] is the override's when that has [Enabled] set, whose
    [MaxConcurrentCalls] and [PluginTimeout] are the override's when those
    are positive, each the default's otherwise, and whose [Options], the
    default's own map, hold the override's entries and, for the keys the
    override has not, the default's. *)
Theorem GetPluginConfig_merges (c : Config) (pluginName : string)
  (s : PluginSpecificConfig) (h : OptionMaps) (dm sm : gmap string Value) :
  PluginConfigs c !! pluginName = Some s ->
  optionsAt h (Options (DefaultPluginConfig c)) = Some dm ->
  optionsAt h (Options s) = Some sm ->
  (Options (DefaultPluginConfig c) = nil -> sm = ∅) ->
  let d := DefaultPluginConfig c in
  exists merged h',
    GetPluginConfig c pluginName h = Ret merged h' /\
    (InitArgs s <> [] -> InitArgs merged = InitArgs s) /\
    (InitArgs s = [] -> InitArgs merged = InitArgs d) /\
    (Enabled (CircuitBreaker s) = true -> CircuitBreaker merged = CircuitBreaker s) /\
    (Enabled (CircuitBreaker s) = false -> CircuitBreaker merged = CircuitBreaker d) /\
    (MaxConcurrentCalls s > 0 -> MaxConcurrentCalls merged = MaxConcurrentCalls s) /\
    (MaxConcurrentCalls s <= 0 -> MaxConcurrentCalls merged = MaxConcurrentCalls d) /\
    (PluginTimeout s > 0 -> PluginTimeout merged = PluginTimeout s) /\
    (PluginTimeout s <= 0 -> PluginTimeout merged = PluginTimeout d) /\
    Options merged = Options d /\
    optionsAt h' (Options merged) = Some (sm ∪ dm) /\
    (forall k,
       (sm ∪ dm) !! k = match sm !! k with Some v => Some v | None => dm !! k end).
Proof.
  intros Hs Hdm Hsm Hnil d.
  unfold GetPluginConfig. rewrite Hs. unfold mergeConfig. fold d.
  set (merged := if PluginTimeout s >? 0 then _ else _).
  assert (Hopt : Options merged = Options d).
  { subst merged. repeat (match goal with |- context [if ?b then _ else _] =>
      destruct b end); reflexivity. }
  assert (Hentries : mapRange (Options s) h = Ret (map_to_list sm) h).
  { unfold mapRange. destruct (Options s) as [| l']; simpl in Hsm.
    - injection Hsm as <-. rewrite map_to_list_empty. reflexivity.
    - rewrite Hsm. reflexivity. }
  unfold_monad. rewrite Hentries, Hopt.
  assert (Hfields :
    (InitArgs s <> [] -> InitArgs merged = InitArgs s) /\
    (InitArgs s = [] -> InitArgs merged = InitArgs d) /\
    (Enabled (CircuitBreaker s) = true -> CircuitBreaker merged = CircuitBreaker s) /\
    (Enabled (CircuitBreaker s) = false -> CircuitBreaker merged = CircuitBreaker d) /\
    (MaxConcurrentCalls s > 0 -> MaxConcurrentCalls merged = MaxConcurrentCalls s) /\
    (MaxConcurrentCalls s <= 0 -> MaxConcurrentCalls merged = MaxConcurrentCalls d) /\
    (PluginTimeout s > 0 -> PluginTimeout merged = PluginTimeout s) /\
    (PluginTimeout s <= 0 -> PluginTimeout merged = PluginTimeout d)).
  { subst merged.
    destruct (Z.gtb_spec (PluginTimeout s) 0), (Z.gtb_spec (MaxConcurrentCalls s) 0),
      (Enabled (CircuitBreaker s)), (InitArgs s) as [| arg args];
      cbn [length Nat.ltb Nat.leb InitArgs CircuitBreaker MaxConcurrentCalls
           PluginTimeout];
      repeat split; intros; try reflexivity; try congruence; try lia. }
  assert (Hunion : forall k,
    (sm ∪ dm) !! k = match sm !! k with Some v => Some v | None => dm !! k end).
  { intros k. rewrite lookup_union. destruct (sm !! k), (dm !! k); reflexivity. }
  fold d in Hdm, Hnil.
  destruct (Options d) as [| l] eqn:Hd; simpl in Hdm.
  - rewrite (Hnil eq_refl), map_to_list_empty. simpl.
    exists merged, h. rewrite Hopt. simpl. injection Hdm as <-.
    rewrite (left_id_L ∅ (∪)).
    rewrite (Hnil eq_refl), (left_id_L ∅ (∪)) in Hunion.
    repeat split; try apply Hfields; try reflexivity; try exact Hunion.
  - rewrite (forEach_mapAssign _ _ _ _ Hdm).
    eexists merged, _. rewrite Hopt. simpl.
    rewrite lookup_insert_eq, foldl_insert_union.
    repeat split; try apply Hfields; try reflexivity; try exact Hunion.
Qed.

Lemma GetPluginConfig_merges_witness :
  exists merged h',
    GetPluginConfig Mock.configWithOverride "test-plugin" Mock.optionMaps
    = Ret merged h' /\
    InitArgs merged = [VStr "arg"] /\
    CircuitBreaker merged = Mock.breakerConfig /\
    MaxConcurrentCalls merged = 100 /\
    PluginTimeout merged = 10 * time.Second /\
    optionsAt h' (Options merged) = Some (Mock.overrideOptions ∪ Mock.defaultOptions).
Proof.
  destruct (GetPluginConfig_merges Mock.configWithOverride "test-plugin"
              Mock.overrideConfig Mock.optionMaps
              Mock.defaultOptions Mock.overrideOptions)
    as (merged & h' & Hrun & Hargs & _ & _ & Hcb & _ & Hmax & Htimeout & _ & _ & Hopts & _).
  - reflexivity.
  - reflexivity.
  - reflexivity.
  - simpl. discriminate.
  - exists merged, h'. split; [exact Hrun |].
    split; [apply Hargs; discriminate |].
    split; [apply Hcb; reflexivity |].
    split; [apply Hmax; simpl; lia |].
    split; [apply Htimeout; reflexivity | exact Hopts].
Defined.

(** C8, as stated, fails: an override whose [CircuitBreaker] field is set
    (three failures, two seconds) but not enabled does not replace the
    default's. *)
Lemma GetPluginConfig_keeps_default_breaker :
  exists merged h',
    GetPluginConfig Mock.configWithOverride "test-plugin" Mock.optionMaps
    = Ret merged h' /\
    CircuitBreaker Mock.overrideConfig <> mkCircuitBreakerConfig false 0 0 0 /\
    CircuitBreaker merged <> CircuitBreaker Mock.overrideConfig /\
    CircuitBreaker merged = CircuitBreaker (DefaultPluginConfig Mock.configWithOverride).
Proof.
  eexists _, _. split; [reflexivity |].
  split; [discriminate |]. split; [discriminate | reflexivity].
Qed.

(** ** Versions *)

Lemma Atoi_zero : strconv.Atoi "0" = (0, None).
Proof. reflexivity. Qed.

Ltac compare_cases :=
  repeat match goal with
  | |- context [?a >? ?b] => destruct (Z.gtb_spec a b)
  | |- context [?a <? ?b] => destruct (Z.ltb_spec a b)
  | |- context [?a =? ?b] => destruct (Z.eqb_spec a b)
  end.

(** When the new version has at most three parts the loop is the
    comparison of three numbers, a missing part counting as zero, whatever
    the number of parts of the current version. *)
Lemma compareParts_three (v1 v2 : list string) :
  (length v1 <= 3)%nat ->
  let a i := match v1 !! i with Some part => fst (strconv.Atoi part) | None => 0 end in
  let b i := match v2 !! i with Some part => fst (strconv.Atoi part) | None => 0 end in
  compareParts (padTo3 v1) (padTo3 v2)
  = Some ((a 0%nat >? b 0%nat) ||
          ((a 0%nat =? b 0%nat) &&
           ((a 1%nat >? b 1%nat) ||
            ((a 1%nat =? b 1%nat) && (a 2%nat >? b 2%nat))))).
Proof.
  intros H1.
  destruct v1 as [| a0 [| a1 [| a2 [| ? ?]]]]; simpl in H1; try lia;
  destruct v2 as [| b0 [| b1 [| b2 rest]]];
  cbv zeta; unfold padTo3;
  cbn [length Nat.sub repeat app compareParts lookup list_lookup];
  rewrite ?Atoi_zero; cbn [fst];
  compare_cases; cbn [orb andb]; try reflexivity; try lia.
Qed.

(** The panic of the comparison loop: the new version has a fourth part and
    the current one has not. *)
Lemma isHigherVersion_index_out_of_range :
  isHigherVersion "1.0.0.1" "1.0.0" = None.
Proof. reflexivity. Qed.

(** C4, as the code has it.  For a name whose current instance is [old],
    loading a module [plugin]: when the comparison of the code says the
    module's version is not higher, the module's [Free] is called and
    nothing else changes; whenever the load returns with the plugin map or
    the instances changed, the comparison said higher; when it says higher
    and [Init] succeeds, the name's current instance is a new active
    instance of the module; and when the module's version has at most
    three parts the comparison of the code is the three-part numeric
    comparison. *)
Theorem LoadPluginWithConfig_version_gate (w : World) (path : string)
  (pluginConfig : option PluginSpecificConfig) (plugin : Plugin)
  (l : positive) (old : PluginInstance.t) :
  let pluginName := getPluginNameFromPath path in
  let new := Plugin.Version plugin in
  let current := PluginInstance.version old in
  plugins w !! pluginName = Some (addr l) ->
  instances w !! l = Some old ->
  (isHigherVersion new current = Some false ->
   Manager.LoadPluginWithConfig path pluginConfig (inl plugin) w
   = Ret None (set_trace (fun t => t ++ [EvFree (id plugin)]) w)) /\
  (forall r w',
     Manager.LoadPluginWithConfig path pluginConfig (inl plugin) w = Ret r w' ->
     plugins w' <> plugins w \/ instances w' <> instances w ->
     isHigherVersion new current = Some true) /\
  (isHigherVersion new current = Some true ->
   Bureau.Init (bureau plugin)
     (InitArgs (default (DefaultPluginConfig (config w)) pluginConfig)) = None ->
   exists l' w',
     Manager.LoadPluginWithConfig path pluginConfig (inl plugin) w = Ret None w' /\
     plugins w' !! pluginName = Some (addr l') /\
     instances w' !! l' = Some (PluginInstance.mk plugin StateActive new) /\
     l' <> l) /\
  ((length (versionParts new) <= 3)%nat ->
   isHigherVersion new current = Some (threePartHigher new current)).
Proof.
  intros pluginName new current Hp Hi.
  split; [| split; [| split]].
  - intros Hv. unfold Manager.LoadPluginWithConfig, Manager.deref, Plugin.Free.
    unfold_monad. fold pluginName. rewrite Hp, Hi. fold new current.
    rewrite Hv. reflexivity.
  - intros r w' Hrun Hchg.
    destruct (isHigherVersion new current) as [[|] |] eqn:Hv; [reflexivity | |];
      exfalso; revert Hrun;
      unfold Manager.LoadPluginWithConfig, Manager.deref, Plugin.Free;
      unfold_monad; fold pluginName; rewrite Hp, Hi; fold new current;
      rewrite Hv.
    + intros [= <- <-]. destruct Hchg as [H | H]; apply H; reflexivity.
    + discriminate.
  - intros Hv Hinit.
    unfold Manager.LoadPluginWithConfig, Manager.deref, Manager.setState,
      Manager.deref, Manager.initAndStore, Plugin.Init,
      Manager.NewCircuitBreaker, Manager.newInstance.
    unfold_monad. fold pluginName. rewrite Hp, Hi. fold new current.
    rewrite Hv. cbn [instances set_instances]. rewrite Hi, Hinit.
    eexists _, _. split; [reflexivity |].
    cbn [plugins instances set_plugins set_pluginPaths set_breakers set_instances
         set_cbs set_trace].
    rewrite !lookup_insert_eq. repeat split.
    intros Heq.
    pose proof (is_fresh (dom (<[l := PluginInstance.mk (PluginInstance.Plugin old)
                                      StateDeprecated (PluginInstance.version old)]>
                                (instances w)))) as Hfresh.
    apply Hfresh. rewrite Heq. apply elem_of_dom. rewrite lookup_insert_eq. eauto.
  - intros H1. unfold isHigherVersion, threePartHigher, versionPart.
    apply (compareParts_three _ _ H1).
Qed.

Lemma LoadPluginWithConfig_version_gate_witness :
  Manager.LoadPluginWithConfig "/plugins/test-plugin.so" None
    (inl (Mock.NewMockPlugin 2 "1.5.0" Mock.mockFuncs)) (Mock.withPlugin "2.0.0" 0 0 0)
  = Ret None (set_trace (fun t => t ++ [EvFree 2]) (Mock.withPlugin "2.0.0" 0 0 0)).
Proof.
  destruct (LoadPluginWithConfig_version_gate (Mock.withPlugin "2.0.0" 0 0 0)
              "/plugins/test-plugin.so" None
              (Mock.NewMockPlugin 2 "1.5.0" Mock.mockFuncs) 1
              (PluginInstance.mk (Mock.NewMockPlugin 1 "2.0.0" Mock.mockFuncs)
                 StateActive "2.0.0"))
    as [Hdiscard _]; [reflexivity | reflexivity |].
  apply Hdiscard. reflexivity.
Defined.

(** C4, as stated, fails: with "1.0.0.1" current, the module "1.0.0.2" is
    installed, its [Free] is not called, and the three-part comparison does
    not rank it higher. *)
Lemma LoadPlugin_fourth_part_installs :
  let r :=
    Manager.LoadPlugin "/plugins/test-plugin.so"
      (inl (Mock.NewMockPlugin 2 "1.0.0.2" Mock.mockFuncs))
      (Mock.withPlugin "1.0.0.1" 0 0 0) in
  threePartHigher "1.0.0.2" "1.0.0.1" = false /\
  returned r = Some None /\
  plugins (final r) !! "test-plugin" = Some (addr 2) /\
  PluginInstance.version <$> instances (final r) !! 2%positive = Some "1.0.0.2" /\
  trace (final r) = [EvInit 2 []].
Proof. repeat split; vm_compute; reflexivity. Qed.

(** The load of "1.0.0.1" over "1.0.0" panics in the comparison. *)
Lemma LoadPlugin_fourth_part_panics :
  Manager.LoadPlugin "/plugins/test-plugin.so"
    (inl (Mock.NewMockPlugin 2 "1.0.0.1" Mock.mockFuncs))
    (Mock.withPlugin "1.0.0" 0 0 0)
  = Panic indexOutOfRange (Mock.withPlugin "1.0.0" 0 0 0).
Proof. vm_compute. reflexivity. Qed.

(** C2. With "test-plugin" at 1.0.0 current and active, the load of a
    module 2.0.0 whose [Init] fails returns the error, calls the module's
    [Free] and leaves the maps as they were, but the instance that is still
    current is now Deprecated, where the claim has it Active. *)
Theorem LoadPlugin_init_failure_deprecates_current :
  let w := Mock.withPlugin "1.0.0" 0 0 0 in
  let r :=
    Manager.LoadPlugin "/plugins/test-plugin.so"
      (inl (Mock.failingInit 2 "2.0.0")) w in
  returned r
  = Some (Some (Errorf "failed to initialize plugin: %w" [ErrPlugin "init failed"])) /\
  trace (final r) = [EvInit 2 []; EvFree 2] /\
  plugins (final r) = plugins w /\
  breakers (final r) = breakers w /\
  plugins (final r) !! "test-plugin" = Some (addr 1) /\
  PluginInstance.state <$> instances w !! 1%positive = Some StateActive /\
  PluginInstance.state <$> instances (final r) !! 1%positive = Some StateDeprecated.
Proof. repeat split; vm_compute; reflexivity. Qed.

(** Whatever the world: when the comparison says higher and [Init] fails,
    the instance that stays current is marked Deprecated. *)
Lemma LoadPluginWithConfig_init_failure (w : World) (path : string)
  (pluginConfig : option PluginSpecificConfig) (plugin : Plugin)
  (l : positive) (old : PluginInstance.t) (err : error) :
  plugins w !! getPluginNameFromPath path = Some (addr l) ->
  instances w !! l = Some old ->
  isHigherVersion (Plugin.Version plugin) (PluginInstance.version old) = Some true ->
  Bureau.Init (bureau plugin)
    (InitArgs (default (DefaultPluginConfig (config w)) pluginConfig)) = Some err ->
  exists w',
    Manager.LoadPluginWithConfig path pluginConfig (inl plugin) w
    = Ret (Some (Errorf "failed to initialize plugin: %w" [err])) w' /\
    plugins w' = plugins w /\
    instances w' !! l
    = Some (PluginInstance.mk (PluginInstance.Plugin old) StateDeprecated
              (PluginInstance.version old)).
Proof.
  intros Hp Hi Hv Hinit.
  unfold Manager.LoadPluginWithConfig, Manager.deref, Manager.setState,
    Manager.deref, Manager.initAndStore, Plugin.Init, Plugin.Free.
  unfold_monad. rewrite Hp, Hi, Hv. cbn [instances set_instances].
  rewrite Hi, Hinit. eexists. split; [reflexivity |].
  split; [reflexivity |]. simpl. apply lookup_insert_eq.
Qed.

(** C10. "test-plugin" with a HalfOpen breaker and maxFailures = 5: five
    calls of a function the plugin has not all return the function-not-found
    error and count as failures, the counter reaches 5, and the breaker is
    still HalfOpen, where the claim has it Open. *)
Theorem Call_unknown_function_HalfOpen_stays :
  let w := Mock.withPlugin "1.0.0" CircuitBreaker.StateHalfOpen 0 0 in
  let r := Mock.callTimes 5 "test-plugin" "NoSuchFunc" w in
  returned r = Some (repeat (Some (ErrFuncNotFound "NoSuchFunc")) 5) /\
  CircuitBreaker.failures <$> cbs (final r) !! 1%positive = Some 5 /\
  CircuitBreaker.state <$> cbs (final r) !! 1%positive
  = Some CircuitBreaker.StateHalfOpen /\
  trace (final r) = [].
Proof. repeat split; vm_compute; reflexivity. Qed.

(** From Closed the same five calls open the breaker. *)
Lemma Call_unknown_function_Closed_opens :
  let w := Mock.withPlugin "1.0.0" CircuitBreaker.StateClosed 0 0 in
  let r := Mock.callTimes 5 "test-plugin" "NoSuchFunc" w in
  returned r = Some (repeat (Some (ErrFuncNotFound "NoSuchFunc")) 5) /\
  CircuitBreaker.failures <$> cbs (final r) !! 1%positive = Some 5 /\
  CircuitBreaker.state <$> cbs (final r) !! 1%positive = Some CircuitBreaker.StateOpen.
Proof. repeat split; vm_compute; reflexivity. Qed.

(** * Further properties *)

Arguments CircuitBreaker.resetTick : simpl never.

(** ** Histories of a breaker *)

Lemma Allow_Some now cb :
  exists cb' b, CircuitBreaker.Allow now (Some cb) = (Some cb', b).
Proof.
  unfold CircuitBreaker.Allow.
  repeat match goal with
  | |- context [if ?c then _ else _] => destruct c
  | |- context [CompareAndSwap ?a ?b ?c] => destruct (CompareAndSwap a b c)
  end; eauto.
Qed.

(** The shape of a breaker after one operation, by the state it was in. *)
Lemma applyOp_cases op cb :
  let cb' := applyOp op cb in
  CircuitBreaker.config cb' = CircuitBreaker.config cb /\
  CircuitBreaker.done cb' = CircuitBreaker.done cb /\
  (CircuitBreaker.state cb' = CircuitBreaker.state cb \/
   (CircuitBreaker.state cb = CircuitBreaker.StateOpen /\
    CircuitBreaker.state cb' = CircuitBreaker.StateHalfOpen /\
    CircuitBreaker.failures cb' = 0) \/
   (CircuitBreaker.state cb = CircuitBreaker.StateHalfOpen /\
    CircuitBreaker.state cb' = CircuitBreaker.StateClosed /\
    CircuitBreaker.failures cb' = 0) \/
   (CircuitBreaker.state cb = CircuitBreaker.StateClosed /\
    CircuitBreaker.state cb' = CircuitBreaker.StateOpen /\
    isFailure op = true)).
Proof.
  destruct cb as [s f l cfg d].
  destruct op as [now | | now |]; cbv zeta;
    unfold applyOp, CircuitBreaker.Allow, CircuitBreaker.RecordSuccess,
      CircuitBreaker.RecordFailure, CircuitBreaker.resetTick, CompareAndSwap,
      CircuitBreaker.StateClosed, CircuitBreaker.StateOpen,
      CircuitBreaker.StateHalfOpen;
    cbn [CircuitBreaker.state CircuitBreaker.failures CircuitBreaker.config
         CircuitBreaker.done CircuitBreaker.lastFailure
         CircuitBreaker.set_state CircuitBreaker.set_failures
         CircuitBreaker.set_lastFailure];
    repeat match goal with
    | |- context [?a =? ?b] => destruct (Z.eqb_spec a b); try lia
    | |- context [if ?c then _ else _] => destruct c
    end;
    cbn [default fst CircuitBreaker.state CircuitBreaker.failures
         CircuitBreaker.config CircuitBreaker.done CircuitBreaker.set_state
         CircuitBreaker.set_failures isFailure];
    subst; repeat split; auto 10.
Qed.

(** Whatever happens to a breaker made by [NewCircuitBreaker], its state is
    one of Closed, Open and HalfOpen and its configuration the one it was
    made with. *)
Theorem breaker_states_reachable (cfg : CircuitBreakerConfig) (ops : list BreakerOp) :
  let cb := applyOps ops (CircuitBreaker.New cfg) in
  (CircuitBreaker.state cb = CircuitBreaker.StateClosed \/
   CircuitBreaker.state cb = CircuitBreaker.StateOpen \/
   CircuitBreaker.state cb = CircuitBreaker.StateHalfOpen) /\
  CircuitBreaker.config cb = cfg.
Proof.
  cbv zeta. unfold applyOps.
  induction ops as [| op ops IH] using rev_ind.
  - simpl. auto.
  - rewrite foldl_app. simpl.
    destruct IH as [Hstate Hcfg].
    destruct (applyOp_cases op (foldl (fun cb op => applyOp op cb)
                                  (CircuitBreaker.New cfg) ops))
      as (Hc & _ & Hs).
    split; [| congruence].
    destruct Hs as [Hs | [(_ & Hs & _) | [(_ & Hs & _) | (_ & Hs & _)]]];
      rewrite Hs; auto.
Qed.

Lemma failuresIn_app ops op :
  failuresIn (ops ++ [op]) = failuresIn ops + (if isFailure op then 1 else 0).
Proof.
  unfold failuresIn, sumZ. rewrite map_app, foldr_app. simpl.
  generalize (if isFailure op then 1 else 0). intros z.
  induction (map _ ops) as [| x xs IH]; simpl; [lia | rewrite IH; lia].
Qed.

Lemma failuresIn_nonneg ops : 0 <= failuresIn ops.
Proof.
  unfold failuresIn, sumZ. induction ops as [| op ops IH]; simpl; [lia |].
  destruct (isFailure op); lia.
Qed.

(** The failure counter is cumulative.  For a Closed breaker with the
    counter at zero and a history of reported successes and failures: the
    counter is the number of failures reported, successes in between do not
    lower it, and the breaker is Open exactly when that number has reached
    maxFailures. *)
Theorem breaker_opens_after_maxFailures (cb : CircuitBreaker.t) (ops : list BreakerOp) :
  CircuitBreaker.state cb = CircuitBreaker.StateClosed ->
  CircuitBreaker.failures cb = 0 ->
  1 <= MaxFailures (CircuitBreaker.config cb) < 2 ^ 31 ->
  forallb isReport ops = true ->
  failuresIn ops < 2 ^ 31 ->
  let cb' := applyOps ops cb in
  CircuitBreaker.failures cb' = failuresIn ops /\
  CircuitBreaker.state cb'
  = (if failuresIn ops >=? MaxFailures (CircuitBreaker.config cb)
     then CircuitBreaker.StateOpen else CircuitBreaker.StateClosed).
Proof.
  intros Hs Hf Hn. cbv zeta. unfold applyOps.
  induction ops as [| op ops IH] using rev_ind; intros Hrep Hk.
  - simpl. rewrite Hs, Hf. split; [reflexivity |].
    change (failuresIn []) with 0. destruct (Z.geb_spec 0 (MaxFailures (CircuitBreaker.config cb)));
      [lia | reflexivity].
  - rewrite forallb_app in Hrep. apply andb_prop in Hrep as [Hrep Hop].
    rewrite failuresIn_app in Hk |- *.
    pose proof (failuresIn_nonneg ops) as Hnn.
    assert (Hk' : failuresIn ops < 2 ^ 31) by (destruct (isFailure op); lia).
    destruct (IH Hrep Hk') as [IHf IHs]. clear IH.
    rewrite foldl_app. simpl.
    set (cb0 := foldl (fun cb op => applyOp op cb) cb ops) in *.
    assert (Hcfg : CircuitBreaker.config cb0 = CircuitBreaker.config cb).
    { subst cb0. clear. induction ops as [| o os IHo] using rev_ind; [reflexivity |].
      rewrite foldl_app. simpl.
      destruct (applyOp_cases o (foldl (fun cb op => applyOp op cb) cb os)) as [Hc _].
      congruence. }
    destruct cb0 as [s f l cfg d]. simpl in IHf, IHs, Hcfg. subst f cfg.
    destruct op as [now | | now |]; simpl in Hop; try discriminate.
    + (* a success *)
      cbn [isFailure]. rewrite Z.add_0_r.
      unfold applyOp, CircuitBreaker.RecordSuccess, CompareAndSwap.
      cbn [CircuitBreaker.state].
      destruct (Z.geb_spec (failuresIn ops) (MaxFailures (CircuitBreaker.config cb)));
        subst s; simpl; split; reflexivity.
    + (* a failure *)
      cbn [isFailure] in *.
      unfold applyOp, CircuitBreaker.RecordFailure, CompareAndSwap.
      cbn [CircuitBreaker.state CircuitBreaker.failures CircuitBreaker.config
           CircuitBreaker.set_lastFailure CircuitBreaker.set_failures].
      rewrite !int32_small by lia.
      destruct (Z.geb_spec (failuresIn ops) (MaxFailures (CircuitBreaker.config cb)));
        destruct (Z.geb_spec (failuresIn ops + 1) (MaxFailures (CircuitBreaker.config cb)));
        try lia; subst s; simpl; split; reflexivity.
Qed.

Lemma breaker_opens_after_maxFailures_witness :
  CircuitBreaker.state
    (applyOps [OpFailure 1; OpSuccess; OpFailure 2; OpFailure 3; OpSuccess;
               OpFailure 4; OpFailure 5]
       (CircuitBreaker.New Mock.breakerConfig))
  = CircuitBreaker.StateOpen.
Proof.
  apply (breaker_opens_after_maxFailures (CircuitBreaker.New Mock.breakerConfig)
           [OpFailure 1; OpSuccess; OpFailure 2; OpFailure 3; OpSuccess;
            OpFailure 4; OpFailure 5]); try reflexivity.
  simpl. lia.
Defined.

(** Recovery.  An Open breaker whose cooldown has passed: the next [Allow]
    lets a trial call through and a reported success closes the breaker
    with the counter at zero; the time of the last failure and the
    configuration stay. *)
Theorem breaker_recovers (cb : CircuitBreaker.t) (now : Z) :
  CircuitBreaker.state cb = CircuitBreaker.StateOpen ->
  time.Since now (CircuitBreaker.lastFailure cb)
    > TimeoutDuration (CircuitBreaker.config cb) ->
  exists cb1,
    CircuitBreaker.Allow now (Some cb) = (Some cb1, true) /\
    CircuitBreaker.RecordSuccess (Some cb1)
    = Some (CircuitBreaker.mk CircuitBreaker.StateClosed 0
              (CircuitBreaker.lastFailure cb) (CircuitBreaker.config cb)
              (CircuitBreaker.done cb)).
Proof.
  intros Hs Ht. destruct cb as [s f l cfg d]. simpl in *. subst s.
  unfold CircuitBreaker.Allow. simpl.
  destruct (Z.gtb_spec (time.Since now l) (TimeoutDuration cfg)); [| lia].
  eexists. split; reflexivity.
Qed.

Lemma breaker_recovers_witness :
  exists cb1,
    CircuitBreaker.Allow (3 * time.Second)
      (Some (CircuitBreaker.mk CircuitBreaker.StateOpen 5 time.Second
               Mock.breakerConfig false))
    = (Some cb1, true) /\
    CircuitBreaker.RecordSuccess (Some cb1)
    = Some (CircuitBreaker.mk CircuitBreaker.StateClosed 0 time.Second
              Mock.breakerConfig false).
Proof.
  apply (breaker_recovers
           (CircuitBreaker.mk CircuitBreaker.StateOpen 5 time.Second
              Mock.breakerConfig false) (3 * time.Second)).
  - reflexivity.
  - vm_compute. reflexivity.
Defined.

(** The reset timer guarantees progress: once it has fired, the next
    [Allow] lets the call through, however short the time since the last
    failure; a breaker that is not Open is left as it is by the timer. *)
Theorem resetTick_then_Allow (cb : CircuitBreaker.t) (now : Z) :
  (CircuitBreaker.Allow now (Some (CircuitBreaker.resetTick cb))).2 = true /\
  CircuitBreaker.state (CircuitBreaker.resetTick cb) <> CircuitBreaker.StateOpen /\
  (CircuitBreaker.state cb <> CircuitBreaker.StateOpen ->
   CircuitBreaker.resetTick cb = cb).
Proof.
  destruct cb as [s f l cfg d].
  unfold CircuitBreaker.resetTick, CircuitBreaker.Allow, CompareAndSwap,
    CircuitBreaker.StateOpen, CircuitBreaker.StateHalfOpen,
    CircuitBreaker.StateClosed.
  cbn [CircuitBreaker.state].
  destruct (Z.eqb_spec s 1) as [-> | Hne]; simpl.
  - repeat split; [discriminate | intros H; contradiction].
  - repeat split; try assumption.
    destruct (Z.eqb_spec s 0); [reflexivity |].
    destruct (Z.eqb_spec s 2); [reflexivity |].
    destruct (Z.eqb_spec s 1); [contradiction | reflexivity].
Qed.

(** ** Calls through an Open breaker *)

Lemma set_cbs_same l cb w :
  cbs w !! l = Some cb -> set_cbs (insert l cb) w = w.
Proof.
  intros H. unfold set_cbs. rewrite insert_id by exact H. apply World_eta.
Qed.

(** While the breaker of a plugin is Open and its cooldown has not passed,
    [Call] returns the circuit-open error without calling into the plugin,
    and nothing changes: not the breaker, the metrics, the clock or the
    log of calls. *)
Theorem Call_rejected_while_open (w : World) (pluginName funcName : string)
  (args : list Value) (instance : ptr) (l : positive) (cb : CircuitBreaker.t) :
  plugins w !! pluginName = Some instance ->
  breakers w !! pluginName = Some (addr l) ->
  cbs w !! l = Some cb ->
  CircuitBreaker.state cb = CircuitBreaker.StateOpen ->
  time.Since (now w) (CircuitBreaker.lastFailure cb)
    <= TimeoutDuration (CircuitBreaker.config cb) ->
  Manager.Call pluginName funcName args w
  = Ret (VNil, Some (ErrCircuitBreakerOpen pluginName)) w.
Proof.
  intros Hp Hb Hcb Hs Ht.
  unfold Manager.Call, Manager.Allow, Manager.assertBreaker, Manager.onBreaker.
  unfold_monad. rewrite Hp, Hb. cbn [isNil]. rewrite Hcb.
  unfold CircuitBreaker.Allow. rewrite Hs. simpl.
  destruct (Z.gtb_spec (time.Since (now w) (CircuitBreaker.lastFailure cb))
              (TimeoutDuration (CircuitBreaker.config cb))); [lia |].
  simpl. rewrite (set_cbs_same _ _ _ Hcb). reflexivity.
Qed.

Lemma Call_rejected_while_open_witness :
  Manager.Call "test-plugin" "TestFunc" []
    (Mock.withPlugin "1.0.0" CircuitBreaker.StateOpen 5 time.Second)
  = Ret (VNil, Some (ErrCircuitBreakerOpen "test-plugin"))
      (Mock.withPlugin "1.0.0" CircuitBreaker.StateOpen 5 time.Second).
Proof.
  apply (Call_rejected_while_open _ "test-plugin" "TestFunc" [] (addr 1) 1
           (CircuitBreaker.mk CircuitBreaker.StateOpen 5 0 Mock.breakerConfig false));
    first [reflexivity | vm_compute; discriminate].
Defined.

(** [GetBreakerStatus] and [IsCircuitBreakerOpen] are the same query, and
    it is not read-only: for a plugin with a breaker it answers true
    exactly when the breaker is Open within its cooldown, and asking about
    an Open breaker whose cooldown has passed makes the breaker HalfOpen
    and sets its counter to zero. *)
Theorem GetBreakerStatus_probes (w : World) (pluginName : string)
  (l : positive) (cb : CircuitBreaker.t) :
  breakers w !! pluginName = Some (addr l) ->
  cbs w !! l = Some cb ->
  Manager.IsCircuitBreakerOpen pluginName w = Manager.GetBreakerStatus pluginName w /\
  exists (open : bool) (w' : World),
    Manager.GetBreakerStatus pluginName w = Ret open w' /\
    (open = true <->
     CircuitBreaker.state cb = CircuitBreaker.StateOpen /\
     time.Since (now w) (CircuitBreaker.lastFailure cb)
       <= TimeoutDuration (CircuitBreaker.config cb)) /\
    (open = true -> w' = w) /\
    (CircuitBreaker.state cb = CircuitBreaker.StateOpen ->
     time.Since (now w) (CircuitBreaker.lastFailure cb)
       > TimeoutDuration (CircuitBreaker.config cb) ->
     open = false /\
     w' = set_cbs (insert l (CircuitBreaker.set_failures 0
                     (CircuitBreaker.set_state CircuitBreaker.StateHalfOpen cb))) w).
Proof.
  intros Hb Hcb. split; [reflexivity |].
  unfold Manager.GetBreakerStatus, Manager.Allow, Manager.assertBreaker,
    Manager.onBreaker.
  unfold_monad. rewrite Hb. cbn [isNil]. rewrite Hcb.
  destruct cb as [s f lf cfg d].
  unfold CircuitBreaker.Allow, CompareAndSwap, CircuitBreaker.StateOpen,
    CircuitBreaker.StateClosed, CircuitBreaker.StateHalfOpen.
  cbn [CircuitBreaker.state CircuitBreaker.lastFailure CircuitBreaker.config].
  assert (Hsame : set_cbs (insert l (CircuitBreaker.mk s f lf cfg d)) w = w)
    by apply (set_cbs_same _ _ _ Hcb).
  destruct (Z.eqb_spec s 0) as [-> | H0]; [| destruct (Z.eqb_spec s 2) as [-> | H2];
    [| destruct (Z.eqb_spec s 1) as [-> | H1];
       [destruct (Z.gtb_spec (time.Since (now w) lf) (TimeoutDuration cfg)) |]]];
    (eexists _, _; split; [reflexivity |]); simpl;
    repeat split; intros;
    repeat match goal with H : _ /\ _ |- _ => destruct H end;
    try discriminate; try lia; try reflexivity; try exact Hsame.
Qed.

Lemma GetBreakerStatus_probes_witness :
  exists (open : bool) (w' : World),
    Manager.GetBreakerStatus "test-plugin"
      (Mock.withPlugin "1.0.0" CircuitBreaker.StateOpen 5 (3 * time.Second))
    = Ret open w' /\
    open = false /\
    CircuitBreaker.state <$> cbs w' !! 1%positive = Some CircuitBreaker.StateHalfOpen.
Proof.
  destruct (GetBreakerStatus_probes
              (Mock.withPlugin "1.0.0" CircuitBreaker.StateOpen 5 (3 * time.Second))
              "test-plugin" 1
              (CircuitBreaker.mk CircuitBreaker.StateOpen 5 0 Mock.breakerConfig false)
              eq_refl eq_refl)
    as (_ & open & w' & Hrun & _ & _ & Hflip).
  destruct Hflip as [Hopen Hw']; [reflexivity | vm_compute; reflexivity |].
  exists open, w'. split; [exact Hrun | split; [exact Hopen |]].
  rewrite Hw'. reflexivity.
Defined.

(** ** Loads that install *)

Lemma initAndStore_installs (w : World) (pluginName path : string)
  (cfg : PluginSpecificConfig) (plugin : Plugin) :
  Bureau.Init (bureau plugin) (InitArgs cfg) = None ->
  Manager.initAndStore pluginName path cfg plugin w
  = Ret None
      (mkWorld
         (<[pluginName := addr (fresh (dom (instances w)))]> (plugins w))
         (<[pluginName := path]> (pluginPaths w))
         (<[pluginName := addr (fresh (dom (cbs w)))]> (breakers w))
         (metrics w) (config w)
         (<[fresh (dom (instances w)) :=
              PluginInstance.mk plugin StateActive (Plugin.Version plugin)]> (instances w))
         (<[fresh (dom (cbs w)) := CircuitBreaker.New (CircuitBreaker cfg)]> (cbs w))
         (now w)
         (trace w ++ [EvInit (id plugin) (InitArgs cfg)])).
Proof.
  intros Hinit.
  unfold Manager.initAndStore, Plugin.Init, Manager.NewCircuitBreaker,
    Manager.newInstance.
  unfold_monad. simpl. rewrite Hinit. reflexivity.
Qed.

Lemma fresh_lookup_None {V} (m : gmap positive V) : m !! fresh (dom m) = None.
Proof. apply not_elem_of_dom. apply is_fresh. Qed.

Lemma LoadPluginWithConfig_first (w : World) (path : string)
  (pluginConfig : option PluginSpecificConfig) (plugin : Plugin) :
  plugins w !! getPluginNameFromPath path = None ->
  Manager.LoadPluginWithConfig path pluginConfig (inl plugin) w
  = Manager.initAndStore (getPluginNameFromPath path) path
      (default (DefaultPluginConfig (config w)) pluginConfig) plugin w.
Proof.
  intros Hnone. unfold Manager.LoadPluginWithConfig. unfold_monad.
  rewrite Hnone. reflexivity.
Qed.

Lemma LoadPluginWithConfig_upgrade (w : World) (path : string)
  (pluginConfig : option PluginSpecificConfig) (plugin : Plugin)
  (l : positive) (old : PluginInstance.t) :
  plugins w !! getPluginNameFromPath path = Some (addr l) ->
  instances w !! l = Some old ->
  isHigherVersion (Plugin.Version plugin) (PluginInstance.version old) = Some true ->
  Manager.LoadPluginWithConfig path pluginConfig (inl plugin) w
  = Manager.initAndStore (getPluginNameFromPath path) path
      (default (DefaultPluginConfig (config w)) pluginConfig) plugin
      (set_instances
         (insert l (PluginInstance.mk (PluginInstance.Plugin old) StateDeprecated
                      (PluginInstance.version old))) w).
Proof.
  intros Hp Hi Hv. unfold Manager.LoadPluginWithConfig. unfold_monad.
  rewrite Hp. unfold Manager.deref, Manager.setState, Manager.deref.
  unfold_monad. rewrite Hi, Hv, Hi. reflexivity.
Qed.

(** A load that installs: the name has no current instance, or the
    comparison ranks the module higher than the current one, and [Init]
    succeeds.  The load returns nil; the name's entries in the three maps
    are a new Active instance of the module, the path, and a new Closed
    breaker with the counter at zero and the configuration given (the
    default one when none is given); [Init] with the configured arguments
    is the only call into plugin code, so a replaced instance is not freed;
    metrics, clock and the breakers already there are untouched. *)
Theorem LoadPluginWithConfig_installs (w : World) (path : string)
  (pluginConfig : option PluginSpecificConfig) (plugin : Plugin) :
  let pluginName := getPluginNameFromPath path in
  let cfg := default (DefaultPluginConfig (config w)) pluginConfig in
  (plugins w !! pluginName = None \/
   exists l old,
     plugins w !! pluginName = Some (addr l) /\ instances w !! l = Some old /\
     isHigherVersion (Plugin.Version plugin) (PluginInstance.version old) = Some true) ->
  Bureau.Init (bureau plugin) (InitArgs cfg) = None ->
  exists li lb w',
    Manager.LoadPluginWithConfig path pluginConfig (inl plugin) w = Ret None w' /\
    instances w !! li = None /\ cbs w !! lb = None /\
    plugins w' = <[pluginName := addr li]> (plugins w) /\
    pluginPaths w' = <[pluginName := path]> (pluginPaths w) /\
    breakers w' = <[pluginName := addr lb]> (breakers w) /\
    instances w' !! li
    = Some (PluginInstance.mk plugin StateActive (Plugin.Version plugin)) /\
    cbs w' = <[lb := CircuitBreaker.New (CircuitBreaker cfg)]> (cbs w) /\
    trace w' = trace w ++ [EvInit (id plugin) (InitArgs cfg)] /\
    metrics w' = metrics w /\ now w' = now w.
Proof.
  intros pluginName cfg Hcur Hinit.
  unfold Manager.LoadPluginWithConfig. unfold_monad. fold pluginName. fold cfg.
  destruct Hcur as [Hnone | (l & old & Hp & Hi & Hv)].
  - rewrite Hnone. rewrite (initAndStore_installs _ _ _ _ _ Hinit).
    eexists _, _, _. split; [reflexivity |]. simpl.
    rewrite !lookup_insert_eq, !fresh_lookup_None. repeat split.
  - rewrite Hp. unfold Manager.deref, Manager.setState, Manager.deref.
    unfold_monad. rewrite Hi, Hv, Hi.
    set (w1 := set_instances _ w).
    assert (Hinit1 : Bureau.Init (bureau plugin) (InitArgs cfg) = None) by exact Hinit.
    rewrite (initAndStore_installs w1 _ _ _ _ Hinit1).
    eexists _, _, _. split; [reflexivity |]. simpl.
    rewrite !lookup_insert_eq, fresh_lookup_None.
    repeat split.
    apply not_elem_of_dom.
    pose proof (is_fresh (dom (<[l := PluginInstance.mk (PluginInstance.Plugin old)
                                      StateDeprecated (PluginInstance.version old)]>
                                (instances w)))) as Hfresh.
    intros Hin. apply Hfresh. rewrite dom_insert_L. set_solver.
Qed.

Lemma LoadPluginWithConfig_installs_witness :
  exists li lb w',
    Manager.LoadPluginWithConfig "/plugins/test-plugin.so" None
      (inl (Mock.NewMockPlugin 2 "2.0.0" Mock.mockFuncs))
      (Mock.withPlugin "1.0.0" CircuitBreaker.StateOpen 5 0)
    = Ret None w' /\
    plugins w' !! "test-plugin" = Some (addr li) /\
    breakers w' !! "test-plugin" = Some (addr lb) /\
    cbs w' !! lb = Some (CircuitBreaker.New Mock.breakerConfig).
Proof.
  destruct (LoadPluginWithConfig_installs
              (Mock.withPlugin "1.0.0" CircuitBreaker.StateOpen 5 0)
              "/plugins/test-plugin.so" None
              (Mock.NewMockPlugin 2 "2.0.0" Mock.mockFuncs))
    as (li & lb & w' & Hrun & _ & _ & Hp & _ & Hb & _ & Hc & _).
  - right. exists 1%positive, (PluginInstance.mk (Mock.NewMockPlugin 1 "1.0.0" Mock.mockFuncs)
                          StateActive "1.0.0").
    repeat split; reflexivity.
  - reflexivity.
  - exists li, lb, w'. split; [exact Hrun |].
    rewrite Hp, Hb, Hc, !lookup_insert_eq. repeat split.
Defined.

(** A call of a function of a plugin whose breaker is Closed, when the
    function succeeds. *)
Lemma Call_through_Closed (w : World) (pluginName funcName : string)
  (args : list Value) (q l : positive) (inst : PluginInstance.t)
  (cb : CircuitBreaker.t) (fn : InvokeFunc) (result : Value) (took : Z) :
  plugins w !! pluginName = Some (addr q) ->
  instances w !! q = Some inst ->
  breakers w !! pluginName = Some (addr l) ->
  cbs w !! l = Some cb ->
  CircuitBreaker.state cb = CircuitBreaker.StateClosed ->
  funcs (PluginInstance.Plugin inst) !! funcName = Some fn ->
  fn args = (result, None, took) ->
  Manager.Call pluginName funcName args w
  = Ret (result, None)
      (set_metrics
         (fun m => if PluginMetrics.enabled m
                   then PluginMetrics.RecordMetric pluginName funcName
                          (time.Since (now w + took) (now w)) m
                   else m)
         (set_now (fun t => t + took)
            (set_trace
               (fun t => t ++ [EvInvoke (id (PluginInstance.Plugin inst)) funcName args])
               w))).
Proof.
  intros Hp Hi Hb Hcb Hs Hf Hfn.
  unfold Manager.Call, Manager.Allow, Manager.RecordSuccess,
    Manager.assertBreaker, Manager.onBreaker, Manager.deref, Plugin.Call.
  unfold_monad. rewrite Hp, Hb. cbn [isNil]. rewrite Hcb.
  unfold CircuitBreaker.Allow. rewrite Hs.
  change (CircuitBreaker.StateClosed =? CircuitBreaker.StateClosed) with true.
  cbv beta iota zeta. cbn [negb instances set_cbs]. rewrite Hi.
  cbv beta iota zeta. unfold InvokeFunc in *. rewrite Hf, Hfn. cbv beta iota zeta.
  cbn [cbs set_cbs set_now set_trace]. rewrite lookup_insert_eq.
  unfold CircuitBreaker.RecordSuccess. rewrite Hs.
  change (CircuitBreaker.StateClosed =? CircuitBreaker.StateHalfOpen) with false.
  cbv beta iota zeta. unfold PluginMetrics.IsEnabled.
  cbn [metrics set_cbs set_now set_trace now cbs].
  rewrite (set_cbs_same _ _ _ Hcb).
  rewrite set_cbs_same by exact Hcb.
  destruct (PluginMetrics.enabled (metrics w)) eqn:He;
    unfold set_metrics, set_now, set_trace;
    cbn -[time.Since PluginMetrics.RecordMetric];
    rewrite ?He; reflexivity.
Qed.

(** A load that installs, then a call.  The call reaches the function of
    the module just loaded and returns its result, also when the breaker
    of the replaced version was Open: the new breaker lets it through. *)
Theorem Call_after_load (w : World) (path : string)
  (pluginConfig : option PluginSpecificConfig) (plugin : Plugin)
  (funcName : string) (args : list Value) (fn : InvokeFunc) (result : Value) (took : Z) :
  let pluginName := getPluginNameFromPath path in
  let cfg := default (DefaultPluginConfig (config w)) pluginConfig in
  (plugins w !! pluginName = None \/
   exists l old,
     plugins w !! pluginName = Some (addr l) /\ instances w !! l = Some old /\
     isHigherVersion (Plugin.Version plugin) (PluginInstance.version old) = Some true) ->
  Bureau.Init (bureau plugin) (InitArgs cfg) = None ->
  funcs plugin !! funcName = Some fn ->
  fn args = (result, None, took) ->
  exists w' w'',
    Manager.LoadPluginWithConfig path pluginConfig (inl plugin) w = Ret None w' /\
    Manager.Call pluginName funcName args w' = Ret (result, None) w'' /\
    trace w''
    = trace w ++ [EvInit (id plugin) (InitArgs cfg); EvInvoke (id plugin) funcName args].
Proof.
  intros pluginName cfg Hcur Hinit Hf Hfn.
  destruct Hcur as [Hnone | (l & old & Hp & Hi & Hv)].
  - rewrite (LoadPluginWithConfig_first _ _ _ _ Hnone).
    fold pluginName cfg. rewrite (initAndStore_installs _ _ _ _ _ Hinit).
    eexists _, _. split; [reflexivity |]. split.
    + eapply (Call_through_Closed _ pluginName funcName args
                (fresh (dom (instances w))) (fresh (dom (cbs w))) _
                (CircuitBreaker.New (CircuitBreaker cfg)) fn result took);
        try (cbn [plugins breakers instances cbs]; apply lookup_insert_eq);
        first [reflexivity | assumption].
    + simpl. rewrite <- app_assoc. reflexivity.
  - rewrite (LoadPluginWithConfig_upgrade _ _ _ _ _ _ Hp Hi Hv).
    fold pluginName cfg.
    set (w1 := set_instances _ w).
    assert (Hinit1 : Bureau.Init (bureau plugin) (InitArgs cfg) = None) by exact Hinit.
    rewrite (initAndStore_installs w1 _ _ _ _ Hinit1).
    eexists _, _. split; [reflexivity |]. split.
    + eapply (Call_through_Closed _ pluginName funcName args
                (fresh (dom (instances w1))) (fresh (dom (cbs w1))) _
                (CircuitBreaker.New (CircuitBreaker cfg)) fn result took);
        try (cbn [plugins breakers instances cbs]; apply lookup_insert_eq);
        first [reflexivity | assumption].
    + simpl. rewrite <- app_assoc. reflexivity.
Qed.

Lemma Call_after_load_witness :
  exists w' w'',
    Manager.LoadPluginWithConfig "/plugins/test-plugin.so" None
      (inl (Mock.NewMockPlugin 2 "2.0.0" Mock.mockFuncs))
      (Mock.withPlugin "1.0.0" CircuitBreaker.StateOpen 5 0)
    = Ret None w' /\
    Manager.Call "test-plugin" "TestFunc" [] w' = Ret (VStr "test result", None) w'' /\
    trace w'' = [EvInit 2 []; EvInvoke 2 "TestFunc" []].
Proof.
  apply (Call_after_load (Mock.withPlugin "1.0.0" CircuitBreaker.StateOpen 5 0)
           "/plugins/test-plugin.so" None
           (Mock.NewMockPlugin 2 "2.0.0" Mock.mockFuncs)
           "TestFunc" [] Mock.TestFunc (VStr "test result") (3 * time.Millisecond)).
  - right. exists 1%positive, (PluginInstance.mk (Mock.NewMockPlugin 1 "1.0.0" Mock.mockFuncs)
                          StateActive "1.0.0").
    repeat split; reflexivity.
  - reflexivity.
  - reflexivity.
  - reflexivity.
Defined.

(** ** More on shutdown *)

Lemma alter_as_insert (h : gmap positive CircuitBreaker.t) l cb f :
  h !! l = Some cb -> alter f l h = <[l := f cb]> h.
Proof.
  intros H. apply map_eq. intros l'.
  destruct (decide (l = l')) as [<- | Hne].
  - rewrite lookup_alter_eq, lookup_insert_eq, H. reflexivity.
  - rewrite lookup_alter_ne, lookup_insert_ne by assumption. reflexivity.
Qed.

Lemma closedBreakers_is_Some bs : forall h l,
  is_Some (closedBreakers bs h !! l) <-> is_Some (h !! l).
Proof.
  induction bs as [| [name b] rest IH]; intros h l; [reflexivity |].
  unfold closedBreakers in *. simpl. rewrite IH.
  destruct b as [| l0]; [reflexivity |].
  destruct (decide (l0 = l)) as [<- | Hne].
  - rewrite lookup_alter_eq. destruct (h !! l0); simpl; split; intros [? ?]; eauto;
      discriminate.
  - rewrite lookup_alter_ne by assumption. reflexivity.
Qed.

(** The loop over the breakers map, exactly. *)
Lemma closeBreakers_run (bs : list (string * ptr)) : forall w,
  Forall (fun e : string * ptr => e.2 = nil \/ is_Some (breakerAt (cbs w) e.2)) bs ->
  forEach bs (fun '(name, breaker) =>
    if isNil breaker then mret tt
    else Manager.onBreaker breaker (fun cb => (CircuitBreaker.Close cb, tt))) w
  = Ret tt (set_cbs (closedBreakers bs) w).
Proof.
  induction bs as [| [name b] rest IH]; intros w Hlive.
  - simpl. unfold_monad. unfold set_cbs, closedBreakers. simpl.
    rewrite World_eta. reflexivity.
  - apply Forall_cons in Hlive as [Hb Hrest]. simpl in Hb.
    simpl. unfold_monad.
    destruct b as [| l]; simpl.
    + rewrite (IH w Hrest). reflexivity.
    + destruct Hb as [Hb | [cb Hcb]]; [discriminate |]. simpl in Hcb.
      rewrite Hcb. simpl.
      set (w0 := set_cbs _ w).
      rewrite (IH w0).
      * subst w0. unfold set_cbs, closedBreakers. simpl.
        rewrite (alter_as_insert _ _ _ _ Hcb). reflexivity.
      * eapply Forall_impl; [exact Hrest |].
        intros [n' b'] [Hnil | Hsome]; [left; exact Hnil | right].
        destruct b' as [| l']; simpl in *; [exact Hsome |].
        destruct (decide (l = l')) as [<- | Hne].
        -- rewrite lookup_insert_eq. eauto.
        -- rewrite lookup_insert_ne by assumption. exact Hsome.
Qed.

Lemma closedBreakers_lookup_in bs : forall h l cb,
  addr l ∈ bs.*2 -> h !! l = Some cb ->
  closedBreakers bs h !! l = Some (CircuitBreaker.set_done true cb).
Proof.
  induction bs as [| [name b] rest IH] using rev_ind; intros h l cb Hin Hl.
  - apply elem_of_nil in Hin. contradiction.
  - unfold closedBreakers in *. rewrite foldl_app. simpl.
    rewrite fmap_app in Hin. apply elem_of_app in Hin as [Hin | Hin].
    + specialize (IH h l cb Hin Hl).
      destruct b as [| l0]; [exact IH |].
      destruct (decide (l0 = l)) as [<- | Hne].
      * rewrite lookup_alter_eq, IH. reflexivity.
      * rewrite lookup_alter_ne by assumption. exact IH.
    + simpl in Hin. apply list_elem_of_singleton in Hin. subst b.
      rewrite lookup_alter_eq.
      destruct (decide (addr l ∈ rest.*2)) as [Hr | Hr].
      * rewrite (IH h l cb Hr Hl). reflexivity.
      * assert (Hsame : foldl (fun h0 (e : string * ptr) =>
                   match e.2 with
                   | addr l0 => alter (CircuitBreaker.set_done true) l0 h0
                   | nil => h0
                   end) h rest !! l = h !! l).
        { clear IH Hl. revert h. induction rest as [| [n b] r IHr]; intros h;
            [reflexivity |].
          simpl. rewrite IHr.
          - destruct b as [| l0]; [reflexivity |].
            rewrite lookup_alter_ne; [reflexivity |].
            intros ->. apply Hr. simpl. left.
          - intros Hin. apply Hr. simpl. right. exact Hin. }
        rewrite Hsame, Hl. reflexivity.
Qed.

Lemma closedBreakers_lookup_out bs : forall h l,
  addr l ∉ bs.*2 -> closedBreakers bs h !! l = h !! l.
Proof.
  induction bs as [| [n b] r IH]; intros h l Hout; [reflexivity |].
  unfold closedBreakers in *. simpl. rewrite IH.
  - destruct b as [| l0]; [reflexivity |].
    rewrite lookup_alter_ne; [reflexivity |].
    intros ->. apply Hout. simpl. left.
  - intros Hin. apply Hout. simpl. right. exact Hin.
Qed.

(** [Close], exactly, on a well-formed manager. *)
Lemma Close_run (w : World) :
  wellFormed w ->
  let entries := map_to_list (plugins w) in
  let errs := freeErrors (instances w) entries in
  Manager.Close w
  = Ret (if (0 <? length errs)%nat
         then Some (Errorf "errors during cleanup: %v" errs) else None)
      (set_plugins (fun _ => ∅)
         (set_trace (fun t => t ++ freeEvents (instances w) entries)
            (set_now (fun t => t + 100 * time.Millisecond)
               (set_cbs (closedBreakers (map_to_list (breakers w))) w)))).
Proof.
  intros [Hlive Hbreakers] entries errs.
  unfold Manager.Close. unfold_monad.
  rewrite closeBreakers_run.
  2:{ apply Forall_forall. intros [name b] Hin.
      apply elem_of_map_to_list in Hin. simpl. eapply Hbreakers, Hin. }
  cbn [plugins set_cbs set_now]. fold entries.
  rewrite freePlugins_spec.
  2:{ apply Forall_forall. intros [name p] Hin.
      apply elem_of_map_to_list in Hin. simpl. eapply Hlive, Hin. }
  cbn [instances set_cbs set_now app]. fold errs.
  unfold set_plugins at 1. cbn [plugins set_trace set_now set_cbs].
  subst entries. rewrite delete_all_entries.
  destruct (0 <? length errs)%nat; reflexivity.
Qed.

(** What [Close] leaves alone and what it does to the breakers.  On a
    well-formed manager it frees registered instances only and makes no
    other call into plugin code, so an instance that an upgrade replaced is
    never freed; it keeps the path map, the breakers map, the metrics and
    the instances; and every breaker the breakers map refers to is marked
    closed with its state and counter as they were, the other breakers
    staying as they are. *)
Theorem Close_frame (w : World) :
  wellFormed w ->
  exists err w',
    Manager.Close w = Ret err w' /\
    pluginPaths w' = pluginPaths w /\ breakers w' = breakers w /\
    metrics w' = metrics w /\ instances w' = instances w /\
    (exists events,
       trace w' = trace w ++ events /\
       forall ev, ev ∈ events ->
         exists name p inst,
           plugins w !! name = Some p /\ instanceAt (instances w) p = Some inst /\
           ev = EvFree (id (PluginInstance.Plugin inst))) /\
    (forall name l cb,
       breakers w !! name = Some (addr l) -> cbs w !! l = Some cb ->
       cbs w' !! l = Some (CircuitBreaker.set_done true cb)) /\
    (forall l, (forall name, breakers w !! name <> Some (addr l)) ->
       cbs w' !! l = cbs w !! l).
Proof.
  intros Hwf. rewrite (Close_run w Hwf). cbv zeta.
  eexists _, _. split; [reflexivity |].
  cbn [pluginPaths breakers metrics instances trace cbs set_plugins set_trace
       set_now set_cbs].
  repeat split.
  - eexists. split; [reflexivity |].
    intros ev Hev. unfold freeEvents in Hev.
    apply list_elem_of_omap in Hev as ([name p] & Hin & Hsome).
    apply elem_of_map_to_list in Hin. simpl in Hsome.
    destruct (instanceAt (instances w) p) as [inst |] eqn:Hinst;
      simpl in Hsome; [| discriminate].
    injection Hsome as <-. exists name, p, inst. auto.
  - intros name l cb Hb Hcb. apply closedBreakers_lookup_in; [| exact Hcb].
    apply list_elem_of_fmap. exists (name, addr l).
    split; [reflexivity | now apply elem_of_map_to_list].
  - intros l Hout. apply closedBreakers_lookup_out.
    intros Hin. apply list_elem_of_fmap in Hin as ([name b] & Heq & Hin).
    simpl in Heq. subst b. apply elem_of_map_to_list in Hin.
    exact (Hout name Hin).
Qed.

Lemma twoPlugins_wellFormed : wellFormed Mock.twoPlugins.
Proof.
  split.
  - intros name p H. apply elem_of_map_to_list in H.
    change (map_to_list (plugins Mock.twoPlugins))
      with [("broken", addr 2); ("test-plugin", addr 1)] in H.
    rewrite !elem_of_cons, elem_of_nil in H.
    destruct H as [H | [H | []]]; injection H as -> ->; vm_compute; eauto.
  - intros name b H. apply elem_of_map_to_list in H.
    change (map_to_list (breakers Mock.twoPlugins))
      with [("broken", nil); ("test-plugin", addr 1)] in H.
    rewrite !elem_of_cons, elem_of_nil in H.
    destruct H as [H | [H | []]]; injection H as -> ->;
      [left; reflexivity | right; vm_compute; eauto].
Qed.

Lemma Close_frame_witness :
  exists err w',
    Manager.Close Mock.twoPlugins = Ret err w' /\
    breakers w' = breakers Mock.twoPlugins /\
    cbs w' !! 1%positive = Some (CircuitBreaker.mk 0 0 0 Mock.breakerConfig true).
Proof.
  destruct (Close_frame Mock.twoPlugins twoPlugins_wellFormed)
    as (err & w' & Hrun & _ & Hb & _ & _ & _ & Hclosed & _).
  exists err, w'. split; [exact Hrun | split; [exact Hb |]].
  apply (Hclosed "test-plugin" 1%positive
           (CircuitBreaker.mk 0 0 0 Mock.breakerConfig false)); reflexivity.
Defined.

(** After [Close].  On a well-formed manager: every [Call] returns the
    plugin-not-found error and changes nothing, whatever the name; and a
    second [Close] returns nil and frees nothing again, so that no instance
    is freed twice. *)
Theorem Close_then_nothing_left (w : World) :
  wellFormed w ->
  exists err w',
    Manager.Close w = Ret err w' /\
    (forall pluginName funcName args,
       Manager.Call pluginName funcName args w'
       = Ret (VNil, Some (ErrPluginNotFound pluginName)) w') /\
    exists w'',
      Manager.Close w' = Ret None w'' /\ trace w'' = trace w'.
Proof.
  intros Hwf. rewrite (Close_run w Hwf). cbv zeta.
  eexists _, _. split; [reflexivity |].
  set (w' := set_plugins _ _).
  assert (Hempty : plugins w' = ∅) by reflexivity.
  split.
  - intros pluginName funcName args. unfold Manager.Call. unfold_monad.
    rewrite Hempty, lookup_empty. reflexivity.
  - assert (Hwf' : wellFormed w').
    { split.
      - intros name p H. rewrite Hempty, lookup_empty in H. discriminate.
      - intros name b H. change (breakers w') with (breakers w) in H.
        destruct Hwf as [_ Hb]. destruct (Hb name b H) as [Hnil | Hsome];
          [left; exact Hnil | right].
        destruct b as [| l]; simpl in *; [exact Hsome |].
        apply closedBreakers_is_Some. exact Hsome. }
    rewrite (Close_run w' Hwf'). cbv zeta.
    rewrite Hempty, map_to_list_empty.
    eexists. split; [reflexivity |].
    simpl. apply app_nil_r.
Qed.

Lemma Close_then_nothing_left_witness :
  exists err w',
    Manager.Close Mock.twoPlugins = Ret err w' /\
    Manager.Call "test-plugin" "TestFunc" [] w'
    = Ret (VNil, Some (ErrPluginNotFound "test-plugin")) w'.
Proof.
  destruct (Close_then_nothing_left Mock.twoPlugins twoPlugins_wellFormed)
    as (err & w' & Hrun & Hcall & _).
  exists err, w'. split; [exact Hrun | apply Hcall].
Defined.

(** ** Listing *)

Lemma listEntries_run entries : forall acc w,
  Forall (fun e : string * ptr => is_Some (instanceAt (instances w) e.2)) entries ->
  Manager.listEntries entries acc w
  = Ret (acc ++ omap (fun e : string * ptr =>
                        inst ← instanceAt (instances w) e.2;
                        Some (PluginInfo.mk e.1 (PluginInstance.version inst)
                                (PluginInstance.state inst) 0 ""))
                     entries) w.
Proof.
  induction entries as [| [name p] rest IH]; intros acc w Hlive.
  - simpl. unfold_monad. rewrite app_nil_r. reflexivity.
  - apply Forall_cons in Hlive as [[inst Hinst] Hrest]. simpl in Hinst.
    simpl. unfold Manager.deref. unfold_monad.
    destruct p as [| l]; simpl in Hinst; [discriminate |].
    rewrite Hinst. rewrite (IH _ w Hrest). simpl. rewrite Hinst. simpl.
    rewrite <- app_assoc. reflexivity.
Qed.

(** [ListPlugins] on a manager without nil instances: it changes nothing
    and lists each registered name once, with the version and the state of
    the name's current instance; instances replaced by an upgrade are not
    listed, and [RefCount] and [Path] are zero and empty in every entry,
    whatever the reference count of the plugin and the path it was loaded
    from. *)
Theorem ListPlugins_lists_current (w : World) :
  (forall name p, plugins w !! name = Some p -> is_Some (instanceAt (instances w) p)) ->
  exists infos,
    Manager.ListPlugins w = Ret infos w /\
    NoDup (PluginInfo.Name <$> infos) /\
    length infos = size (plugins w) /\
    (forall info, info ∈ infos ->
       PluginInfo.RefCount info = 0 /\ PluginInfo.Path info = "") /\
    (forall name version state,
       PluginInfo.mk name version state 0 "" ∈ infos <->
       exists p inst,
         plugins w !! name = Some p /\ instanceAt (instances w) p = Some inst /\
         PluginInstance.version inst = version /\ PluginInstance.state inst = state).
Proof.
  intros Hlive.
  assert (Hentries : Forall (fun e : string * ptr =>
            is_Some (instanceAt (instances w) e.2)) (map_to_list (plugins w))).
  { apply Forall_forall. intros [name p] Hin.
    apply elem_of_map_to_list in Hin. simpl. eapply Hlive, Hin. }
  unfold Manager.ListPlugins. unfold_monad.
  rewrite (listEntries_run _ _ _ Hentries). simpl.
  eexists. split; [reflexivity |].
  set (f := fun e : string * ptr =>
              inst ← instanceAt (instances w) e.2;
              Some (PluginInfo.mk e.1 (PluginInstance.version inst)
                      (PluginInstance.state inst) 0 "")).
  assert (Hnames : PluginInfo.Name <$> omap f (map_to_list (plugins w))
                   = (map_to_list (plugins w)).*1).
  { revert Hentries. generalize (map_to_list (plugins w)).
    induction l as [| [name p] rest IH]; intros Hl; [reflexivity |].
    apply Forall_cons in Hl as [[inst Hinst] Hrest]. simpl in Hinst.
    simpl. unfold f at 1. simpl. rewrite Hinst. simpl. f_equal. apply IH, Hrest. }
  repeat split.
  - rewrite Hnames. apply NoDup_fst_map_to_list.
  - rewrite <- (length_fmap PluginInfo.Name), Hnames, length_fmap.
    apply length_map_to_list.
  - apply list_elem_of_omap in H as ([name p] & _ & Hf). unfold f in Hf.
    simpl in Hf. destruct (instanceAt (instances w) p); simpl in Hf; [| discriminate].
    injection Hf as <-. reflexivity.
  - apply list_elem_of_omap in H as ([name p] & _ & Hf). unfold f in Hf.
    simpl in Hf. destruct (instanceAt (instances w) p); simpl in Hf; [| discriminate].
    injection Hf as <-. reflexivity.
  - intros Hin. apply list_elem_of_omap in Hin as ([name' p] & Hin & Hf).
    apply elem_of_map_to_list in Hin. unfold f in Hf. simpl in Hf.
    destruct (instanceAt (instances w) p) as [inst |] eqn:Hinst; simpl in Hf;
      [| discriminate].
    injection Hf as -> <- <-. exists p, inst. auto.
  - intros (p & inst & Hp & Hinst & <- & <-).
    apply list_elem_of_omap. exists (name, p).
    split; [now apply elem_of_map_to_list |].
    unfold f. simpl. rewrite Hinst. reflexivity.
Qed.

Lemma ListPlugins_lists_current_witness :
  exists infos,
    Manager.ListPlugins Mock.twoPlugins = Ret infos Mock.twoPlugins /\
    PluginInfo.mk "test-plugin" "1.0.0" StateActive 0 "" ∈ infos.
Proof.
  destruct (ListPlugins_lists_current Mock.twoPlugins (proj1 twoPlugins_wellFormed))
    as (infos & Hrun & _ & _ & _ & Hlist).
  exists infos. split; [exact Hrun |].
  apply Hlist.
  exists (addr 1), (PluginInstance.mk (Mock.NewMockPlugin 1 "1.0.0" Mock.mockFuncs)
                      StateActive "1.0.0").
  repeat split.
Defined.

(** ** More on metrics *)

Lemma length_le_sumZ (ds : list Z) :
  Forall (fun d => 0 < d) ds -> 0 <= Z.of_nat (length ds) <= sumZ ds.
Proof.
  induction 1 as [| d ds Hd _ IH]; simpl; [lia |].
  change (sumZ (d :: ds)) with (d + sumZ ds). lia.
Qed.

Lemma recordAll_next pluginName funcName (ds : list Z) : forall m mm,
  PluginMetrics.enabled m = true ->
  methodMetrics m pluginName funcName = Some mm ->
  Forall (fun d => 0 < d) ds ->
  0 < PluginMetrics.MinTime mm ->
  0 <= PluginMetrics.Count mm -> 0 <= PluginMetrics.TotalTime mm ->
  PluginMetrics.Count mm + Z.of_nat (length ds) < 2 ^ 63 ->
  PluginMetrics.TotalTime mm + sumZ ds < 2 ^ 63 ->
  methodMetrics (recordAll pluginName funcName ds m) pluginName funcName
  = Some (PluginMetrics.mkMethodMetrics
            (PluginMetrics.Count mm + Z.of_nat (length ds))
            (PluginMetrics.TotalTime mm + sumZ ds)
            (foldl Z.min (PluginMetrics.MinTime mm) ds)
            (foldl Z.max (PluginMetrics.MaxTime mm) ds)).
Proof.
  induction ds as [| d ds IH]; intros m mm He Hmm Hpos Hmin Hc Ht Hcount Hsum.
  - simpl. rewrite Hmm, !Z.add_0_r. destruct mm; reflexivity.
  - apply Forall_cons in Hpos as [Hd Hpos].
    pose proof (length_le_sumZ ds Hpos) as Hlen.
    change (sumZ (d :: ds)) with (d + sumZ ds) in *.
    cbn [length] in Hcount |- *. rewrite Nat2Z.inj_succ in Hcount |- *.
    destruct (RecordMetric_next pluginName funcName d m mm He Hmm) as [He1 H1].
    cbn [recordAll foldl]. fold (recordAll pluginName funcName ds
      (PluginMetrics.RecordMetric pluginName funcName d m)).
    rewrite (IH _ _ He1 H1 Hpos); cbn [PluginMetrics.Count PluginMetrics.TotalTime
      PluginMetrics.MinTime PluginMetrics.MaxTime];
      rewrite ?int64_small by (change (2 ^ 63) with 9223372036854775808 in *; lia);
      try lia.
    + f_equal. f_equal; try lia.
      * f_equal. destruct (Z.eqb_spec (PluginMetrics.MinTime mm) 0); [lia |].
        destruct (Z.ltb_spec d (PluginMetrics.MinTime mm)); simpl; lia.
      * f_equal. destruct (Z.gtb_spec d (PluginMetrics.MaxTime mm)); lia.
    + destruct (Z.eqb_spec (PluginMetrics.MinTime mm) 0); [lia |].
      destruct (Z.ltb_spec d (PluginMetrics.MinTime mm)); simpl; lia.
Qed.

(** The statistics of a function.  On an enabled collector without metrics
    for the function, after samples of positive durations whose sum fits
    64 bits: the count is the number of samples, the total their sum, and
    the minimum and the maximum the least and the greatest of them. *)
Theorem recordAll_statistics (m : PluginMetrics.t) (pluginName funcName : string)
  (d : Z) (ds : list Z) :
  PluginMetrics.enabled m = true ->
  methodMetrics m pluginName funcName = None ->
  Forall (fun d => 0 < d) (d :: ds) ->
  sumZ (d :: ds) < 2 ^ 63 ->
  methodMetrics (recordAll pluginName funcName (d :: ds) m) pluginName funcName
  = Some (PluginMetrics.mkMethodMetrics
            (Z.of_nat (length (d :: ds))) (sumZ (d :: ds))
            (foldl Z.min d ds) (foldl Z.max d ds)).
Proof.
  intros He Hnone Hpos Hsum.
  apply Forall_cons in Hpos as [Hd Hpos].
  pose proof (length_le_sumZ ds Hpos) as Hlen.
  change (sumZ (d :: ds)) with (d + sumZ ds) in *.
  destruct (RecordMetric_first pluginName funcName d m He Hnone) as [He1 H1];
    [change (2 ^ 63) with 9223372036854775808 in *; lia |].
  cbn [recordAll foldl]. fold (recordAll pluginName funcName ds
    (PluginMetrics.RecordMetric pluginName funcName d m)).
  rewrite (recordAll_next _ _ ds _ _ He1 H1 Hpos);
    cbn [PluginMetrics.Count PluginMetrics.TotalTime PluginMetrics.MinTime
         PluginMetrics.MaxTime]; try lia.
  rewrite Z.max_r by lia. cbn [length]. rewrite Nat2Z.inj_succ.
  f_equal. f_equal. lia.
Qed.

Lemma recordAll_statistics_witness :
  methodMetrics
    (recordAll "test-plugin" "TestFunc" [7; 3; 12; 3] (PluginMetrics.NewPluginMetrics true))
    "test-plugin" "TestFunc"
  = Some (PluginMetrics.mkMethodMetrics 4 25 3 12).
Proof.
  apply (recordAll_statistics (PluginMetrics.NewPluginMetrics true)
           "test-plugin" "TestFunc" 7 [3; 12; 3]).
  - reflexivity.
  - reflexivity.
  - repeat constructor.
  - reflexivity.
Defined.

(** A sample touches the metrics of its own function only: those of every
    other function, of this or of another plugin, are as before. *)
Theorem RecordMetric_frame (m : PluginMetrics.t) (pluginName funcName : string)
  (d : Z) (otherPlugin otherFunc : string) :
  (otherPlugin, otherFunc) <> (pluginName, funcName) ->
  methodMetrics (PluginMetrics.RecordMetric pluginName funcName d m) otherPlugin otherFunc
  = methodMetrics m otherPlugin otherFunc /\
  PluginMetrics.enabled (PluginMetrics.RecordMetric pluginName funcName d m)
  = PluginMetrics.enabled m.
Proof.
  intros Hne. unfold methodMetrics, PluginMetrics.RecordMetric.
  destruct (PluginMetrics.enabled m) eqn:He; simpl; [| split; [reflexivity | exact He]].
  split; [| reflexivity].
  destruct (decide (pluginName = otherPlugin)) as [<- | Hp].
  - rewrite lookup_insert_eq. simpl.
    rewrite lookup_insert_ne by congruence.
    destruct (PluginMetrics.plugins m !! pluginName); simpl; [reflexivity |].
    apply lookup_empty.
  - rewrite lookup_insert_ne by assumption. reflexivity.
Qed.

Lemma RecordMetric_frame_witness :
  methodMetrics
    (PluginMetrics.RecordMetric "test-plugin" "TestFunc" 5
       (PluginMetrics.RecordMetric "test-plugin" "Other" 9
          (PluginMetrics.NewPluginMetrics true)))
    "test-plugin" "Other"
  = Some (PluginMetrics.mkMethodMetrics 1 9 9 9).
Proof.
  rewrite (proj1 (RecordMetric_frame _ "test-plugin" "TestFunc" 5 "test-plugin" "Other"
                    ltac:(discriminate))).
  reflexivity.
Defined.

Lemma forEach_delete_metrics (keys : list (string * gmap string PluginMetrics.MethodMetrics)) :
  forall w,
  forEach keys (fun e =>
    modify (set_metrics (fun m =>
      PluginMetrics.mk (delete e.1 (PluginMetrics.plugins m)) (PluginMetrics.enabled m)))) w
  = Ret tt (set_metrics (fun m =>
      PluginMetrics.mk (foldl (fun h e => delete e.1 h) (PluginMetrics.plugins m) keys)
        (PluginMetrics.enabled m)) w).
Proof.
  induction keys as [| e rest IH]; intros w.
  - simpl. unfold_monad. unfold set_metrics. simpl.
    destruct w as [? ? ? [? ?] ? ? ? ? ?]. reflexivity.
  - simpl. unfold_monad. rewrite IH. reflexivity.
Qed.

(** [ResetMetrics] empties the collector and nothing else: afterwards no
    function of any plugin has metrics, [GetMetrics] fails for every
    plugin, the enabled flag is as before, and so is the rest of the
    manager. *)
Theorem ResetMetrics_clears (w : World) :
  let w' := set_metrics (fun m => PluginMetrics.mk ∅ (PluginMetrics.enabled m)) w in
  Manager.ResetMetrics w = Ret tt w' /\
  (forall pluginName funcName, methodMetrics (metrics w') pluginName funcName = None) /\
  (forall pluginName, exists err,
     Manager.GetMetrics pluginName w' = Ret (inr err) w').
Proof.
  cbv zeta. repeat split.
  - unfold Manager.ResetMetrics. unfold_monad.
    rewrite forEach_delete_metrics. unfold set_metrics.
    rewrite delete_all_entries. reflexivity.
  - intros pluginName. unfold Manager.GetMetrics, PluginMetrics.GetPluginMetrics.
    unfold_monad. simpl. rewrite lookup_empty.
    destruct (PluginMetrics.enabled (metrics w)); simpl; eauto.
Qed.

(** [AddPlugin] never loses samples: the metrics of every function are as
    before; on an enabled collector the plugin's metrics can be read
    afterwards, and on a disabled one nothing changes. *)
Theorem AddPlugin_keeps_metrics (m : PluginMetrics.t) (pluginName : string) :
  (forall p f, methodMetrics (PluginMetrics.AddPlugin pluginName m) p f
               = methodMetrics m p f) /\
  PluginMetrics.enabled (PluginMetrics.AddPlugin pluginName m) = PluginMetrics.enabled m /\
  (PluginMetrics.enabled m = true ->
   exists methods,
     PluginMetrics.GetPluginMetrics pluginName (PluginMetrics.AddPlugin pluginName m)
     = inl methods) /\
  (PluginMetrics.enabled m = false -> PluginMetrics.AddPlugin pluginName m = m).
Proof.
  unfold PluginMetrics.AddPlugin, methodMetrics, PluginMetrics.GetPluginMetrics.
  destruct (PluginMetrics.enabled m) eqn:He; simpl.
  - destruct (PluginMetrics.plugins m !! pluginName) as [pm |] eqn:Hp; simpl.
    + rewrite He, Hp. simpl. repeat split; intros; eauto; discriminate.
    + rewrite lookup_insert_eq. repeat split; intros; eauto; try discriminate.
      destruct (decide (pluginName = p)) as [<- | Hne].
      * rewrite lookup_insert_eq, Hp. simpl. apply lookup_empty.
      * rewrite lookup_insert_ne by assumption. reflexivity.
  - rewrite He. repeat split; intros; eauto; discriminate.
Qed.

(** A sample of zero duration is taken for the unset minimum: after it the
    next sample becomes the minimum, whatever smaller samples came
    before. *)
Theorem RecordMetric_zero_resets_min (m : PluginMetrics.t) (pluginName funcName : string)
  (mm : PluginMetrics.MethodMetrics) (d : Z) :
  PluginMetrics.enabled m = true ->
  methodMetrics m pluginName funcName = Some mm ->
  0 < PluginMetrics.MinTime mm ->
  PluginMetrics.MinTime
    <$> methodMetrics
          (PluginMetrics.RecordMetric pluginName funcName d
             (PluginMetrics.RecordMetric pluginName funcName 0 m))
          pluginName funcName
  = Some d.
Proof.
  intros He Hmm Hmin.
  destruct (RecordMetric_next pluginName funcName 0 m mm He Hmm) as [He1 H1].
  destruct (RecordMetric_next pluginName funcName d _ _ He1 H1) as [_ H2].
  unfold methodMetrics. cbv zeta in H2. rewrite H2. simpl.
  destruct (Z.eqb_spec (PluginMetrics.MinTime mm) 0); [lia |].
  destruct (Z.ltb_spec 0 (PluginMetrics.MinTime mm)); [| lia].
  simpl. reflexivity.
Qed.

Lemma RecordMetric_zero_resets_min_witness :
  PluginMetrics.MinTime
    <$> methodMetrics
          (recordAll "test-plugin" "TestFunc" [5; 0; 7] (PluginMetrics.NewPluginMetrics true))
          "test-plugin" "TestFunc"
  = Some 7.
Proof.
  apply (RecordMetric_zero_resets_min
           (PluginMetrics.RecordMetric "test-plugin" "TestFunc" 5
              (PluginMetrics.NewPluginMetrics true))
           "test-plugin" "TestFunc" (PluginMetrics.mkMethodMetrics 1 5 5 5) 7).
  - reflexivity.
  - reflexivity.
  - reflexivity.
Defined.

(** ** Validation of the configuration *)

Lemma validatePluginSpecificConfig_None (pc : PluginSpecificConfig) :
  validatePluginSpecificConfig pc = None <-> validPluginConfig pc.
Proof.
  unfold validatePluginSpecificConfig, validPluginConfig.
  destruct (Z.ltb_spec (MaxConcurrentCalls pc) 0);
    [split; [discriminate | lia] |].
  destruct (Z.ltb_spec (PluginTimeout pc) 0);
    [split; [discriminate | lia] |].
  destruct (Enabled (CircuitBreaker pc));
    [| split; [intros _; repeat split; try lia; discriminate | reflexivity]].
  destruct (Z.leb_spec (MaxFailures (CircuitBreaker pc)) 0);
    [split; [discriminate | intros (_ & _ & H'); specialize (H' eq_refl); lia] |].
  destruct (Z.leb_spec (ResetInterval (CircuitBreaker pc)) 0);
    [split; [discriminate | intros (_ & _ & H'); specialize (H' eq_refl); lia] |].
  destruct (Z.leb_spec (TimeoutDuration (CircuitBreaker pc)) 0);
    [split; [discriminate | intros (_ & _ & H'); specialize (H' eq_refl); lia] |].
  split; [intros _; repeat split; lia | reflexivity].
Qed.

Lemma validateOverrides_None (entries : list (string * PluginSpecificConfig)) :
  validateOverrides entries = None <->
  Forall (fun e : string * PluginSpecificConfig => validPluginConfig e.2) entries.
Proof.
  induction entries as [| [name pc] rest IH]; simpl.
  - split; [constructor | reflexivity].
  - destruct (validatePluginSpecificConfig pc) eqn:E.
    + split; [discriminate |]. intros H. apply Forall_cons in H as [H _].
      apply validatePluginSpecificConfig_None in H. simpl in H. congruence.
    + rewrite IH. split.
      * intros H. constructor; [| exact H].
        apply validatePluginSpecificConfig_None. exact E.
      * intros H. apply Forall_cons in H as [_ H]. exact H.
Qed.

(** [ValidateConfig] accepts a configuration exactly when the default and
    every override are valid; the nil configuration is rejected.  The
    numbers of a breaker that is not enabled are not looked at. *)
Theorem ValidateConfig_accepts (c : Config) :
  (ValidateConfig (Some c) = None <->
   validPluginConfig (DefaultPluginConfig c) /\
   forall name pc, PluginConfigs c !! name = Some pc -> validPluginConfig pc) /\
  ValidateConfig None <> None.
Proof.
  split; [| discriminate].
  unfold ValidateConfig.
  destruct (validatePluginSpecificConfig (DefaultPluginConfig c)) eqn:E.
  - split; [discriminate |]. intros [H _].
    apply validatePluginSpecificConfig_None in H. congruence.
  - rewrite validateOverrides_None, Forall_forall.
    apply validatePluginSpecificConfig_None in E.
    split.
    + intros H. split; [exact E |]. intros name pc Hpc.
      apply (H (name, pc)). now apply elem_of_map_to_list.
    + intros [_ H] [name pc] Hin. apply elem_of_map_to_list in Hin.
      simpl. eapply H, Hin.
Qed.

(** The run-time behaviour of a breaker does not depend on [Enabled]: two
    breakers made from configurations that differ in that flag only go
    through the same states, counters and timestamps under the same
    history.  A breaker is made for every loaded plugin, so a disabled
    breaker trips like an enabled one. *)
Theorem breaker_ignores_Enabled (enabled : bool) (maxFailures resetInterval timeout : Z)
  (ops : list BreakerOp) :
  let on := applyOps ops (CircuitBreaker.New
              (mkCircuitBreakerConfig enabled maxFailures resetInterval timeout)) in
  let off := applyOps ops (CircuitBreaker.New
               (mkCircuitBreakerConfig (negb enabled) maxFailures resetInterval timeout)) in
  CircuitBreaker.state on = CircuitBreaker.state off /\
  CircuitBreaker.failures on = CircuitBreaker.failures off /\
  CircuitBreaker.lastFailure on = CircuitBreaker.lastFailure off.
Proof.
  cbv zeta. unfold applyOps.
  set (cfg := mkCircuitBreakerConfig enabled maxFailures resetInterval timeout).
  set (cfg' := mkCircuitBreakerConfig (negb enabled) maxFailures resetInterval timeout).
  assert (Hgen : forall cb cb',
    CircuitBreaker.state cb = CircuitBreaker.state cb' ->
    CircuitBreaker.failures cb = CircuitBreaker.failures cb' ->
    CircuitBreaker.lastFailure cb = CircuitBreaker.lastFailure cb' ->
    CircuitBreaker.config cb = cfg -> CircuitBreaker.config cb' = cfg' ->
    forall op,
      CircuitBreaker.state (applyOp op cb) = CircuitBreaker.state (applyOp op cb') /\
      CircuitBreaker.failures (applyOp op cb) = CircuitBreaker.failures (applyOp op cb') /\
      CircuitBreaker.lastFailure (applyOp op cb)
      = CircuitBreaker.lastFailure (applyOp op cb')).
  { intros [s f l c d] [s' f' l' c' d']. simpl. intros <- <- <- -> -> op.
    destruct op as [now | | now |];
      unfold applyOp, CircuitBreaker.Allow, CircuitBreaker.RecordSuccess,
        CircuitBreaker.RecordFailure, CircuitBreaker.resetTick, CompareAndSwap;
      cbn [CircuitBreaker.state CircuitBreaker.failures CircuitBreaker.config
           CircuitBreaker.lastFailure CircuitBreaker.set_lastFailure
           CircuitBreaker.set_failures cfg cfg' MaxFailures TimeoutDuration];
      repeat match goal with
      | |- context [if ?c then _ else _] => destruct c
      end; simpl; auto. }
  induction ops as [| op ops IH] using rev_ind.
  - simpl. auto.
  - rewrite !foldl_app. simpl.
    destruct IH as (Hs & Hf & Hl).
    apply Hgen; try assumption.
    + clear. induction ops as [| o os IHo] using rev_ind; [reflexivity |].
      rewrite foldl_app. simpl.
      destruct (applyOp_cases o (foldl (fun cb op => applyOp op cb)
                                   (CircuitBreaker.New cfg) os)) as [Hc _].
      congruence.
    + clear. induction ops as [| o os IHo] using rev_ind; [reflexivity |].
      rewrite foldl_app. simpl.
      destruct (applyOp_cases o (foldl (fun cb op => applyOp op cb)
                                   (CircuitBreaker.New cfg') os)) as [Hc _].
      congruence.
Qed.

(** ** Copies of the configuration *)

Lemma foldl_insert_empty (om : gmap string Value) :
  foldl (fun m (e : string * Value) => <[e.1 := e.2]> m) ∅ (map_to_list om) = om.
Proof. rewrite foldl_insert_union. apply (right_id_L ∅ (∪)). Qed.

Lemma clonePluginSpecificConfig_run (pc : PluginSpecificConfig) (h : OptionMaps)
  (om : gmap string Value) :
  optionsAt h (Options pc) = Some om ->
  clonePluginSpecificConfig pc h
  = Ret (withOptions pc (addr (fresh (dom h)))) (<[fresh (dom h) := om]> h).
Proof.
  intros Hom. unfold clonePluginSpecificConfig, makeMap. unfold_monad.
  cbn [Options].
  set (l := fresh (dom h)).
  assert (Hl : h !! l = None) by apply fresh_lookup_None.
  assert (Hentries : mapRange (Options pc) (<[l := ∅]> h)
                     = Ret (map_to_list om) (<[l := ∅]> h)).
  { unfold mapRange. destruct (Options pc) as [| lo]; simpl in Hom.
    - injection Hom as <-. rewrite map_to_list_empty. reflexivity.
    - rewrite lookup_insert_ne by congruence. rewrite Hom. reflexivity. }
  rewrite Hentries.
  rewrite (forEach_mapAssign _ _ l ∅) by apply lookup_insert_eq.
  rewrite foldl_insert_empty, insert_insert_eq. reflexivity.
Qed.

Lemma optionsAt_mono (h h' : OptionMaps) p om :
  h ⊆ h' -> optionsAt h p = Some om -> optionsAt h' p = Some om.
Proof.
  intros Hsub. destruct p as [| l]; simpl; [auto |].
  intros H. eapply lookup_weaken; eassumption.
Qed.

(** The loop of [Clone]: every override gets a new map with the contents of
    its own, and the maps already there stay. *)
Lemma cloneOverrides_run (entries : list (string * PluginSpecificConfig)) :
  forall acc (h0 h : OptionMaps),
  h0 ⊆ h ->
  NoDup entries.*1 ->
  Forall (fun e : string * PluginSpecificConfig =>
            is_Some (optionsAt h0 (Options e.2))) entries ->
  exists acc' h',
    cloneOverrides entries acc h = Ret acc' h' /\
    h ⊆ h' /\
    (forall name, name ∉ entries.*1 -> acc' !! name = acc !! name) /\
    (forall name pc, (name, pc) ∈ entries ->
       exists l, acc' !! name = Some (withOptions pc (addr l)) /\
                 h !! l = None /\ h' !! l = optionsAt h0 (Options pc)).
Proof.
  induction entries as [| [name pc] rest IH]; intros acc h0 h Hsub Hnd Hvalid.
  - exists acc, h. simpl. repeat split; auto.
    intros name pc Hin. apply elem_of_nil in Hin. contradiction.
  - cbn [fmap list_fmap fst] in Hnd. apply NoDup_cons in Hnd as [Hnin Hnd].
    apply Forall_cons in Hvalid as [[om Hom] Hvalid]. simpl in Hom.
    simpl. unfold_monad.
    rewrite (clonePluginSpecificConfig_run pc h om (optionsAt_mono _ _ _ _ Hsub Hom)).
    set (l := fresh (dom h)).
    assert (Hl : h !! l = None) by apply fresh_lookup_None.
    assert (Hsub1 : h ⊆ <[l := om]> h) by (apply insert_subseteq; exact Hl).
    destruct (IH (<[name := withOptions pc (addr l)]> acc) h0 (<[l := om]> h))
      as (acc' & h' & Hrun & Hsub' & Hout & Hin); [etrans; eassumption | assumption..|].
    exists acc', h'. split; [exact Hrun |].
    split; [etrans; eassumption |].
    split.
    + intros name' Hnot. rewrite Hout.
      * apply lookup_insert_ne. intros ->. apply Hnot. simpl. left.
      * intros H'. apply Hnot. simpl. right. exact H'.
    + intros name' pc' Hel. apply elem_of_cons in Hel as [Heq | Hel].
      * injection Heq as -> ->. exists l.
        rewrite (Hout name Hnin), lookup_insert_eq.
        split; [reflexivity |]. split; [exact Hl |].
        rewrite Hom. eapply lookup_weaken; [apply lookup_insert_eq | exact Hsub'].
      * destruct (Hin name' pc' Hel) as (l' & Hacc & Hfresh & Hcontent).
        exists l'. split; [exact Hacc |]. split; [| exact Hcontent].
        destruct (h !! l') as [v |] eqn:E; [| reflexivity].
        apply (lookup_weaken _ _ _ _ E) in Hsub1. congruence.
Qed.

(** [Clone] copies deeply.  When every option map of the configuration is
    in the store: the copy has the same scalar fields; the default and each
    override of the copy carry the fields of the original's with a new
    option map, at an address the store did not hold, with the contents of
    the original's map (empty for a nil map); and every map of the store is
    left as it was. *)
Theorem Clone_copies (c : Config) (h : OptionMaps) :
  is_Some (optionsAt h (Options (DefaultPluginConfig c))) ->
  (forall name pc, PluginConfigs c !! name = Some pc ->
     is_Some (optionsAt h (Options pc))) ->
  exists c' h',
    Clone c h = Ret c' h' /\
    h ⊆ h' /\
    PluginDir c' = PluginDir c /\ AllowHotReload c' = AllowHotReload c /\
    logLevel c' = logLevel c /\ EnableMetrics c' = EnableMetrics c /\
    (exists l,
       DefaultPluginConfig c' = withOptions (DefaultPluginConfig c) (addr l) /\
       h !! l = None /\
       h' !! l = optionsAt h (Options (DefaultPluginConfig c))) /\
    (forall name,
       match PluginConfigs c !! name with
       | None => PluginConfigs c' !! name = None
       | Some pc =>
         exists l, PluginConfigs c' !! name = Some (withOptions pc (addr l)) /\
                   h !! l = None /\ h' !! l = optionsAt h (Options pc)
       end).
Proof.
  intros [dm Hdm] Hvalid.
  unfold Clone. unfold_monad.
  rewrite (clonePluginSpecificConfig_run _ h dm Hdm).
  set (l := fresh (dom h)).
  assert (Hl : h !! l = None) by apply fresh_lookup_None.
  assert (Hsub1 : h ⊆ <[l := dm]> h) by (apply insert_subseteq; exact Hl).
  destruct (cloneOverrides_run (map_to_list (PluginConfigs c)) ∅ h (<[l := dm]> h))
    as (acc' & h' & Hrun & Hsub' & Hout & Hin).
  { exact Hsub1. }
  { apply NoDup_fst_map_to_list. }
  { apply Forall_forall. intros [name pc] Hel. apply elem_of_map_to_list in Hel.
    simpl. eapply Hvalid, Hel. }
  rewrite Hrun. eexists _, h'. split; [reflexivity |].
  split; [etrans; eassumption |]. cbn [PluginDir AllowHotReload logLevel EnableMetrics
    DefaultPluginConfig PluginConfigs].
  repeat split.
  - exists l. split; [reflexivity |]. split; [exact Hl |].
    rewrite Hdm. eapply lookup_weaken; [apply lookup_insert_eq | exact Hsub'].
  - intros name. destruct (PluginConfigs c !! name) as [pc |] eqn:E.
    + destruct (Hin name pc) as (l' & Hacc & Hfresh & Hcontent);
        [now apply elem_of_map_to_list |].
      exists l'. split; [exact Hacc |]. split; [| exact Hcontent].
      destruct (h !! l') as [v |] eqn:E'; [| reflexivity].
      apply (lookup_weaken _ _ _ _ E') in Hsub1. congruence.
    + rewrite Hout; [apply lookup_empty |].
      intros Hel. apply list_elem_of_fmap in Hel as ([n pc] & Heq & Hel).
      simpl in Heq. subst n. apply elem_of_map_to_list in Hel. congruence.
Qed.

Lemma Clone_copies_witness :
  exists c' h',
    Clone Mock.configWithOverride Mock.optionMaps = Ret c' h' /\
    Mock.optionMaps ⊆ h' /\
    exists l,
      DefaultPluginConfig c'
      = withOptions (DefaultPluginConfig Mock.configWithOverride) (addr l) /\
      Mock.optionMaps !! l = None /\ h' !! l = Some Mock.defaultOptions.
Proof.
  destruct (Clone_copies Mock.configWithOverride Mock.optionMaps)
    as (c' & h' & Hrun & Hsub & _ & _ & _ & _ & Hdefault & _).
  - vm_compute. eauto.
  - intros name pc H. unfold Mock.configWithOverride in H. cbn [PluginConfigs] in H.
    apply lookup_singleton_Some in H as [_ <-].
    vm_compute. eauto.
  - exists c', h'. split; [exact Hrun | split; [exact Hsub | exact Hdefault]].
Defined.

(** ** The merge writes into the default *)

Lemma mergeConfig_options (d s : PluginSpecificConfig) (h : OptionMaps)
  (l : positive) (dm sm : gmap string Value) :
  Options d = addr l -> h !! l = Some dm ->
  optionsAt h (Options s) = Some sm ->
  exists merged,
    mergeConfig d s h = Ret merged (<[l := sm ∪ dm]> h) /\ Options merged = addr l.
Proof.
  intros Hd Hdm Hsm. unfold mergeConfig.
  set (merged := if PluginTimeout s >? 0 then _ else _).
  assert (Hopt : Options merged = addr l).
  { subst merged. rewrite <- Hd.
    repeat (match goal with |- context [if ?b then _ else _] => destruct b end);
      reflexivity. }
  assert (Hentries : mapRange (Options s) h = Ret (map_to_list sm) h).
  { unfold mapRange. destruct (Options s) as [| l']; simpl in Hsm.
    - injection Hsm as <-. rewrite map_to_list_empty. reflexivity.
    - rewrite Hsm. reflexivity. }
  unfold_monad. rewrite Hentries, Hopt.
  rewrite (forEach_mapAssign _ _ _ _ Hdm), foldl_insert_union.
  exists merged. split; [reflexivity | exact Hopt].
Qed.

(** [GetPluginConfig] for a plugin with an override writes the override's
    options into the option map of the default configuration itself.  So a
    later [GetPluginConfig] for a plugin without override, which returns
    the default, carries the options of the other plugin's override. *)
Theorem GetPluginConfig_writes_default (c : Config) (pluginName other : string)
  (s : PluginSpecificConfig) (h : OptionMaps) (l : positive)
  (dm sm : gmap string Value) :
  PluginConfigs c !! pluginName = Some s ->
  PluginConfigs c !! other = None ->
  Options (DefaultPluginConfig c) = addr l ->
  h !! l = Some dm ->
  optionsAt h (Options s) = Some sm ->
  exists merged h',
    GetPluginConfig c pluginName h = Ret merged h' /\
    GetPluginConfig c other h' = Ret (DefaultPluginConfig c) h' /\
    optionsAt h' (Options (DefaultPluginConfig c)) = Some (sm ∪ dm) /\
    (forall k v, sm !! k = Some v ->
       optionsAt h' (Options (DefaultPluginConfig c)) ≫= (.!! k) = Some v).
Proof.
  intros Hs Hother Hd Hdm Hsm.
  destruct (mergeConfig_options _ s h l dm sm Hd Hdm Hsm) as (merged & Hrun & _).
  exists merged, (<[l := sm ∪ dm]> h).
  unfold GetPluginConfig. rewrite Hs, Hother, Hd. simpl.
  rewrite lookup_insert_eq. simpl.
  repeat split; try assumption.
  intros k v Hk. apply lookup_union_Some_l. exact Hk.
Qed.

Lemma GetPluginConfig_writes_default_witness :
  exists merged h',
    GetPluginConfig Mock.configWithOverride "test-plugin" Mock.optionMaps = Ret merged h' /\
    GetPluginConfig Mock.configWithOverride "other" h'
    = Ret (DefaultPluginConfig Mock.configWithOverride) h' /\
    optionsAt h' (Options (DefaultPluginConfig Mock.configWithOverride)) ≫= (.!! "debug")
    = Some (VBool true).
Proof.
  destruct (GetPluginConfig_writes_default Mock.configWithOverride "test-plugin" "other"
              Mock.overrideConfig Mock.optionMaps 1 Mock.defaultOptions Mock.overrideOptions)
    as (merged & h' & Hrun & Hother & _ & Hleak); try reflexivity.
  exists merged, h'. split; [exact Hrun | split; [exact Hother |]].
  apply Hleak. reflexivity.
Defined.

(** ** The order of versions *)

Lemma compareParts_refl (v : list string) : compareParts v v = Some false.
Proof.
  induction v as [| p rest IH]; simpl; [reflexivity |].
  rewrite Z.gtb_ltb, Z.ltb_irrefl. exact IH.
Qed.

Lemma compareParts_asym (v1 : list string) : forall v2,
  compareParts v1 v2 = Some true -> compareParts v2 v1 <> Some true.
Proof.
  induction v1 as [| p1 r1 IH]; intros [| p2 r2]; simpl; try discriminate.
  destruct (Z.gtb_spec (strconv.Atoi p1).1 (strconv.Atoi p2).1).
  - intros _. destruct (Z.gtb_spec (strconv.Atoi p2).1 (strconv.Atoi p1).1); [lia |].
    destruct (Z.ltb_spec (strconv.Atoi p2).1 (strconv.Atoi p1).1); [discriminate | lia].
  - destruct (Z.ltb_spec (strconv.Atoi p1).1 (strconv.Atoi p2).1); [discriminate |].
    intros Hrec. apply IH in Hrec.
    destruct (Z.gtb_spec (strconv.Atoi p2).1 (strconv.Atoi p1).1); [lia |].
    destruct (Z.ltb_spec (strconv.Atoi p2).1 (strconv.Atoi p1).1); [lia | exact Hrec].
Qed.

Lemma compareParts_trans (v1 : list string) : forall v2 v3,
  compareParts v1 v2 = Some true -> compareParts v2 v3 = Some true ->
  compareParts v1 v3 = Some true.
Proof.
  induction v1 as [| p1 r1 IH]; intros [| p2 r2] [| p3 r3]; simpl; try discriminate.
  destruct (Z.gtb_spec (strconv.Atoi p1).1 (strconv.Atoi p2).1);
    destruct (Z.ltb_spec (strconv.Atoi p1).1 (strconv.Atoi p2).1);
    destruct (Z.gtb_spec (strconv.Atoi p2).1 (strconv.Atoi p3).1);
    destruct (Z.ltb_spec (strconv.Atoi p2).1 (strconv.Atoi p3).1);
    destruct (Z.gtb_spec (strconv.Atoi p1).1 (strconv.Atoi p3).1);
    destruct (Z.ltb_spec (strconv.Atoi p1).1 (strconv.Atoi p3).1);
    try discriminate; try lia; try reflexivity.
  apply IH.
Qed.

(** "Higher" is a strict order on versions: no version is higher than
    itself, so loading the version that is current again never replaces
    it; no two versions are each higher than the other; and a version
    higher than one that is higher than a third is higher than the third,
    the comparison of these two not panicking. *)
Theorem isHigherVersion_strict_order :
  (forall v, isHigherVersion v v = Some false) /\
  (forall a b, isHigherVersion a b = Some true -> isHigherVersion b a <> Some true) /\
  (forall a b c,
     isHigherVersion a b = Some true -> isHigherVersion b c = Some true ->
     isHigherVersion a c = Some true).
Proof.
  unfold isHigherVersion. repeat split.
  - intros v. apply compareParts_refl.
  - intros a b. apply compareParts_asym.
  - intros a b c. apply compareParts_trans.
Qed.

Lemma compareParts_is_Some (v1 : list string) : forall v2,
  (length v1 <= length v2)%nat -> is_Some (compareParts v1 v2).
Proof.
  induction v1 as [| p1 r1 IH]; intros [| p2 r2] Hlen; simpl in *; eauto; try lia.
  destruct (_ >? _); [eauto |]. destruct (_ <? _); [eauto |].
  apply IH. lia.
Qed.

Lemma length_padTo3 (v : list string) : length (padTo3 v) = Nat.max 3 (length v).
Proof. unfold padTo3. rewrite length_app, repeat_length. lia. Qed.

(** The comparison does not panic when the new version has at most three
    parts or no more parts than the current one. *)
Theorem isHigherVersion_returns (new current : string) :
  (length (versionParts new) <= 3)%nat \/
  (length (versionParts new) <= length (versionParts current))%nat ->
  is_Some (isHigherVersion new current).
Proof.
  intros H. unfold isHigherVersion. apply compareParts_is_Some.
  rewrite !length_padTo3. unfold versionParts in H. lia.
Qed.

Lemma isHigherVersion_returns_witness :
  is_Some (isHigherVersion "v2.1" "2.0.5.7").
Proof.
  apply isHigherVersion_returns. left. vm_compute. lia.
Defined.

(** ** The loader's validation *)

Lemma registerAll_inl (entries : list (string * option InvokeFunc)) : forall p,
  NoDup entries.*1 ->
  Forall (fun e : string * option InvokeFunc => e.1 <> "" /\ is_Some e.2) entries ->
  exists p',
    Loader.registerAll entries p = inl p' /\
    id p' = id p /\ bureau p' = bureau p /\ refs p' = refs p /\
    forall name,
      funcs p' !! name
      = match (list_to_map entries : gmap string (option InvokeFunc)) !! name with
        | Some fn => fn
        | None => funcs p !! name
        end.
Proof.
  induction entries as [| [name fn] rest IH]; intros p Hnd Hvalid.
  - exists p. simpl. repeat split; reflexivity.
  - cbn [fmap list_fmap fst] in Hnd. apply NoDup_cons in Hnd as [Hnin Hnd].
    apply Forall_cons in Hvalid as [[Hname [f Hfn]] Hvalid].
    simpl in Hname, Hfn. subst fn.
    simpl. unfold Loader.validateFunc.
    apply String.eqb_neq in Hname. rewrite Hname.
    destruct (IH (Plugin.RegisterFunc name f p) Hnd Hvalid)
      as (p' & Hrun & Hid & Hb & Hr & Hf).
    exists p'. split; [exact Hrun |]. repeat split; try assumption.
    intros name'. rewrite Hf. unfold Plugin.RegisterFunc. cbn [funcs].
    destruct (decide (name = name')) as [<- | Hne].
    + rewrite (not_elem_of_list_to_map_1 _ _ Hnin), !lookup_insert_eq. reflexivity.
    + rewrite !lookup_insert_ne by assumption. reflexivity.
Qed.

Lemma registerAll_inr (entries : list (string * option InvokeFunc)) : forall p,
  Exists (fun e : string * option InvokeFunc => e.1 = "" \/ e.2 = None) entries ->
  exists err, Loader.registerAll entries p = inr err.
Proof.
  induction entries as [| [name fn] rest IH]; intros p Hex.
  - apply Exists_nil in Hex. contradiction.
  - simpl. unfold Loader.validateFunc.
    destruct (String.eqb_spec name "") as [-> | Hname]; [eauto |].
    destruct fn as [f |]; [| eauto].
    apply Exists_cons in Hex as [[? | ?] | Hex]; simpl in *; try congruence.
    apply IH. exact Hex.
Qed.

Lemma entries_valid_or_not (entries : list (string * option InvokeFunc)) :
  Forall (fun e : string * option InvokeFunc => e.1 <> "" /\ is_Some e.2) entries \/
  Exists (fun e : string * option InvokeFunc => e.1 = "" \/ e.2 = None) entries.
Proof.
  induction entries as [| [name fn] rest [IH | IH]].
  - left. constructor.
  - destruct (String.eqb_spec name "") as [-> | Hname];
      [right; left; left; reflexivity |].
    destruct fn as [f |]; [| right; left; right; reflexivity].
    left. constructor; [split; [exact Hname | eauto] | exact IH].
  - right. right. exact IH.
Qed.

(** [validateAndCreatePlugin] makes a plugin exactly when the shared object
    exports a [*Bureau] as "Export" and a function map as "Functions" in
    which every name is non-empty and every function non-nil; otherwise it
    returns an error and no plugin.  The plugin it makes wraps that bureau,
    has a zero reference count and has exactly the functions of the map. *)
Theorem validateAndCreatePlugin_accepts (ident : positive) (plug : Loader.Opened) :
  ((exists p, Loader.validateAndCreatePlugin ident plug = inl p) <->
   exists b fs,
     plug "Export" = Some (Loader.SymBureau b) /\
     plug "Functions" = Some (Loader.SymFunctions fs) /\
     forall name fn, fs !! name = Some fn -> name <> "" /\ is_Some fn) /\
  (forall p b fs,
     Loader.validateAndCreatePlugin ident plug = inl p ->
     plug "Export" = Some (Loader.SymBureau b) ->
     plug "Functions" = Some (Loader.SymFunctions fs) ->
     id p = ident /\ bureau p = b /\ refs p = 0 /\
     forall name f, funcs p !! name = Some f <-> fs !! name = Some (Some f)).
Proof.
  unfold Loader.validateAndCreatePlugin.
  destruct (plug "Export") as [[b | fs0 |] |];
    try (split; [split; [intros [p H]; discriminate
                        | intros (b' & fs & H & _); discriminate]
                | intros p b' fs H; discriminate]).
  destruct (plug "Functions") as [[b0 | fs |] |];
    try (split; [split; [intros [p H]; discriminate
                        | intros (b' & fs' & _ & H & _); discriminate]
                | intros p b' fs' H; discriminate]).
  destruct (entries_valid_or_not (map_to_list fs)) as [Hvalid | Hinvalid].
  - destruct (registerAll_inl (map_to_list fs) (Plugin.NewPlugin ident b)
                (NoDup_fst_map_to_list fs) Hvalid)
      as (p' & Hrun & Hid & Hb & Hr & Hf).
    rewrite Hrun. split.
    + split; [| eauto]. intros _. exists b, fs. repeat split;
        rewrite Forall_forall in Hvalid;
        apply (Hvalid (name, fn)); now apply elem_of_map_to_list.
    + intros p b' fs' [= <-] [= <-] [= <-]. repeat split; try assumption.
      * rewrite Hf, list_to_map_to_list.
        destruct (fs !! name) as [fn |]; [intros ->; reflexivity |].
        simpl. rewrite lookup_empty. discriminate.
      * intros Hfs. rewrite Hf, list_to_map_to_list, Hfs. reflexivity.
  - destruct (registerAll_inr (map_to_list fs) (Plugin.NewPlugin ident b) Hinvalid)
      as [err Hrun].
    rewrite Hrun. split; [| intros p b' fs' H; discriminate].
    split; [intros [p H]; discriminate |].
    intros (b' & fs' & _ & [= <-] & Hall). exfalso.
    apply Exists_exists in Hinvalid as ([name fn] & Hin & Hbad).
    apply elem_of_map_to_list in Hin. destruct (Hall name fn Hin) as [Hn [f Hf]].
    simpl in Hbad. destruct Hbad; congruence.
Qed.

(** ** Function tables *)

(** A function registered under a name is the one a call of that name
    runs, the other names keep their functions, and a name the table has
    not yields the function-not-found error without any call into plugin
    code; [GetFunctions] lists the names of the table, each once. *)
Theorem RegisterFunc_then_Call (p : Plugin) (name : string) (fn : InvokeFunc)
  (args : list Value) (w : World) :
  let p' := Plugin.RegisterFunc name fn p in
  Plugin.Call p' name args w
  = Ret ((fn args).1.1, (fn args).1.2)
      (set_now (fun t => t + (fn args).2)
         (set_trace (fun t => t ++ [EvInvoke (id p) name args]) w)) /\
  (forall other, other <> name -> funcs p' !! other = funcs p !! other) /\
  (forall other, funcs p !! other = None ->
     Plugin.Call p other args w = Ret (VNil, Some (ErrFuncNotFound other)) w) /\
  NoDup (Plugin.GetFunctions p') /\
  (forall other, other ∈ Plugin.GetFunctions p' <->
                 other = name \/ other ∈ Plugin.GetFunctions p).
Proof.
  cbv zeta. unfold Plugin.Call, Plugin.RegisterFunc, Plugin.GetFunctions. cbn [funcs id].
  unfold InvokeFunc in *. rewrite lookup_insert_eq.
  repeat split.
  - destruct (fn args) as [[r e] took]. reflexivity.
  - intros other Hne. apply lookup_insert_ne. congruence.
  - intros other Hnone. rewrite Hnone. reflexivity.
  - apply NoDup_fst_map_to_list.
  - intros Hin. apply list_elem_of_fmap in Hin as ([k v] & -> & Hin).
    apply elem_of_map_to_list in Hin. simpl.
    destruct (decide (name = k)) as [-> | Hne]; [left; reflexivity | right].
    rewrite lookup_insert_ne in Hin by assumption.
    apply list_elem_of_fmap. exists (k, v).
    split; [reflexivity | now apply elem_of_map_to_list].
  - intros [-> | Hin].
    + apply list_elem_of_fmap. exists (name, fn).
      split; [reflexivity |]. apply elem_of_map_to_list, lookup_insert_eq.
    + destruct (decide (name = other)) as [-> | Hne].
      * apply list_elem_of_fmap. exists (other, fn).
        split; [reflexivity |]. apply elem_of_map_to_list, lookup_insert_eq.
      * apply list_elem_of_fmap in Hin as ([k v] & -> & Hin).
        apply elem_of_map_to_list in Hin. simpl in Hne.
        apply list_elem_of_fmap. exists (k, v). split; [reflexivity |].
        apply elem_of_map_to_list. rewrite lookup_insert_ne by assumption. exact Hin.
Qed.

(** [GetPluginFunctions]: for a name that is not registered the not-found
    error; for a registered one the names of the functions of its current
    instance, each once, and nothing changes. *)
Theorem GetPluginFunctions_lists (w : World) (pluginName : string) :
  (plugins w !! pluginName = None ->
   Manager.GetPluginFunctions pluginName w
   = Ret ([], Some (ErrPluginNotFound pluginName)) w) /\
  (forall l inst,
     plugins w !! pluginName = Some (addr l) -> instances w !! l = Some inst ->
     exists names,
       Manager.GetPluginFunctions pluginName w = Ret (names, None) w /\
       NoDup names /\
       forall f, f ∈ names <-> is_Some (funcs (PluginInstance.Plugin inst) !! f)).
Proof.
  unfold Manager.GetPluginFunctions, Manager.deref. unfold_monad. split.
  - intros ->. reflexivity.
  - intros l inst -> Hi. rewrite Hi. eexists. split; [reflexivity |].
    unfold Plugin.GetFunctions. split; [apply NoDup_fst_map_to_list |].
    intros f. split.
    + intros Hin. apply list_elem_of_fmap in Hin as ([k v] & -> & Hin).
      apply elem_of_map_to_list in Hin. eauto.
    + intros [v Hv]. apply list_elem_of_fmap. exists (f, v).
      split; [reflexivity | now apply elem_of_map_to_list].
Qed.

(** ** Reference counts *)

Lemma AddRef_iter (n : nat) : forall p,
  - 2 ^ 31 <= refs p -> refs p + Z.of_nat n < 2 ^ 31 ->
  Nat.iter n Plugin.AddRef p
  = mkPlugin (id p) (bureau p) (funcs p) (refs p + Z.of_nat n).
Proof.
  induction n as [| n IH]; intros p Hlo Hhi.
  - simpl. rewrite Z.add_0_r. destruct p; reflexivity.
  - rewrite Nat.iter_succ, IH by lia. unfold Plugin.AddRef. cbn [id bureau funcs refs].
    rewrite int32_small by lia. f_equal. lia.
Qed.

Lemma DecRef_iter (n : nat) : forall p,
  - 2 ^ 31 <= refs p - Z.of_nat n -> refs p < 2 ^ 31 ->
  Nat.iter n (fun q => (Plugin.DecRef q).1) p
  = mkPlugin (id p) (bureau p) (funcs p) (refs p - Z.of_nat n).
Proof.
  induction n as [| n IH]; intros p Hlo Hhi.
  - simpl. rewrite Z.sub_0_r. destruct p; reflexivity.
  - rewrite Nat.iter_succ, IH by lia. unfold Plugin.DecRef. cbn [id bureau funcs refs fst].
    rewrite int32_small by lia. f_equal. lia.
Qed.

(** Reference counting, within 32 bits: [n] times [AddRef] raise the count
    by [n], as many [DecRef] bring the plugin back to where it was, and
    [DecRef] reports that no reference is left exactly when it takes the
    count from one to zero. *)
Theorem refs_round_trip (p : Plugin) (n : nat) :
  0 <= refs p -> refs p + Z.of_nat n < 2 ^ 31 ->
  let p' := Nat.iter n Plugin.AddRef p in
  Plugin.GetRefs p' = refs p + Z.of_nat n /\
  Nat.iter n (fun q => (Plugin.DecRef q).1) p' = p /\
  ((Plugin.DecRef p).2 = true <-> refs p = 1).
Proof.
  intros Hlo Hhi. cbv zeta.
  rewrite AddRef_iter by lia. unfold Plugin.GetRefs. cbn [refs].
  split; [reflexivity |]. split.
  - rewrite DecRef_iter; cbn [id bureau funcs refs]; try lia.
    destruct p as [i b f r]. cbn. f_equal. lia.
  - unfold Plugin.DecRef. cbn [snd]. rewrite int32_small by lia.
    destruct (Z.eqb_spec (refs p + -1) 0); split; intros; try lia; try reflexivity;
      discriminate.
Qed.

Lemma refs_round_trip_witness :
  Nat.iter 3 (fun q => (Plugin.DecRef q).1)
    (Nat.iter 3 Plugin.AddRef (Mock.NewMockPlugin 1 "1.0.0" Mock.mockFuncs))
  = Mock.NewMockPlugin 1 "1.0.0" Mock.mockFuncs.
Proof.
  apply (refs_round_trip (Mock.NewMockPlugin 1 "1.0.0" Mock.mockFuncs) 3).
  - simpl. lia.
  - simpl. lia.
Defined.

(** ** Files the watcher sees *)

(** [handleNewPlugin] loads with the override of the plugin's name as it is
    written, not merged over the default: for a name without current
    instance, the module is initialised with the override's arguments and
    gets a breaker with the override's breaker configuration, whatever the
    default holds.  An error of the load is not returned. *)
Theorem handleNewPlugin_uses_override (w : World) (path : string) (plugin : Plugin)
  (s : PluginSpecificConfig) (err : error) :
  let pluginName := getPluginNameFromPath path in
  plugins w !! pluginName = None ->
  PluginConfigs (config w) !! pluginName = Some s ->
  Bureau.Init (bureau plugin) (InitArgs s) = None ->
  (exists lb w',
     Manager.handleNewPlugin path (inl plugin) w = Ret tt w' /\
     breakers w' !! pluginName = Some (addr lb) /\
     cbs w' !! lb = Some (CircuitBreaker.New (CircuitBreaker s)) /\
     trace w' = trace w ++ [EvInit (id plugin) (InitArgs s)]) /\
  Manager.handleNewPlugin path (inr err) w = Ret tt w.
Proof.
  intros pluginName Hnone Hs Hinit. split.
  - unfold Manager.handleNewPlugin. unfold_monad. fold pluginName. rewrite Hs.
    rewrite (LoadPluginWithConfig_first _ _ _ _ Hnone). fold pluginName.
    cbn [default]. rewrite (initAndStore_installs _ _ _ _ _ Hinit).
    eexists _, _. split; [reflexivity |]. cbn [breakers cbs trace].
    rewrite !lookup_insert_eq. repeat split.
  - unfold Manager.handleNewPlugin, Manager.LoadPluginWithConfig. unfold_monad.
    fold pluginName. rewrite Hs. reflexivity.
Qed.

(** A load that the watcher starts for "/plugins/test-plugin.so" and that
    fails to open the file changes nothing. *)
Lemma handleNewPlugin_uses_override_witness :
  Manager.handleNewPlugin "/plugins/test-plugin.so" (inr (ErrPlugin "open failed"))
    (mkWorld ∅ ∅ ∅ (PluginMetrics.NewPluginMetrics true) Mock.configWithOverride ∅ ∅ 0 [])
  = Ret tt
    (mkWorld ∅ ∅ ∅ (PluginMetrics.NewPluginMetrics true) Mock.configWithOverride ∅ ∅ 0 []).
Proof.
  refine (proj2 (handleNewPlugin_uses_override
                   (mkWorld ∅ ∅ ∅ (PluginMetrics.NewPluginMetrics true)
                      Mock.configWithOverride ∅ ∅ 0 [])
                   "/plugins/test-plugin.so"
                   (Mock.NewMockPlugin 2 "1.0.0" Mock.mockFuncs)
                   Mock.overrideConfig (ErrPlugin "open failed") _ _ _));
    vm_compute; reflexivity.
Defined.

(** ** Plugin names *)


Lemma append_empty_l (s : string) : "" +:+ s = s.
Proof. reflexivity. Qed.

Lemma append_cons (c : ascii) (a b : string) : String c a +:+ b = String c (a +:+ b).
Proof. reflexivity. Qed.

Ltac simpl_append := rewrite ?append_cons, ?append_empty_l; simpl.


Lemma append_empty_r (s : string) : s +:+ "" = s.
Proof. induction s as [| c s IH]; simpl_append; [reflexivity | now rewrite IH]. Qed.

Lemma append_assoc' (a b c : string) : (a +:+ b) +:+ c = a +:+ (b +:+ c).
Proof. induction a as [| x a IH]; simpl_append; [reflexivity | now rewrite IH]. Qed.

Lemma length_append' (a b : string) :
  String.length (a +:+ b) = (String.length a + String.length b)%nat.
Proof. induction a as [| x a IH]; simpl_append; [reflexivity | now rewrite IH]. Qed.

Lemma substring_all (s : string) : substring 0 (String.length s) s = s.
Proof. induction s as [| c s IH]; simpl; [reflexivity | now rewrite IH]. Qed.

Lemma substring_prefix (a b : string) : substring 0 (String.length a) (a +:+ b) = a.
Proof.
  induction a as [| c a IH]; simpl_append; [destruct b; reflexivity | now rewrite IH].
Qed.

Lemma substring_suffix (a b : string) :
  substring (String.length a) (String.length b) (a +:+ b) = b.
Proof. induction a as [| c a IH]; simpl_append; [apply substring_all | exact IH]. Qed.

Lemma TrimSuffix_append (a b : string) : strings.TrimSuffix (a +:+ b) b = a.
Proof.
  unfold strings.TrimSuffix. rewrite length_append'.
  replace (String.length a + String.length b - String.length b)%nat
    with (String.length a) by lia.
  rewrite substring_suffix, substring_prefix, String.eqb_refl.
  destruct (Nat.leb_spec (String.length b) (String.length a + String.length b));
    [reflexivity | lia].
Qed.

Lemma rev_string_append (a : string) : forall b acc,
  filepath.rev_string (a +:+ b) acc = filepath.rev_string b (filepath.rev_string a acc).
Proof.
  induction a as [| c a IH]; intros b acc; simpl_append; [reflexivity | apply IH].
Qed.

Lemma rev_string_acc (s : string) : forall acc,
  filepath.rev_string s acc = filepath.rev_string s "" +:+ acc.
Proof.
  induction s as [| c s IH]; intros acc; simpl; [reflexivity |].
  rewrite IH, (IH (String c "")), append_assoc'. reflexivity.
Qed.

Lemma rev_string_involutive (s : string) : forall a b,
  filepath.rev_string (filepath.rev_string s a) b = filepath.rev_string a (s +:+ b).
Proof.
  induction s as [| c s IH]; intros a b; simpl_append; [reflexivity | now rewrite IH].
Qed.

Lemma hasByte_rev_string (c : ascii) (s : string) : forall acc,
  hasByte c (filepath.rev_string s acc) = hasByte c s || hasByte c acc.
Proof.
  induction s as [| d s IH]; intros acc; simpl; [reflexivity |].
  rewrite IH. simpl. destruct (Ascii.eqb d c), (hasByte c s), (hasByte c acc); reflexivity.
Qed.

Lemma lastElement_until_separator (r : string) : forall acc t,
  hasByte "/" r = false ->
  filepath.lastElement (r +:+ String "/" t) acc = filepath.rev_string r acc.
Proof.
  induction r as [| c r IH]; intros acc t Hr; simpl_append; [reflexivity |].
  simpl in Hr. apply orb_false_elim in Hr as [Hc Hr].
  unfold filepath.isPathSeparator. rewrite Hc. apply IH. exact Hr.
Qed.

Lemma lastElement_whole (r : string) : forall acc,
  hasByte "/" r = false -> filepath.lastElement r acc = filepath.rev_string r acc.
Proof.
  induction r as [| c r IH]; intros acc Hr; simpl; [reflexivity |].
  simpl in Hr. apply orb_false_elim in Hr as [Hc Hr].
  unfold filepath.isPathSeparator. rewrite Hc. apply IH. exact Hr.
Qed.

Lemma extFrom_until_dot (r : string) : forall acc t,
  hasByte "/" r = false -> hasByte "." r = false ->
  filepath.extFrom (r +:+ String "." t) acc = String "." (filepath.rev_string r acc).
Proof.
  induction r as [| c r IH]; intros acc t Hs Hd; simpl_append; [reflexivity |].
  simpl in Hs, Hd. apply orb_false_elim in Hs as [Hc Hs].
  apply orb_false_elim in Hd as [Hc' Hd].
  unfold filepath.isPathSeparator. rewrite Hc, Hc'. apply IH; assumption.
Qed.

Lemma extFrom_no_dot (r : string) : forall acc t,
  hasByte "." r = false ->
  filepath.extFrom (r +:+ String "/" t) acc = "" /\ filepath.extFrom r acc = "".
Proof.
  induction r as [| c r IH]; intros acc t Hd; simpl_append; [split; reflexivity |].
  simpl in Hd. apply orb_false_elim in Hd as [Hc' Hd].
  unfold filepath.isPathSeparator. rewrite Hc'.
  destruct (Ascii.eqb c "/"); [split; reflexivity | apply IH; exact Hd].
Qed.

Lemma Base_of_file (dir file : string) :
  file <> "" -> hasByte "/" file = false ->
  filepath.Base (dir +:+ String "/" file) = file /\ filepath.Base file = file.
Proof.
  intros Hne Hs.
  assert (Hrev : exists c r, filepath.rev_string file "" = String c r /\
                             Ascii.eqb c "/" = false /\ hasByte "/" r = false).
  { pose proof (hasByte_rev_string "/" file "") as Hh. rewrite Hs in Hh. simpl in Hh.
    pose proof (rev_string_involutive file "" "") as Hi. rewrite append_empty_r in Hi.
    destruct (filepath.rev_string file "") as [| c r]; [simpl in Hi; congruence |].
    simpl in Hh. apply orb_false_elim in Hh as [? ?]. eauto. }
  destruct Hrev as (c & r & Hr & Hc & Hrs).
  assert (Hback : filepath.rev_string (String c r) "" = file).
  { rewrite <- Hr, rev_string_involutive. simpl. apply append_empty_r. }
  split.
  - assert (Hpath : dir +:+ String "/" file <> "") by (destruct dir; discriminate).
    unfold filepath.Base.
    destruct (dir +:+ String "/" file) as [| p ps] eqn:Hp; [congruence |].
    rewrite <- Hp, rev_string_append. simpl filepath.rev_string at 1.
    rewrite rev_string_acc, Hr, append_cons.
    cbn [filepath.dropSeparators]. unfold filepath.isPathSeparator. rewrite Hc.
    cbn [filepath.lastElement]. unfold filepath.isPathSeparator. rewrite Hc.
    rewrite lastElement_until_separator by exact Hrs.
    change (filepath.rev_string r (String c "")) with (filepath.rev_string (String c r) "").
    rewrite Hback. destruct file; [congruence | reflexivity].
  - unfold filepath.Base. destruct file as [| p ps] eqn:Hp; [congruence |].
    rewrite <- Hp in *. rewrite Hr.
    cbn [filepath.dropSeparators]. unfold filepath.isPathSeparator. rewrite Hc.
    cbn [filepath.lastElement]. unfold filepath.isPathSeparator. rewrite Hc.
    rewrite lastElement_whole by exact Hrs.
    change (filepath.rev_string r (String c "")) with (filepath.rev_string (String c r) "").
    rewrite Hback. rewrite Hp. reflexivity.
Qed.

(** The name of a plugin is the last element of its path without the
    extension: the directory plays no part, the extension is what follows
    the last dot of the file name, and a file name without a dot is the
    name as it is. *)
Theorem getPluginNameFromPath_strips (dir base ext : string) :
  hasByte "/" base = false ->
  hasByte "/" ext = false -> hasByte "." ext = false ->
  getPluginNameFromPath (dir +:+ String "/" (base +:+ String "." ext)) = base /\
  getPluginNameFromPath (base +:+ String "." ext) = base /\
  (base <> "" -> hasByte "." base = false ->
   getPluginNameFromPath (dir +:+ String "/" base) = base).
Proof.
  intros Hb He Hd.
  assert (Hfile : hasByte "/" (base +:+ String "." ext) = false).
  { clear -Hb He. induction base as [| c b IH]; simpl in *; [exact He |].
    apply orb_false_elim in Hb as [-> Hb]. simpl. apply IH. exact Hb. }
  assert (Hne : base +:+ String "." ext <> "") by (destruct base; discriminate).
  assert (Hext : filepath.Ext (base +:+ String "." ext) = String "." ext).
  { unfold filepath.Ext. rewrite rev_string_append. simpl filepath.rev_string at 1.
    rewrite rev_string_acc, extFrom_until_dot.
    - rewrite rev_string_involutive. simpl. now rewrite append_empty_r.
    - rewrite hasByte_rev_string, He. reflexivity.
    - rewrite hasByte_rev_string, Hd. reflexivity. }
  destruct (Base_of_file dir _ Hne Hfile) as [Hbase1 Hbase2].
  unfold getPluginNameFromPath. rewrite Hbase1, Hbase2, Hext.
  split; [apply TrimSuffix_append |]. split; [apply TrimSuffix_append |].
  intros Hbne Hbd. destruct (Base_of_file dir base Hbne Hb) as [-> _].
  assert (Hno : filepath.Ext base = "").
  { unfold filepath.Ext.
    apply (extFrom_no_dot (filepath.rev_string base "") "" "").
    rewrite hasByte_rev_string, Hbd. reflexivity. }
  rewrite Hno. unfold strings.TrimSuffix. simpl.
  rewrite Nat.sub_0_r, substring_all.
  destruct (String.eqb _ _); reflexivity.
Qed.

Lemma getPluginNameFromPath_strips_witness :
  getPluginNameFromPath "/plugins/v2/test-plugin.so" = "test-plugin".
Proof.
  refine (proj1 (getPluginNameFromPath_strips "/plugins/v2" "test-plugin" "so" _ _ _));
    reflexivity.
Defined.
